(** * Linear Semantic Agent: the decision pipeline

    A shallow embedding of the decision pipeline of the Linear Semantic
    Agent (src/utils, src/models, src/tools/reasoning.py,
    src/integrations/firestore_client.py, src/integrations/vertex_ai.py,
    src/agent.py) and the properties of its specification.

    Modelling conventions.
    - Python [str] values are ASCII strings ([string], one [ascii] per
      character); [str.lower] maps A-Z to a-z, whitespace is the ASCII part
      of [str.isspace], [\w] is [[A-Za-z0-9_]].
    - Python [float] scores are exact rationals ([Q]): rounding of binary
      floating point is not modelled, NaN and infinities do not exist.
    - [datetime] values are integers ([Z]), a number of microseconds since
      an epoch; a [timedelta] is a difference of two of them.
    - A Python exception is its message ([str(e)]); code that may raise
      returns a [result].  Only [Exception] and its subclasses are modelled.
    - The coroutines are run to completion one after the other: an [await]
      is a call. *)

From Stdlib Require Import ZArith QArith Qround Qminmax Qabs Lqa Lia String Ascii
  List Bool Sorted.
From stdpp Require Import base option list strings pretty gmap.

Set Default Proof Using "Type".

(* ===================================================================== *)
(** * Exceptions                                                          *)
(* ===================================================================== *)

Abbreviation Exception := string.

Inductive result (A : Type) : Type :=
| Ok (a : A)
| Raise (e : Exception).
Arguments Ok {A} a.
Arguments Raise {A} e.

Definition rbind {A B} (r : result A) (k : A -> result B) : result B :=
  match r with
  | Ok a => k a
  | Raise e => Raise e
  end.

Declare Scope result_scope.
Delimit Scope result_scope with result.
Notation "'let?' x ':=' r 'in' k" :=
  (rbind r (fun x => k))
  (at level 10, x pattern, r at level 100, k at level 200) : result_scope.

(* ===================================================================== *)
(** * Numbers: Python's [min], [max], [int / int] and [np.clip] on Q      *)
(* ===================================================================== *)

Definition Qltb (a b : Q) : bool := negb (Qle_bool b a).
Definition Qgeb (a b : Q) : bool := Qle_bool b a.

(** [min(a, b)] keeps its first argument unless the second is smaller. *)
Definition py_min (a b : Q) : Q := if Qltb b a then b else a.
(** [max(a, b)] keeps its first argument unless the second is greater. *)
Definition py_max (a b : Q) : Q := if Qltb a b then b else a.

(** An [int] used in float arithmetic. *)
Definition of_int (n : nat) : Q := inject_Z (Z.of_nat n).

(** [np.clip(x, lo, hi)]. *)
Definition np_clip (x lo hi : Q) : Q :=
  if Qltb x lo then lo else if Qltb hi x then hi else x.

(* ===================================================================== *)
(** * src/utils/text_processing.py                                        *)
(* ===================================================================== *)

Definition code (c : ascii) : N := N_of_ascii c.

Definition ascii_lower (c : ascii) : ascii :=
  if (65 <=? code c)%N && (code c <=? 90)%N
  then ascii_of_N (code c + 32) else c.

(** [s.lower()] *)
Fixpoint lower (s : string) : string :=
  match s with
  | EmptyString => EmptyString
  | String c s' => String (ascii_lower c) (lower s')
  end.

(** [c.isspace()]: TAB, LF, VT, FF, CR, FS, GS, RS, US and SPACE. *)
Definition isspace (c : ascii) : bool :=
  ((9 <=? code c)%N && (code c <=? 13)%N)
  || ((28 <=? code c)%N && (code c <=? 32)%N).

(** [\w] *)
Definition isword (c : ascii) : bool :=
  ((48 <=? code c)%N && (code c <=? 57)%N)
  || ((65 <=? code c)%N && (code c <=? 90)%N)
  || ((97 <=? code c)%N && (code c <=? 122)%N)
  || (code c =? 95)%N.

Definition str_eqb (a b : string) : bool := String.eqb a b.

(** [needle in hay] *)
Fixpoint str_in (needle hay : string) : bool :=
  String.prefix needle hay
  || match hay with
     | EmptyString => false
     | String _ hay' => str_in needle hay'
     end.

Fixpoint lstrip (s : string) : string :=
  match s with
  | EmptyString => EmptyString
  | String c s' => if isspace c then lstrip s' else s
  end.

Fixpoint rstrip (s : string) : string :=
  match s with
  | EmptyString => EmptyString
  | String c s' =>
      let r := rstrip s' in
      if isspace c && str_eqb r EmptyString then EmptyString else String c r
  end.

(** [s.strip()] *)
Definition strip (s : string) : string := rstrip (lstrip s).

(** [re.sub(r'\s+', ' ', s)]; [in_run] says that the previous character
    was whitespace, already replaced. *)
Fixpoint collapse_ws (in_run : bool) (s : string) : string :=
  match s with
  | EmptyString => EmptyString
  | String c s' =>
      if isspace c
      then (if in_run then collapse_ws true s'
            else String " "%char (collapse_ws true s'))
      else String c (collapse_ws false s')
  end.

Definition normalize_text (text : string) : string :=
  if str_eqb text EmptyString then EmptyString
  else strip (collapse_ws false (lower text)).

(** [re.findall(r'\b\w+\b', s)]: the maximal runs of word characters.
    [cur] is the run being read. *)
Fixpoint findall_words (cur : string) (s : string) : list string :=
  match s with
  | EmptyString =>
      if str_eqb cur EmptyString then [] else [cur]
  | String c s' =>
      if isword c then findall_words (cur ++ String c EmptyString) s'
      else if str_eqb cur EmptyString then findall_words EmptyString s'
      else cur :: findall_words EmptyString s'
  end.

Definition stop_words : list string :=
  ["the"; "is"; "at"; "which"; "on"; "a"; "an"; "and"; "or"; "but";
   "in"; "with"; "to"; "for"; "of"; "as"; "by"; "this"; "that";
   "from"; "be"; "are"; "was"; "were"; "been"; "have"; "has"; "had";
   "do"; "does"; "did"; "will"; "would"; "could"; "should"]%string.

Definition str_mem (w : string) (l : list string) : bool :=
  existsb (str_eqb w) l.

Definition extract_keywords_min (text : string) (min_length : nat)
  : list string :=
  if str_eqb text EmptyString then []
  else
    let text := normalize_text text in
    let words := findall_words EmptyString text in
    List.filter (fun word =>
                   (min_length <=? String.length word)%nat
                   && negb (str_mem word stop_words))
                words.

(** [extract_keywords(text)] with the default [min_length=3]. *)
Definition extract_keywords (text : string) : list string :=
  extract_keywords_min text 3.

(** [re.match(r'^(thing|stuff|fix|improve|update)s?\s*$', s)]: one of the
    five words, an optional [s], then only whitespace. *)
Fixpoint all_space (s : string) : bool :=
  match s with
  | EmptyString => true
  | String c s' => isspace c && all_space s'
  end.

Fixpoint drop_prefix (p s : string) : option string :=
  match p, s with
  | EmptyString, _ => Some s
  | String a p', String b s' =>
      if Ascii.eqb a b then drop_prefix p' s' else None
  | String _ _, EmptyString => None
  end.

Definition match_vague_word (s : string) : bool :=
  existsb (fun w =>
             match drop_prefix w s with
             | Some rest =>
                 all_space rest
                 || match rest with
                    | String c rest' => Ascii.eqb c "s"%char && all_space rest'
                    | EmptyString => false
                    end
             | None => false
             end)
          ["thing"; "stuff"; "fix"; "improve"; "update"]%string.

(** [re.match(r'^(untitled|tbd|todo)$', s)]: [$] also matches before a
    final newline. *)
Definition match_vague_title (s : string) : bool :=
  existsb (fun w =>
             match drop_prefix w s with
             | Some rest =>
                 str_eqb rest EmptyString
                 || str_eqb rest (String (ascii_of_N 10) EmptyString)
             | None => false
             end)
          ["untitled"; "tbd"; "todo"]%string.

(** The patterns are matched with [re.IGNORECASE] against the normalized
    text, which is lower case already. *)
Definition is_empty_or_vague (text : string) : bool :=
  if str_eqb text EmptyString
     || (String.length (strip text) <? 10)%nat
  then true
  else
    let normalized := normalize_text text in
    match_vague_word normalized
    || match_vague_title normalized
    || all_space normalized.

Definition project_indicators : list (string * list string) :=
  [("technical",
     ["api"; "server"; "database"; "deployment"; "integration"; "sdk";
      "framework"]);
   ("business",
     ["customer"; "user"; "revenue"; "product"; "feature"; "requirement"]);
   ("development",
     ["implement"; "build"; "create"; "develop"; "deploy"; "setup";
      "configure"]);
   ("architecture",
     ["system"; "architecture"; "design"; "component"; "service";
      "infrastructure"])]%string.

(** The loop of [extract_project_indicators]: a category is added to the
    set at its first matching term, and the inner loop stops. *)
Definition category_found (text_lower : string) (terms : list string) : bool :=
  existsb (fun term => str_in term text_lower) terms.

Definition extract_project_indicators (text : string) : gset string :=
  let text_lower := lower text in
  fold_left
    (fun (found_indicators : gset string) '(category, terms) =>
       if category_found text_lower terms
       then {[ category ]} ∪ found_indicators
       else found_indicators)
    project_indicators ∅.

(* ===================================================================== *)
(** * src/models/mapache_context.py                                       *)
(* ===================================================================== *)

Module MapacheContext.

Definition VALID_DOMAINS : list (string * list string) :=
  [("core_platform",
     ["Agent Runtime"; "Linear Integration"; "GitHub Integration";
      "A2UI"; "Composio"; "A2A protocol"; "Vertex AI"]);
   ("saaS_integrations",
     ["Slack MCP"; "HubSpot MCP"; "Stripe MCP"; "Google Cloud MCP";
      "Linear MCP"; "GitHub MCP"; "MCP server"]);
   ("intelligence_features",
     ["Semantic Search"; "Gap Detection"; "Duplication Detection";
      "Insights"; "Embeddings"; "RAG"; "System of Intelligence"]);
   ("internal_ops",
     ["Infrastructure"; "Development Setup"; "Async Coding";
      "Dependency Management"; "GCP"; "Deployment"; "Docker";
      "Kubernetes"])]%string.

Definition FILTER_OUT_RULES : list (string * list string) :=
  [("personal_household",
     ["shopping"; "furniture"; "renovation"; "home maintenance";
      "curtain"; "door"; "awning"; "landscaping"; "household"]);
   ("learning_experiments",
     ["try out"; "explore"; "experiment"; "learning"; "study";
      "evaluate (for personal use)"; "proof-of-concept (non-mapache)"]);
   ("deprecated_platforms",
     ["mapache.solutions"; "renovate bot (completed)";
      "old n8n"; "asana"; "monday.com"; "clickup (migrated)"]);
   ("generic_vague",
     ["untitled"; "thing"; "fix stuff"; "[empty description]";
      "improve stuff"; "tbd"]);
   ("outside_scope",
     ["general productivity"; "meditation"; "well-being";
      "digital detox"; "phone addiction"; "personal finance";
      "subscriptions (personal)"])]%string.

Definition MAPACHE_KEYWORDS : list string :=
  ["agent"; "mcp"; "a2ui"; "a2a"; "integration"; "composio"; "vertex ai";
   "linear semantic"; "github mcp"; "system of intelligence"; "sub-agent";
   "deployment"; "gcp"; "firestore"; "embeddings"; "rag"; "conversational";
   "oauth"; "saaS"; "orchestration"; "chief agent"; "runtime"; "gemini";
   "semantic"; "duplicate detection"; "gap detection"; "slack";
   "hubspot"]%string.

Definition FILTER_OUT_KEYWORDS : list string :=
  ["personal"; "learning"; "experiment (non-mapache)"; "try";
   "shopping"; "household"; "meditation"; "well-being"; "todo (non-work)";
   "n8n (old)"; "asana"; "monday.com"; "jira (not planned)";
   "furniture"; "renovation"; "home"; "family"; "hobby"]%string.

Definition RED_FLAGS : list string :=
  ["is this valid?"; "[empty description]"; "figure out"; "not sure";
   "maybe"; "digital well-being"; "personal task"; "home improvement";
   "shopping list"]%string.

(** The first entry of a table (a dict, in insertion order) one of whose
    keywords, lowered, occurs in the lowered description. *)
Definition first_rule (table : list (string * list string))
           (description_lower : string) : option string :=
  match
    List.find (fun '(_, keywords) =>
                 existsb (fun kw => str_in (lower kw) description_lower)
                         keywords)
              table
  with
  | Some (name, _) => Some name
  | None => None
  end.

Definition get_domain (task_description : string) : option string :=
  first_rule VALID_DOMAINS (lower task_description).

Definition get_filter_category (task_description : string)
  : option string :=
  first_rule FILTER_OUT_RULES (lower task_description).

Definition tech_tags : list (string * list string) :=
  [("mcp", ["mcp"; "model context protocol"]);
   ("agent", ["agent"; "sub-agent"]);
   ("a2ui", ["a2ui"; "user interface"]);
   ("integration", ["integration"; "oauth"]);
   ("embeddings", ["embeddings"; "semantic"; "rag"]);
   ("deployment", ["deployment"; "docker"; "kubernetes"]);
   ("gcp", ["gcp"; "google cloud"; "vertex ai"])]%string.

(** [list(set(tags))]: the order in which Python enumerates a set of
    strings is not specified; the model takes the order of [elements]. *)
Definition get_tags (task_description : string) : list string :=
  let description_lower := lower task_description in
  let tags :=
    match get_domain description_lower with
    | Some domain =>
        if str_eqb domain EmptyString then [] else [domain]
    | None => []
    end in
  let tags :=
    tags ++
    List.map fst
      (List.filter
         (fun '(_, keywords) =>
            existsb (fun kw => str_in kw description_lower) keywords)
         tech_tags) in
  elements (list_to_set tags : gset string).

End MapacheContext.

(** Truth value of an [Optional[str]]: neither [None] nor empty. *)
Definition truthy (o : option string) : bool :=
  match o with
  | Some s => negb (str_eqb s EmptyString)
  | None => false
  end.

(* ===================================================================== *)
(** * src/config/constants.py                                             *)
(* ===================================================================== *)

Definition SIMILARITY_THRESHOLD_MATCH : Q := 0.75.
Definition SIMILARITY_THRESHOLD_DUPLICATE : Q := 0.80.
Definition SIMILARITY_THRESHOLD_EXACT : Q := 0.90.
Definition CONFIDENCE_FILTER : Q := 0.40.
Definition SCORE_WEIGHT_CONTEXT : Q := 0.40.
Definition SCORE_WEIGHT_SIMILARITY : Q := 0.30.
Definition SCORE_WEIGHT_CLARITY : Q := 0.20.
Definition SCORE_WEIGHT_RED_FLAGS : Q := 0.10.
Definition ALIGNMENT_SCORE_THRESHOLD : Q := 0.75.
(** Seconds. *)
Definition CACHE_TTL_PROJECTS : Z := 3600.
Definition CACHE_TTL_EMBEDDINGS : Z := 2592000.
Definition MIN_DESCRIPTION_LENGTH : nat := 10.

(* ===================================================================== *)
(** * src/models                                                          *)
(* ===================================================================== *)

(** A numpy vector, or a [List[float]]. *)
Abbreviation ndarray := (list Q).

(** Microseconds since the epoch. *)
Abbreviation datetime := Z.

Record Task := {
  task_id : string;
  task_description : string;
  source : string;
  priority : option string
}.

Record LinearProject := {
  id : string;
  name : string;
  description : option string;
  team : option string;
  status : option string;
  cached_at : option datetime;
  embedding : option (list Q);
  alignment_score : option Q;
  domain : option string
}.

Record Match := {
  project : LinearProject;
  similarity_score : Q;
  match_reason : option string
}.

Inductive DecisionType := ADD | FILTER | CONSOLIDATE | CLARIFY.

(** [Decision]; [mapped_issue] and [blocking_issues] are never set by the
    pipeline and keep their defaults, [created_at] is left out. *)
Record Decision := {
  decision : DecisionType;
  confidence : Q;
  mapped_project : option string;
  consolidate_with : list string;
  reasoning : string;
  suggested_action : string;
  d_alignment_score : Q;
  tags : list string;
  clarification_questions : list string
}.

(** pydantic's validation of [Decision(...)]: [confidence] and
    [alignment_score] are declared [ge=0.0, le=1.0]; a value out of range
    raises a ValidationError. *)
Definition in_unit (x : Q) : bool := Qle_bool 0 x && Qle_bool x 1.

Definition new_Decision (d : Decision) : result Decision :=
  if negb (in_unit (confidence d))
  then Raise "1 validation error for Decision: confidence"
  else if negb (in_unit (d_alignment_score d))
  then Raise "1 validation error for Decision: alignment_score"
  else Ok d.

(** ** Formatting of floats in f-strings *)

(** Round to the nearest integer, ties to even. *)
Definition round_half_even (q : Q) : Z :=
  let f := Qfloor q in
  let r := (q - inject_Z f)%Q in
  if Qltb r 0.5 then f
  else if Qltb 0.5 r then (f + 1)%Z
  else if Z.even f then f else (f + 1)%Z.

Fixpoint pad_zeros (width : nat) (s : string) : string :=
  match width with
  | O => s
  | S w => if (String.length s <? width)%nat
           then String "0"%char (pad_zeros w s) else s
  end.

(** [f"{q:.<digits>f}"] *)
Definition format_f (digits : nat) (q : Q) : string :=
  let scale := (10 ^ Z.of_nat digits)%Z in
  let r := round_half_even (q * inject_Z scale)%Q in
  let a := Z.abs r in
  let sign := if (r <? 0)%Z then "-"%string else EmptyString in
  let int_part := pretty (a / scale)%Z in
  match digits with
  | O => (sign ++ int_part)%string
  | _ => (sign ++ int_part ++ "."
               ++ pad_zeros digits (pretty (a mod scale)%Z))%string
  end.

(** [f"{q:.0%}"] *)
Definition format_pct (q : Q) : string :=
  (format_f 0 (q * 100)%Q ++ "%")%string.

(* ===================================================================== *)
(** * src/utils/similarity.py                                             *)
(* ===================================================================== *)

(** [sorted.sort(key=lambda x: x[1], reverse=True)]: Python's sort is
    stable, also with [reverse=True]; here an insertion sort that puts an
    element behind the elements of greater or equal score that precede
    it. *)
Fixpoint insert_desc (x : nat * Q) (l : list (nat * Q)) : list (nat * Q) :=
  match l with
  | [] => [x]
  | y :: l' =>
      if Qltb (snd x) (snd y) then y :: insert_desc x l' else x :: y :: l'
  end.

Definition sort_desc (l : list (nat * Q)) : list (nat * Q) :=
  foldr insert_desc [] l.

(** [a / s] on a vector and a scalar. *)
Definition vec_div (a : ndarray) (s : Q) : ndarray :=
  List.map (fun x => (x / s)%Q) a.

(** [np.dot(a, b)] on two vectors: a ValueError when the lengths
    differ. *)
Definition np_dot (a b : ndarray) : result Q :=
  if (length a =? length b)%nat
  then Ok (fold_right Qplus 0%Q (zip_with Qmult a b))
  else Raise "shapes not aligned".

Section Similarity.

(** [np.linalg.norm]: the Euclidean norm of numpy, a square root, is a
    parameter of the development. *)
Variable np_linalg_norm : ndarray -> Q.

Definition cosine_similarity (vec1 vec2 : option ndarray) : result Q :=
  match vec1, vec2 with
  | Some vec1, Some vec2 =>
      if (length vec1 =? 0)%nat || (length vec2 =? 0)%nat then Ok 0%Q
      else
        let vec1_norm := vec_div vec1 (np_linalg_norm vec1 + 1e-10)%Q in
        let vec2_norm := vec_div vec2 (np_linalg_norm vec2 + 1e-10)%Q in
        (let? similarity := np_dot vec1_norm vec2_norm in
         Ok (np_clip similarity 0 1))%result
  | _, _ => Ok 0%Q
  end.

(** The loop of [find_most_similar] from index [idx] on. *)
Fixpoint similarities_from (query : option ndarray) (threshold : Q)
         (idx : nat) (candidates : list (option ndarray))
  : result (list (nat * Q)) :=
  match candidates with
  | [] => Ok []
  | candidate :: rest =>
      match candidate with
      | Some _ =>
          (let? score := cosine_similarity query candidate in
           let? similarities :=
             similarities_from query threshold (S idx) rest in
           Ok (if Qgeb score threshold
               then (idx, score) :: similarities
               else similarities))%result
      | None => similarities_from query threshold (S idx) rest
      end
  end.

Definition find_most_similar (query_embedding : option ndarray)
           (candidate_embeddings : list (option ndarray)) (threshold : Q)
  : result (list (nat * Q)) :=
  match query_embedding, candidate_embeddings with
  | None, _ => Ok []
  | _, [] => Ok []
  | _, _ =>
      (let? similarities :=
         similarities_from query_embedding threshold 0 candidate_embeddings in
       Ok (sort_desc similarities))%result
  end.

End Similarity.

(* ===================================================================== *)
(** * src/tools/reasoning.py                                              *)
(* ===================================================================== *)

Definition count_in (keywords : list string) (text : string) : nat :=
  length (List.filter (fun kw => str_in kw text) keywords).

Definition any_in (keywords : list string) (text : string) : bool :=
  existsb (fun kw => str_in kw text) keywords.

Module ReasoningEngine.

Definition filter_score (task : Task) : Q :=
  let description_lower := lower (task_description task) in
  let filter_category :=
    MapacheContext.get_filter_category description_lower in
  if truthy filter_category then 0.1%Q
  else
    let mapache_count :=
      count_in MapacheContext.MAPACHE_KEYWORDS description_lower in
    let filter_count :=
      count_in MapacheContext.FILTER_OUT_KEYWORDS description_lower in
    let red_flag_count :=
      count_in MapacheContext.RED_FLAGS description_lower in
    let base_score := 0.5%Q in
    let base_score :=
      (base_score + py_min (of_int mapache_count * 0.1) 0.4)%Q in
    let base_score := (base_score - of_int filter_count * 0.2)%Q in
    let base_score := (base_score - of_int red_flag_count * 0.15)%Q in
    let indicators := extract_project_indicators description_lower in
    let base_score := (base_score + of_int (size indicators) * 0.05)%Q in
    py_max 0 (py_min 1 base_score).

Definition keyword_set (text : string) : gset string :=
  list_to_set (extract_keywords text).

Definition duplicate_score (task : Task) (existing_project : LinearProject)
           (similarity : Q) : Q :=
  let base_score := similarity in
  let task_keywords := keyword_set (task_description task) in
  let project_keywords := keyword_set (name existing_project) in
  let project_keywords :=
    if truthy (description existing_project)
    then project_keywords
           ∪ keyword_set (default EmptyString (description existing_project))
    else project_keywords in
  if negb (bool_decide (task_keywords = ∅))
     && negb (bool_decide (project_keywords = ∅))
  then
    let overlap :=
      (of_int (size (task_keywords ∩ project_keywords))
       / of_int (size (task_keywords ∪ project_keywords)))%Q in
    ((base_score + overlap) / 2)%Q
  else base_score.

Definition clarity_indicators : list string :=
  ["implement"; "build"; "create"; "deploy"; "setup"; "configure";
   "add"; "remove"; "update"; "fix"; "optimize"; "integrate"]%string.
Definition vague_indicators : list string :=
  ["maybe"; "possibly"; "think about"; "consider"; "explore"]%string.
Definition technical_terms : list string :=
  ["api"; "database"; "service"; "endpoint"; "component"; "module"]%string.

Definition clarity_score (task : Task) : Q :=
  let description := strip (task_description task) in
  if (String.length description <? MIN_DESCRIPTION_LENGTH)%nat then 0.2%Q
  else if is_empty_or_vague description then 0.3%Q
  else
    let has_clarity := any_in clarity_indicators (lower description) in
    let has_vague := any_in vague_indicators (lower description) in
    let length_score :=
      py_min (of_int (String.length description) / 200) 1 in
    let base_score := length_score in
    let base_score :=
      if has_clarity then (base_score + 0.3)%Q else base_score in
    let base_score :=
      if has_vague then (base_score - 0.2)%Q else base_score in
    let has_technical := any_in technical_terms (lower description) in
    let base_score :=
      if has_technical then (base_score + 0.1)%Q else base_score in
    py_max 0 (py_min 1 base_score).

Definition alignment_score (filter_s similarity_s clarity_s : Q) : Q :=
  let red_flags_s := 1.0%Q in
  let alignment :=
    (SCORE_WEIGHT_CONTEXT * filter_s
     + SCORE_WEIGHT_SIMILARITY * similarity_s
     + SCORE_WEIGHT_CLARITY * clarity_s
     + SCORE_WEIGHT_RED_FLAGS * red_flags_s)%Q in
  py_max 0 (py_min 1 alignment).

(** [project.embedding] is used when it is neither [None] nor empty. *)
Definition has_embedding (p : LinearProject) : bool :=
  match embedding p with
  | Some (_ :: _) => true
  | _ => false
  end.

Definition top_project (matches : list Match) : option string :=
  match matches with
  | m :: _ => Some (id (project m))
  | [] => None
  end.

Definition _create_add_decision (task : Task) (matches : list Match)
           (alignment_score filter_score clarity_score : Q)
  : result Decision :=
  let reasoning :=
    ("This task aligns with mapache.app work (alignment: "
       ++ format_f 2 alignment_score ++ "). ")%string in
  let reasoning :=
    match matches with
    | _ :: _ =>
        (reasoning ++ "Found " ++ pretty (length matches)
           ++ " related project(s), but no strong duplicate. ")%string
    | [] => reasoning
    end in
  let tags := MapacheContext.get_tags (task_description task) in
  let domain := MapacheContext.get_domain (task_description task) in
  let action := "Create new Linear project/issue"%string in
  let action :=
    if truthy domain
    then (action ++ " in domain: " ++ default EmptyString domain)%string
    else action in
  new_Decision
    {| decision := ADD;
       confidence := py_min (alignment_score + 0.1) 1;
       mapped_project := top_project matches;
       consolidate_with := [];
       reasoning := reasoning;
       suggested_action := action;
       d_alignment_score := alignment_score;
       tags := tags;
       clarification_questions := [] |}.

Definition _create_filter_decision (task : Task) (filter_score : Q)
  : result Decision :=
  let filter_category :=
    MapacheContext.get_filter_category (task_description task) in
  let reasoning :=
    ("This task does not align with mapache.app work (score: "
       ++ format_f 2 filter_score ++ "). ")%string in
  let reasoning :=
    if truthy filter_category
    then (reasoning ++ "Detected category: "
            ++ default EmptyString filter_category ++ ". ")%string
    else reasoning in
  let reasoning := (reasoning ++ "Not suitable for Linear.")%string in
  new_Decision
    {| decision := FILTER;
       confidence := (1 - filter_score)%Q;
       mapped_project := None;
       consolidate_with := [];
       reasoning := reasoning;
       suggested_action :=
         "Archive this task. Store personal tasks in Google Tasks instead.";
       d_alignment_score := filter_score;
       tags := if truthy filter_category
               then [default EmptyString filter_category]
               else ["not_mapache"%string];
       clarification_questions := [] |}.

(** [matches] is not empty where the engine calls this; [matches[0]] on
    an empty list is an IndexError. *)
Definition _create_consolidate_decision (task : Task) (matches : list Match)
           (duplicate_score : Q) : result Decision :=
  match matches with
  | [] => Raise "list index out of range"
  | best_match :: _ =>
      let reasoning :=
        ("This task is " ++ format_pct (similarity_score best_match)
           ++ " similar to existing project '"
           ++ name (project best_match) ++ "' (ID: "
           ++ id (project best_match) ++ "). "
           ++ "Suggest consolidating instead of creating duplicate.")%string
      in
      let consolidate_with :=
        List.map (fun m => id (project m)) (take 3 matches) in
      new_Decision
        {| decision := CONSOLIDATE;
           confidence := duplicate_score;
           mapped_project := Some (id (project best_match));
           consolidate_with := consolidate_with;
           reasoning := reasoning;
           suggested_action :=
             ("Link to existing project " ++ id (project best_match)
                ++ " instead of creating new")%string;
           d_alignment_score := 0.90%Q;
           tags := MapacheContext.get_tags (task_description task);
           clarification_questions := [] |}
  end.

Definition _create_clarify_decision (task : Task) (clarity_score : Q)
  : result Decision :=
  let reasoning :=
    ("Task description needs clarification (clarity: "
       ++ format_f 2 clarity_score ++ "). ")%string in
  let questions : list string := [] in
  let questions :=
    if (String.length (task_description task) <? 20)%nat
    then questions
           ++ ["Can you provide more details about what needs to be done?"
                 %string]
    else questions in
  let questions :=
    match extract_keywords (task_description task) with
    | [] =>
        questions
          ++ ["What is the specific goal or expected outcome?"%string]
    | _ :: _ => questions
    end in
  let domain := MapacheContext.get_domain (task_description task) in
  let questions :=
    if negb (truthy domain)
    then questions
           ++ [("Which mapache.app component does this relate to? "
                  ++ "(core platform, SaaS integration, intelligence "
                  ++ "features, or internal ops)")%string]
    else questions in
  let questions :=
    match questions with
    | [] => ["Please provide more context about this task."%string]
    | _ :: _ => questions
    end in
  new_Decision
    {| decision := CLARIFY;
       confidence := (0.3 + clarity_score * 0.3)%Q;
       mapped_project := None;
       consolidate_with := [];
       reasoning := reasoning;
       suggested_action := "Ask user for clarification";
       d_alignment_score := 0.5%Q;
       tags := ["needs_clarification"%string];
       clarification_questions := questions |}.

Section Engine.

Variable np_linalg_norm : ndarray -> Q.

(** The matches of the five best results; [valid_projects[idx]] is an
    IndexError out of range. *)
Fixpoint matches_of (valid_projects : list LinearProject)
         (similar_indices : list (nat * Q)) : result (list Match) :=
  match similar_indices with
  | [] => Ok []
  | (idx, score) :: rest =>
      match valid_projects !! idx with
      | Some p =>
          (let? matches := matches_of valid_projects rest in
           Ok ({| project := p;
                  similarity_score := score;
                  match_reason :=
                    Some ("Semantic similarity: "
                            ++ format_f 2 score)%string |}
                 :: matches))%result
      | None => Raise "list index out of range"
      end
  end.

Definition _find_similar_projects (task_embedding : ndarray)
           (projects : list LinearProject) : result (list Match) :=
  match projects with
  | [] => Ok []
  | _ :: _ =>
      let valid_projects := List.filter has_embedding projects in
      let project_embeddings := List.map embedding valid_projects in
      match project_embeddings with
      | [] => Ok []
      | _ :: _ =>
          (let? similar_indices :=
             find_most_similar np_linalg_norm (Some task_embedding)
                               project_embeddings
                               SIMILARITY_THRESHOLD_MATCH in
           matches_of valid_projects (take 5 similar_indices))%result
      end
  end.

Definition best_similarity (matches : list Match) : Q :=
  match matches with
  | m :: _ => similarity_score m
  | [] => 0.0%Q
  end.

(** Steps 6 and 7 of [evaluate]. *)
Definition decide_alignment (task : Task) (matches : list Match)
           (filter_score clarity_score : Q) : result Decision :=
  let alignment :=
    alignment_score filter_score (best_similarity matches)
                    clarity_score in
  if Qgeb alignment ALIGNMENT_SCORE_THRESHOLD
  then _create_add_decision task matches alignment
                            filter_score clarity_score
  else _create_clarify_decision task clarity_score.

Definition evaluate (task : Task) (task_embedding : ndarray)
           (existing_projects : list LinearProject) : result Decision :=
  let normalized_desc := normalize_text (task_description task) in
  let filter_score := filter_score task in
  if Qltb filter_score CONFIDENCE_FILTER
  then _create_filter_decision task filter_score
  else
    let clarity_score := clarity_score task in
    if Qltb clarity_score 0.4
    then _create_clarify_decision task clarity_score
    else
      (let? matches :=
         _find_similar_projects task_embedding existing_projects in
       match matches with
       | best_match :: _ =>
           let duplicate_score :=
             duplicate_score task (project best_match)
                             (similarity_score best_match) in
           if Qgeb duplicate_score 0.75
           then _create_consolidate_decision task matches
                                             duplicate_score
           else decide_alignment task matches filter_score
                                 clarity_score
       | [] =>
           decide_alignment task matches filter_score clarity_score
       end)%result.

End Engine.

End ReasoningEngine.

(* ===================================================================== *)
(** * hashlib.sha256 (FIPS 180-4), on 32-bit words held in Z              *)
(* ===================================================================== *)

Module SHA256.
Local Open Scope Z_scope.

Definition w32 (x : Z) : Z := Z.land x 0xFFFFFFFF.
Definition add32 (x y : Z) : Z := w32 (x + y).
Definition rotr (n x : Z) : Z :=
  Z.lor (Z.shiftr x n) (w32 (Z.shiftl x (32 - n))).
Definition not32 (x : Z) : Z := Z.lxor x 0xFFFFFFFF.

Definition Ch (x y z : Z) : Z := Z.lxor (Z.land x y) (Z.land (not32 x) z).
Definition Maj (x y z : Z) : Z :=
  Z.lxor (Z.lxor (Z.land x y) (Z.land x z)) (Z.land y z).
Definition Sigma0 (x : Z) : Z :=
  Z.lxor (Z.lxor (rotr 2 x) (rotr 13 x)) (rotr 22 x).
Definition Sigma1 (x : Z) : Z :=
  Z.lxor (Z.lxor (rotr 6 x) (rotr 11 x)) (rotr 25 x).
Definition sigma0 (x : Z) : Z :=
  Z.lxor (Z.lxor (rotr 7 x) (rotr 18 x)) (Z.shiftr x 3).
Definition sigma1 (x : Z) : Z :=
  Z.lxor (Z.lxor (rotr 17 x) (rotr 19 x)) (Z.shiftr x 10).

(** The constants of FIPS 180-4, sections 4.2.2 and 5.3.3: the first 32
    bits of the fractional parts of the cube roots ([K]) and of the square
    roots ([H0]) of the first primes. *)
Definition is_prime (n : Z) : bool :=
  (1 <? n)
  && forallb (fun d => negb (n mod d =? 0))
             (List.map Z.of_nat (seq 2 (Z.to_nat (Z.sqrt n) - 1))).

Definition primes (count : nat) : list Z :=
  firstn count (List.filter is_prime (List.map Z.of_nat (seq 2 310))).

(** The integer cube root, bit by bit from bit [bits - 1] down. *)
Fixpoint cube_root (bits : nat) (n r : Z) : Z :=
  match bits with
  | O => r
  | S k =>
      let r' := r + 2 ^ Z.of_nat k in
      cube_root k n (if r' * r' * r' <=? n then r' else r)
  end.

Definition K : list Z :=
  Eval vm_compute in
    List.map (fun p => w32 (cube_root 36 (p * 2 ^ 96) 0)) (primes 64).

Definition H0 : list Z :=
  Eval vm_compute in
    List.map (fun p => w32 (Z.sqrt (p * 2 ^ 64))) (primes 8).

(** The padded message: the bytes, 0x80, zeros up to 56 modulo 64, and
    the length in bits on 8 bytes, most significant first. *)
Definition be_bytes (n : nat) (x : Z) : list Z :=
  List.map (fun i => Z.land (Z.shiftr x (8 * Z.of_nat i)) 0xFF)
           (rev (seq 0 n)).

Definition pad (msg : list Z) : list Z :=
  let len := Z.of_nat (length msg) in
  let zeros := Z.to_nat ((55 - len) mod 64) in
  msg ++ [0x80] ++ repeat 0 zeros ++ be_bytes 8 (8 * len).

Fixpoint words_of (fuel : nat) (bytes : list Z) : list Z :=
  match fuel, bytes with
  | S fuel', b0 :: b1 :: b2 :: b3 :: rest =>
      (Z.shiftl b0 24 + Z.shiftl b1 16 + Z.shiftl b2 8 + b3)
        :: words_of fuel' rest
  | _, _ => []
  end.

Definition nthw (w : list Z) (i : nat) : Z := nth i w 0.

(** The message schedule: [w] holds W_0 .. W_{t-1}; [n] words are
    added. *)
Fixpoint schedule (n : nat) (w : list Z) : list Z :=
  match n with
  | O => w
  | S n' =>
      let t := length w in
      let x :=
        add32 (add32 (sigma1 (nthw w (t - 2))) (nthw w (t - 7)))
              (add32 (sigma0 (nthw w (t - 15))) (nthw w (t - 16))) in
      schedule n' (w ++ [x])
  end.

Definition round (st : list Z) (kw : Z * Z) : list Z :=
  match st with
  | [a; b; c; d; e; f; g; h] =>
      let t1 :=
        add32 (add32 (add32 h (Sigma1 e)) (Ch e f g))
              (add32 (fst kw) (snd kw)) in
      let t2 := add32 (Sigma0 a) (Maj a b c) in
      [add32 t1 t2; a; b; c; add32 d t1; e; f; g]
  | _ => st
  end.

Definition compress (h : list Z) (block : list Z) : list Z :=
  let w := schedule 48 block in
  let st := fold_left round (combine K w) h in
  zip_with add32 h st.

Fixpoint blocks (fuel : nat) (ws : list Z) : list (list Z) :=
  match fuel, ws with
  | _, [] => []
  | O, _ => []
  | S fuel', _ => firstn 16 ws :: blocks fuel' (skipn 16 ws)
  end.

Definition digest_words (msg : list Z) : list Z :=
  let bytes := pad msg in
  let ws := words_of (length bytes) bytes in
  fold_left compress (blocks (length ws) ws) H0.

Definition hex_digit (d : Z) : ascii :=
  if d <? 10 then ascii_of_N (Z.to_N (48 + d))
  else ascii_of_N (Z.to_N (87 + d)).

Definition hex_word (x : Z) : string :=
  fold_right (fun i acc =>
                String (hex_digit (Z.land (Z.shiftr x (4 * Z.of_nat i)) 0xF))
                       acc)
             EmptyString (rev (seq 0 8)).

(** [text.encode()]: the bytes of an ASCII string. *)
Fixpoint encode (s : string) : list Z :=
  match s with
  | EmptyString => []
  | String c s' => Z.of_N (N_of_ascii c) :: encode s'
  end.

(** [hashlib.sha256(text.encode()).hexdigest()] *)
Definition hexdigest (text : string) : string :=
  fold_right (fun w acc => (hex_word w ++ acc)%string) EmptyString
             (digest_words (encode text)).

End SHA256.

(* ===================================================================== *)
(** * The store, the collaborators and the state of the agent             *)
(* ===================================================================== *)

(** A document of the [embeddings] collection.  The collection is shared:
    a document read back may lack a field. *)
Record EmbeddingDoc := {
  e_text : string;
  e_embedding : option (list Q);
  e_dimension : nat;
  e_model : string;
  e_created_at : option datetime;
  e_ttl_seconds : option Z
}.

(** A document of the [decisions] collection. *)
Record DecisionDoc := {
  dd_task_id : string;
  dd_task_description : string;
  dd_source : string;
  dd_decision : DecisionType;
  dd_confidence : Q;
  dd_reasoning : string;
  dd_mapped_project_id : option string;
  dd_consolidate_with : list string;
  dd_alignment_score : Q;
  dd_tags : list string;
  dd_created_at : datetime
}.

Inductive StateValue :=
| VTime (t : datetime)
| VStr (s : string)
| VInt (n : nat).

(** The state a call runs in: the clock, the four Firestore collections,
    the log of the calls to the two remote services, and the two fields of
    the agent ([_projects_cache], [_cache_time]).  The clock does not move
    during a call; [advance] is the time that passes between two calls. *)
Record State := {
  clock : datetime;
  projects_col : gmap string LinearProject;
  embeddings_col : gmap string EmbeddingDoc;
  decisions_col : list DecisionDoc;
  agent_state_col : gmap string StateValue;
  provider_calls : list (string * string);
  linear_calls : nat;
  _projects_cache : option (list LinearProject);
  _cache_time : option datetime
}.

Definition advance (dt : Z) (s : State) : State :=
  {| clock := (clock s + dt)%Z;
     projects_col := projects_col s;
     embeddings_col := embeddings_col s;
     decisions_col := decisions_col s;
     agent_state_col := agent_state_col s;
     provider_calls := provider_calls s;
     linear_calls := linear_calls s;
     _projects_cache := _projects_cache s;
     _cache_time := _cache_time s |}.

Inductive FirestoreOp :=
| OpCacheProjects | OpGetCachedProjects
| OpStoreEmbedding | OpGetEmbedding
| OpStoreDecision
| OpUpdateAgentState | OpGetAgentState.

(** The collaborators, out of the core: whether an access to Firestore
    fails, what the embedding model answers, what Linear lists.  Each sees
    the state, so its answer may change from one call to the next. *)
Record Env := {
  firestore_fault : FirestoreOp -> State -> option Exception;
  model_get_embeddings : string -> string -> State -> result (list ndarray);
  linear_list_projects : State -> result (list LinearProject);
  np_linalg_norm : ndarray -> Q
}.

(** Code that reads and writes the state and may raise; the state
    written before an exception is kept. *)
Definition IO (A : Type) : Type := State -> result A * State.

Definition ret {A} (a : A) : IO A := fun s => (Ok a, s).
Definition raise {A} (e : Exception) : IO A := fun s => (Raise e, s).
Definition bind {A B} (m : IO A) (k : A -> IO B) : IO B :=
  fun s =>
    match m s with
    | (Ok a, s') => k a s'
    | (Raise e, s') => (Raise e, s')
    end.
Definition lift {A} (r : result A) : IO A := fun s => (r, s).
Definition get_state : IO State := fun s => (Ok s, s).
Definition modify (f : State -> State) : IO unit := fun s => (Ok tt, f s).
(** [datetime.now()] *)
Definition now : IO datetime := fun s => (Ok (clock s), s).

Declare Scope io_scope.
Delimit Scope io_scope with io.
Notation "x <- m ;; k" := (bind m (fun x => k))
  (at level 100, m at next level, right associativity) : io_scope.
Notation "m ;;; k" := (bind m (fun _ => k))
  (at level 100, right associativity) : io_scope.

(** An access to Firestore, which may fail. *)
Definition firestore (env : Env) (op : FirestoreOp) : IO unit :=
  fun s =>
    match firestore_fault env op s with
    | Some e => (Raise e, s)
    | None => (Ok tt, s)
    end.

Definition set_projects_col (f : gmap string LinearProject
                                 -> gmap string LinearProject)
           (s : State) : State :=
  {| clock := clock s;
     projects_col := f (projects_col s);
     embeddings_col := embeddings_col s;
     decisions_col := decisions_col s;
     agent_state_col := agent_state_col s;
     provider_calls := provider_calls s;
     linear_calls := linear_calls s;
     _projects_cache := _projects_cache s;
     _cache_time := _cache_time s |}.

Definition set_embeddings_col (f : gmap string EmbeddingDoc
                                   -> gmap string EmbeddingDoc)
           (s : State) : State :=
  {| clock := clock s;
     projects_col := projects_col s;
     embeddings_col := f (embeddings_col s);
     decisions_col := decisions_col s;
     agent_state_col := agent_state_col s;
     provider_calls := provider_calls s;
     linear_calls := linear_calls s;
     _projects_cache := _projects_cache s;
     _cache_time := _cache_time s |}.

Definition set_decisions_col (f : list DecisionDoc -> list DecisionDoc)
           (s : State) : State :=
  {| clock := clock s;
     projects_col := projects_col s;
     embeddings_col := embeddings_col s;
     decisions_col := f (decisions_col s);
     agent_state_col := agent_state_col s;
     provider_calls := provider_calls s;
     linear_calls := linear_calls s;
     _projects_cache := _projects_cache s;
     _cache_time := _cache_time s |}.

Definition set_agent_state_col (f : gmap string StateValue
                                    -> gmap string StateValue)
           (s : State) : State :=
  {| clock := clock s;
     projects_col := projects_col s;
     embeddings_col := embeddings_col s;
     decisions_col := decisions_col s;
     agent_state_col := f (agent_state_col s);
     provider_calls := provider_calls s;
     linear_calls := linear_calls s;
     _projects_cache := _projects_cache s;
     _cache_time := _cache_time s |}.

Definition log_provider_call (text task_type : string) (s : State) : State :=
  {| clock := clock s;
     projects_col := projects_col s;
     embeddings_col := embeddings_col s;
     decisions_col := decisions_col s;
     agent_state_col := agent_state_col s;
     provider_calls := provider_calls s ++ [(text, task_type)];
     linear_calls := linear_calls s;
     _projects_cache := _projects_cache s;
     _cache_time := _cache_time s |}.

Definition log_linear_call (s : State) : State :=
  {| clock := clock s;
     projects_col := projects_col s;
     embeddings_col := embeddings_col s;
     decisions_col := decisions_col s;
     agent_state_col := agent_state_col s;
     provider_calls := provider_calls s;
     linear_calls := S (linear_calls s);
     _projects_cache := _projects_cache s;
     _cache_time := _cache_time s |}.

Definition set_cache (projects : option (list LinearProject))
           (time : option datetime) (s : State) : State :=
  {| clock := clock s;
     projects_col := projects_col s;
     embeddings_col := embeddings_col s;
     decisions_col := decisions_col s;
     agent_state_col := agent_state_col s;
     provider_calls := provider_calls s;
     linear_calls := linear_calls s;
     _projects_cache := projects;
     _cache_time := time |}.

(** [timedelta(seconds=n)], and a number of seconds compared with
    [total_seconds()] of a difference of datetimes. *)
Definition seconds (n : Z) : Z := (n * 1000000)%Z.

(* ===================================================================== *)
(** * src/integrations/firestore_client.py                                *)
(* ===================================================================== *)

Module FirestoreClient.

Definition with_cached_at (t : datetime) (p : LinearProject)
  : LinearProject :=
  {| id := id p; name := name p; description := description p;
     team := team p; status := status p; cached_at := Some t;
     embedding := embedding p; alignment_score := alignment_score p;
     domain := domain p |}.

(** One batch: every project is written under its id, with the time of
    the call. *)
Definition cache_projects (env : Env) (projects : list LinearProject)
  : IO unit :=
  (cached_at <- now ;;
   firestore env OpCacheProjects ;;;
   modify (set_projects_col (fun col =>
     fold_left (fun col project =>
                  <[ id project := with_cached_at cached_at project ]> col)
               projects col)))%io.

(** The query [cached_at >= cutoff_time]; a document without [cached_at]
    does not match.  The documents come in the order of the map. *)
Definition cached_since (cutoff_time : datetime) (p : LinearProject)
  : bool :=
  match cached_at p with
  | Some t => (cutoff_time <=? t)%Z
  | None => false
  end.

Definition get_cached_projects_max_age (env : Env) (max_age_seconds : Z)
  : IO (list LinearProject) :=
  (t <- now ;;
   let cutoff_time := (t - seconds max_age_seconds)%Z in
   firestore env OpGetCachedProjects ;;;
   s <- get_state ;;
   ret (List.filter (cached_since cutoff_time)
                    (List.map snd (map_to_list (projects_col s)))))%io.

Definition get_cached_projects (env : Env) : IO (list LinearProject) :=
  get_cached_projects_max_age env CACHE_TTL_PROJECTS.

Definition _hash_text (text : string) : string := SHA256.hexdigest text.

Definition embeddings_model : string := "text-embedding-005".

Definition store_embedding (env : Env) (text : string)
           (embedding : ndarray) : IO unit :=
  let text_hash := _hash_text text in
  (t <- now ;;
   let data :=
     {| e_text := text;
        e_embedding := Some embedding;
        e_dimension := length embedding;
        e_model := embeddings_model;
        e_created_at := Some t;
        e_ttl_seconds := Some CACHE_TTL_EMBEDDINGS |} in
   firestore env OpStoreEmbedding ;;;
   modify (set_embeddings_col (fun col => <[ text_hash := data ]> col)))%io.

(** What [get_embedding] makes of the document it has read, at time
    [t]. *)
Definition read_embedding (t : datetime) (data : EmbeddingDoc)
  : option ndarray :=
  let ttl_seconds := default CACHE_TTL_EMBEDDINGS (e_ttl_seconds data) in
  let expired :=
    match e_created_at data with
    | Some created_at =>
        let age := (t - created_at)%Z in
        (seconds ttl_seconds <? age)%Z
    | None => false
    end in
  if expired then None
  else
    match e_embedding data with
    | Some (x :: l) => Some (x :: l)
    | _ => None
    end.

Definition get_embedding (env : Env) (text : string)
  : IO (option ndarray) :=
  let text_hash := _hash_text text in
  (firestore env OpGetEmbedding ;;;
   s <- get_state ;;
   match embeddings_col s !! text_hash with
   | None => ret None
   | Some data =>
       t <- now ;;
       ret (read_embedding t data)
   end)%io.

Definition store_decision (env : Env) (dec : Decision)
           (task_id task_description source : string) : IO unit :=
  (t <- now ;;
   let data :=
     {| dd_task_id := task_id;
        dd_task_description := task_description;
        dd_source := source;
        dd_decision := decision dec;
        dd_confidence := confidence dec;
        dd_reasoning := reasoning dec;
        dd_mapped_project_id := mapped_project dec;
        dd_consolidate_with := consolidate_with dec;
        dd_alignment_score := d_alignment_score dec;
        dd_tags := tags dec;
        dd_created_at := t |} in
   firestore env OpStoreDecision ;;;
   modify (set_decisions_col (fun col => col ++ [data])))%io.

(** [doc_ref.set(state, merge=True)] on the document [current]. *)
Definition update_agent_state (env : Env)
           (state : list (string * StateValue)) : IO unit :=
  (t <- now ;;
   let state := state ++ [("last_updated"%string, VTime t)] in
   firestore env OpUpdateAgentState ;;;
   modify (set_agent_state_col (fun col =>
     fold_left (fun col '(k, v) => <[ k := v ]> col) state col)))%io.

End FirestoreClient.

(* ===================================================================== *)
(** * src/integrations/vertex_ai.py                                       *)
(* ===================================================================== *)

(** [settings.embeddings_dimension] *)
Definition embeddings_dimension : nat := 768.

Module VertexAIClient.

(** The body of [embed_text]: one call to the embedding model, unless
    the text is empty or blank. *)
Definition embed_text_once (env : Env) (text task_type : string)
  : IO ndarray :=
  if str_eqb text EmptyString || str_eqb (strip text) EmptyString
  then ret (repeat 0%Q embeddings_dimension)
  else
    (modify (log_provider_call text task_type) ;;;
     s <- get_state ;;
     embeddings <- lift (model_get_embeddings env text task_type s) ;;
     match embeddings with
     | [] => ret (repeat 0%Q embeddings_dimension)
     | embedding :: _ => ret embedding
     end)%io.

(** [@retry(stop=stop_after_attempt(n))]: the body is run again after an
    exception, [n] times at most; then tenacity raises a RetryError that
    holds the last exception.  The waits between the attempts are not
    modelled. *)
Fixpoint retry {A} (attempts : nat) (last : Exception) (body : IO A)
  : IO A :=
  match attempts with
  | O => raise ("RetryError[" ++ last ++ "]")%string
  | S n =>
      fun s =>
        match body s with
        | (Ok a, s') => (Ok a, s')
        | (Raise e, s') => retry n e body s'
        end
  end.

Definition embed_text (env : Env) (text task_type : string) : IO ndarray :=
  retry 3 EmptyString (embed_text_once env text task_type).

End VertexAIClient.

Module EmbeddingService.

Definition get_embedding_opt (env : Env) (text task_type : string)
           (use_cache : bool) : IO ndarray :=
  (cached <-
     (if use_cache then FirestoreClient.get_embedding env text
      else ret None) ;;
   match cached with
   | Some cached => ret cached
   | None =>
       embedding <- VertexAIClient.embed_text env text task_type ;;
       (if use_cache
        then FirestoreClient.store_embedding env text embedding
        else ret tt) ;;;
       ret embedding
   end)%io.

(** [get_embedding(text, task_type)] with the default [use_cache=True]. *)
Definition get_embedding (env : Env) (text task_type : string)
  : IO ndarray :=
  get_embedding_opt env text task_type true.

Definition embed_project (env : Env) (project_name : string)
           (project_description : option string) : IO ndarray :=
  let text :=
    if truthy project_description
    then (project_name ++ ": "
            ++ default EmptyString project_description)%string
    else project_name in
  get_embedding env text "RETRIEVAL_DOCUMENT".

Definition embed_task (env : Env) (task_description : string)
  : IO ndarray :=
  get_embedding env task_description "RETRIEVAL_QUERY".

End EmbeddingService.

(* ===================================================================== *)
(** * src/agent.py                                                        *)
(* ===================================================================== *)

Module LinearSemanticAgent.

Definition list_projects (env : Env) : IO (list LinearProject) :=
  (modify log_linear_call ;;;
   s <- get_state ;;
   lift (linear_list_projects env s))%io.

(** The first test of [get_or_refresh_projects]: the list the in-memory
    cache serves at time [t], if any. *)
Definition memory_hit (force : bool) (s : State) (t : datetime)
  : option (list LinearProject) :=
  if force then None
  else
    match _projects_cache s, _cache_time s with
    | Some (p :: l), Some cache_time =>
        let age := (t - cache_time)%Z in
        if (age <? seconds CACHE_TTL_PROJECTS)%Z then Some (p :: l)
        else None
    | _, _ => None
    end.

Definition fetch_from_linear (env : Env) : IO (list LinearProject) :=
  (projects <- list_projects env ;;
   FirestoreClient.cache_projects env projects ;;;
   t <- now ;;
   modify (set_cache (Some projects) (Some t)) ;;;
   t' <- now ;;
   FirestoreClient.update_agent_state env
     [("projects_count"%string, VInt (length projects));
      ("last_sync"%string, VTime t')] ;;;
   ret projects)%io.

Definition get_or_refresh_projects (env : Env) (force : bool)
  : IO (list LinearProject) :=
  (s <- get_state ;;
   t <- now ;;
   match memory_hit force s t with
   | Some projects => ret projects
   | None =>
       if force then fetch_from_linear env
       else
         cached_projects <- FirestoreClient.get_cached_projects env ;;
         match cached_projects with
         | _ :: _ =>
             t <- now ;;
             modify (set_cache (Some cached_projects) (Some t)) ;;;
             ret cached_projects
         | [] => fetch_from_linear env
         end
   end)%io.

Definition with_embedding (e : list Q) (p : LinearProject)
  : LinearProject :=
  {| id := id p; name := name p; description := description p;
     team := team p; status := status p; cached_at := cached_at p;
     embedding := Some e; alignment_score := alignment_score p;
     domain := domain p |}.

(** The loop of [_ensure_project_embeddings] over the projects: a
    project without embedding gets one, in place.  The result is the
    list as the loop leaves it, with the projects that got an embedding
    and, when the loop stopped on an exception, that exception. *)
Fixpoint embed_missing (env : Env) (projects : list LinearProject)
         (s : State)
  : (list LinearProject * list LinearProject * option Exception) * State :=
  match projects with
  | [] => (([], [], None), s)
  | p :: rest =>
      if ReasoningEngine.has_embedding p
      then
        let '((rest', needing, exc), s') := embed_missing env rest s in
        ((p :: rest', needing, exc), s')
      else
        match EmbeddingService.embed_project env (name p) (description p) s
        with
        | (Ok e, s') =>
            let p' := with_embedding e p in
            let '((rest', needing, exc), s'') :=
              embed_missing env rest s' in
            ((p' :: rest', p' :: needing, exc), s'')
        | (Raise e, s') => ((p :: rest, [], Some e), s')
        end
  end.

(** The projects are the objects that the in-memory cache holds: what
    the loop writes into them is written into the cache. *)
Definition _ensure_project_embeddings (env : Env)
           (projects : list LinearProject) : IO (list LinearProject) :=
  match List.filter (fun p => negb (ReasoningEngine.has_embedding p))
                    projects with
  | [] => ret projects
  | _ :: _ =>
      fun s =>
        let '((projects', needing, exc), s') :=
          embed_missing env projects s in
        let s' := set_cache (Some projects') (_cache_time s') s' in
        match exc with
        | Some e => (Raise e, s')
        | None =>
            (FirestoreClient.cache_projects env needing ;;;
             ret projects')%io s'
        end
  end.

Definition error_decision (e : Exception) : result Decision :=
  new_Decision
    {| decision := CLARIFY;
       confidence := 0.0%Q;
       mapped_project := None;
       consolidate_with := [];
       reasoning := ("Error during evaluation: " ++ e)%string;
       suggested_action := "Please try again or contact support";
       d_alignment_score := 0.0%Q;
       tags := ["error"%string];
       clarification_questions := [] |}.

(** Steps 1 to 4 inside the [try] of [evaluate_task]: the decision is
    computed. *)
Definition decide_steps (env : Env) (task : Task) : IO Decision :=
  (projects <- get_or_refresh_projects env false ;;
   task_embedding <-
     EmbeddingService.embed_task env (task_description task) ;;
   projects_with_embeddings <- _ensure_project_embeddings env projects ;;
   lift (ReasoningEngine.evaluate (np_linalg_norm env) task
           task_embedding projects_with_embeddings))%io.

(** The five steps inside the [try]: the decision is computed, then
    stored for audit. *)
Definition evaluate_steps (env : Env) (task : Task) : IO Decision :=
  (decision <- decide_steps env task ;;
   FirestoreClient.store_decision env decision (task_id task)
     (task_description task) (source task) ;;;
   ret decision)%io.

(** [try: ... except Exception as e: return Decision(...)] *)
Definition evaluate_task (env : Env) (task : Task) : IO Decision :=
  fun s =>
    match evaluate_steps env task s with
    | (Ok decision, s') => (Ok decision, s')
    | (Raise e, s') => (error_decision e, s')
    end.

End LinearSemanticAgent.

(* ===================================================================== *)
(** * The model of the specification                                      *)
(* ===================================================================== *)

(** The clamp of the specification, with the minimum and maximum of the
    rationals. *)
Definition clamp01 (x : Q) : Q := Qmax 0 (Qmin 1 x).


Definition excluded_category (text : string) : option string :=
  match
    List.find (fun rule => existsb (fun kw => str_in (lower kw) text)
                                   (snd rule))
              MapacheContext.FILTER_OUT_RULES
  with
  | Some rule => Some (fst rule)
  | None => None
  end.



(** [alignmentScore] as section 4.5 words it. *)
Definition alignmentScore_spec (filterS bestSimilarityOrZero clarityS : Q)
  : Q :=
  clamp01 (0.40 * filterS + 0.30 * bestSimilarityOrZero + 0.20 * clarityS
           + 0.10 * 1.0)%Q.

(** A decision is well formed when its two scores are in [0, 1]. *)
Definition well_formed (d : Decision) : Prop :=
  (0 <= confidence d <= 1)%Q /\ (0 <= d_alignment_score d <= 1)%Q.

(** The order of a ranked list: by score, greatest first, and by index
    among equal scores. *)
Definition ranked_before (a b : nat * Q) : Prop :=
  (snd b < snd a)%Q \/ ((snd a == snd b)%Q /\ (fst a < fst b)%nat).

(** The positions of a list of (index, score) pairs grow. *)
Definition index_before (a b : nat * Q) : Prop := (fst a < fst b)%nat.

(** The candidates that are present have the dimension of the query. *)
Definition dims_agree (v : ndarray) (candidates : list (option ndarray))
  : Prop :=
  Forall (fun candidate =>
            match candidate with
            | Some c => length c = length v
            | None => True
            end)
         candidates.

(** A document of the embedding cache is valid at time [t] when its age
    is at most its TTL (or it has no creation time). *)
Definition entry_valid_at (t : datetime) (data : EmbeddingDoc) : Prop :=
  forall created_at,
    e_created_at data = Some created_at ->
    (t - created_at
     <= seconds (default CACHE_TTL_EMBEDDINGS (e_ttl_seconds data)))%Z.

(** Two states with the same clock and the same embedding cache: the
    calls to the embedding model move neither. *)
Definition same_cache (s s' : State) : Prop :=
  clock s' = clock s /\ embeddings_col s' = embeddings_col s.

(** The Euclidean norm on the vectors that have one non-zero coordinate
    at most, which the examples use: the sum of the absolute values. *)
Definition axis_norm (v : ndarray) : Q :=
  fold_right (fun x acc => (Qabs x + acc)%Q) 0%Q v.

(* ===================================================================== *)
(** * Inputs of the examples                                              *)
(* ===================================================================== *)


Definition slack_task : Task :=
  {| task_id := "CLK-123";
     task_description := "Build Slack MCP server integration";
     source := "clickup";
     priority := Some "high"%string |}.

Definition slack_project : LinearProject :=
  {| id := "proj_123abc";
     name := "Slack MCP server integration";
     description := None;
     team := None;
     status := Some "active"%string;
     cached_at := None;
     embedding := Some [1%Q; 0%Q];
     alignment_score := None;
     domain := None |}.

Definition curtain_task : Task :=
  {| task_id := "TEST-100";
     task_description := "Buy curtain rods and door covers";
     source := "google_tasks";
     priority := None |}.

(** A state with nothing stored, at time 0. *)
Definition empty_state : State :=
  {| clock := 0;
     projects_col := ∅;
     embeddings_col := ∅;
     decisions_col := [];
     agent_state_col := ∅;
     provider_calls := [];
     linear_calls := 0;
     _projects_cache := None;
     _cache_time := None |}.

(** Collaborators that all answer: Firestore is reachable, the embedding
    model returns the vector (1, 0), Linear lists no project. *)
Definition quiet_env : Env :=
  {| firestore_fault := fun _ _ => None;
     model_get_embeddings := fun _ _ _ => Ok [[1%Q; 0%Q]];
     linear_list_projects := fun _ => Ok [];
     np_linalg_norm := axis_norm |}.

(** As [quiet_env], but the write of the audit record fails. *)
Definition audit_down_env : Env :=
  {| firestore_fault :=
       fun op _ =>
         match op with
         | OpStoreDecision => Some "503 Service Unavailable"%string
         | _ => None
         end;
     model_get_embeddings := fun _ _ _ => Ok [[1%Q; 0%Q]];
     linear_list_projects := fun _ => Ok [];
     np_linalg_norm := axis_norm |}.

(** The catalog source and the embedding model both time out. *)
Definition timeout_env : Env :=
  {| firestore_fault := fun _ _ => None;
     model_get_embeddings := fun _ _ _ => Raise "Deadline exceeded";
     linear_list_projects := fun _ => Raise "Request failed: timeout";
     np_linalg_norm := axis_norm |}.


(** A state whose project cache holds the Slack project, cached at time
    0, read when its age is exactly CACHE_TTL_PROJECTS. *)
Definition aged_project_state : State :=
  advance (seconds CACHE_TTL_PROJECTS)
          (snd (FirestoreClient.cache_projects quiet_env [slack_project]
                  empty_state)).

(** The state after the embedding of "Hello World" was asked for once. *)
Definition hello_state : State :=
  snd (EmbeddingService.get_embedding quiet_env "Hello World"
         "RETRIEVAL_QUERY" empty_state).

(** A project with the embedding of the Slack task and other words. *)
Definition payments_project : LinearProject :=
  {| id := "proj_pay";
     name := "Payments backend";
     description := Some "Stripe billing"%string;
     team := None;
     status := None;
     cached_at := None;
     embedding := Some [1%Q; 0%Q];
     alignment_score := None;
     domain := None |}.


(** A state whose in-memory cache was filled at time 0, two hours
    ago. *)
Definition stale_cache_state : State :=
  set_cache (Some [slack_project]) (Some 0%Z)
            (advance (seconds 7200) empty_state).


(** As [quiet_env], but the embedding model answers with an embedding
    that holds no value. *)
Definition hollow_env : Env :=
  {| firestore_fault := fun _ _ => None;
     model_get_embeddings := fun _ _ _ => Ok [[]];
     linear_list_projects := fun _ => Ok [];
     np_linalg_norm := axis_norm |}.

(* ===================================================================== *)
(** * More of the source                                                  *)
(* ===================================================================== *)

(** ** src/utils/text_processing.py *)

(** [s[:stop]], with Python's reading of a negative [stop]. *)
Definition slice_to (s : string) (stop : Z) : string :=
  let n := Z.of_nat (String.length s) in
  let stop := if (stop <? 0)%Z then Z.max 0 (n + stop) else Z.min stop n in
  substring 0 (Z.to_nat stop) s.

Definition truncate_text_to (text : string) (max_length : Z) : string :=
  if str_eqb text EmptyString then EmptyString
  else if (Z.of_nat (String.length text) <=? max_length)%Z then text
  else (slice_to text (max_length - 3) ++ "...")%string.

(** [truncate_text(text)] with the default [max_length=500]. *)
Definition truncate_text (text : string) : string :=
  truncate_text_to text 500.

(** No character of the string is whitespace. *)
Fixpoint no_space (s : string) : bool :=
  match s with
  | EmptyString => true
  | String c s' => negb (isspace c) && no_space s'
  end.

(** Every character of the string is a word character. *)
Fixpoint all_word (s : string) : bool :=
  match s with
  | EmptyString => true
  | String c s' => isword c && all_word s'
  end.

(** [re.sub(r'[#*`_~]', '', text)] *)
Definition is_markdown (c : ascii) : bool :=
  existsb (Ascii.eqb c) ["#"; "*"; "`"; "_"; "~"]%char.

Fixpoint remove_markdown (s : string) : string :=
  match s with
  | EmptyString => EmptyString
  | String c s' =>
      if is_markdown c then remove_markdown s'
      else String c (remove_markdown s')
  end.

(** The text begins with [p] and then a character that is no whitespace:
    a match of [p\S]. *)
Definition starts_with (p s : string) : bool :=
  match drop_prefix p s with
  | Some (String c _) => negb (isspace c)
  | _ => false
  end.

(** A match of [https?://\S+] begins at the head of the text. *)
Definition url_at (s : string) : bool :=
  starts_with "http://" s || starts_with "https://" s.

(** [re.sub(r'https?://\S+', '', text)]: the matches are taken from the
    left and run to the next whitespace; [in_url] says that the
    characters read belong to a match. *)
Fixpoint remove_urls (in_url : bool) (s : string) : string :=
  match s with
  | EmptyString => EmptyString
  | String c s' =>
      if in_url
      then (if isspace c then String c (remove_urls false s')
            else remove_urls true s')
      else if url_at s then remove_urls true s'
      else String c (remove_urls false s')
  end.

Definition clean_description (text : string) : string :=
  if str_eqb text EmptyString then EmptyString
  else
    let text := remove_markdown text in
    let text := remove_urls false text in
    let text := collapse_ws false text in
    strip text.

(** One of the characters [#*`_~] occurs in the text. *)
Fixpoint has_markdown (s : string) : bool :=
  match s with
  | EmptyString => false
  | String c s' => is_markdown c || has_markdown s'
  end.

(** A match of [https?://\S+] begins somewhere in the text. *)
Fixpoint has_url (s : string) : bool :=
  match s with
  | EmptyString => false
  | String _ s' => url_at s || has_url s'
  end.

(** ** src/tools/reasoning.py *)

(** The additive part of [clarity_score], lines 204 to 230: the length
    score and the three adjustments. *)
Definition clarity_base (description : string) : Q :=
  let has_clarity :=
    any_in ReasoningEngine.clarity_indicators (lower description) in
  let has_vague :=
    any_in ReasoningEngine.vague_indicators (lower description) in
  let length_score := py_min (of_int (String.length description) / 200) 1 in
  let base_score := length_score in
  let base_score :=
    if has_clarity then (base_score + 0.3)%Q else base_score in
  let base_score :=
    if has_vague then (base_score - 0.2)%Q else base_score in
  let has_technical :=
    any_in ReasoningEngine.technical_terms (lower description) in
  if has_technical then (base_score + 0.1)%Q else base_score.

(** ** src/utils/similarity.py *)

Definition is_duplicate (similarity_score : Q) : bool :=
  Qgeb similarity_score SIMILARITY_THRESHOLD_DUPLICATE.

Definition is_exact_duplicate (similarity_score : Q) : bool :=
  Qgeb similarity_score SIMILARITY_THRESHOLD_EXACT.

Definition is_related (similarity_score : Q) : bool :=
  Qgeb similarity_score SIMILARITY_THRESHOLD_MATCH.

Definition get_match_confidence (similarity_score : Q) : Q :=
  if Qgeb similarity_score SIMILARITY_THRESHOLD_EXACT then 0.95
  else if Qgeb similarity_score SIMILARITY_THRESHOLD_DUPLICATE then 0.85
  else if Qgeb similarity_score SIMILARITY_THRESHOLD_MATCH then 0.75
  else (similarity_score * 0.75)%Q.

(** ** src/models/mapache_context.py *)

Definition is_valid_mapache_work (task_description : string) : bool :=
  let description_lower := lower task_description in
  let mapache_score :=
    count_in MapacheContext.MAPACHE_KEYWORDS description_lower in
  let filter_score :=
    count_in MapacheContext.FILTER_OUT_KEYWORDS description_lower in
  let has_red_flags := any_in MapacheContext.RED_FLAGS description_lower in
  if has_red_flags || (0 <? filter_score)%nat then false
  else if (0 <? mapache_score)%nat then true
  else false.

(** The projects that have an embedding have one of the dimension of the
    task embedding. *)
Definition embeddings_agree (task_embedding : ndarray)
           (projects : list LinearProject) : Prop :=
  Forall (fun p =>
            match embedding p with
            | Some (x :: e) => length (x :: e) = length task_embedding
            | _ => True
            end)
         projects.

(** ** src/integrations/firestore_client.py *)

(** The project that [get_project_by_id] and [search_projects] build from
    a document: [cached_at] is not read back. *)
Definition project_of_doc (data : LinearProject) : LinearProject :=
  {| id := id data; name := name data; description := description data;
     team := team data; status := status data; cached_at := None;
     embedding := embedding data; alignment_score := alignment_score data;
     domain := domain data |}.

Section FirestoreReads.

(** Whether a read of the [projects] collection by id or by scan fails. *)
Variable projects_read_fault : State -> option Exception.


(** The loop of [search_projects] over the documents streamed.  A
    document written by [cache_projects] always has the key
    [description], so [data.get("description", "")] is the stored value,
    and [None.lower()] is an AttributeError. *)
Fixpoint search_loop (query_lower : string) (limit : nat)
         (docs : list LinearProject) (matches : list LinearProject)
  : result (list LinearProject) :=
  match docs with
  | [] => Ok matches
  | data :: rest =>
      let name := lower (name data) in
      match description data with
      | None => Raise "'NoneType' object has no attribute 'lower'"
      | Some description =>
          let description := lower description in
          if str_in query_lower name || str_in query_lower description
          then
            let matches := matches ++ [project_of_doc data] in
            if (limit <=? length matches)%nat then Ok matches
            else search_loop query_lower limit rest matches
          else search_loop query_lower limit rest matches
      end
  end.

(** The documents that [projects_col.limit(100).stream()] yields, in the
    order of the map. *)
Definition streamed_projects (s : State) : list LinearProject :=
  take 100 (List.map snd (map_to_list (projects_col s))).

Definition search_projects (query : string) (limit : nat)
  : IO (list LinearProject) :=
  fun s =>
    let query_lower := lower query in
    match projects_read_fault s with
    | Some e => (Raise e, s)
    | None => (search_loop query_lower limit (streamed_projects s) [], s)
    end.

End FirestoreReads.

(** [get_agent_state]: the fields of the document [current], none when
    the document does not exist. *)
Definition get_agent_state (env : Env) : IO (gmap string StateValue) :=
  (firestore env OpGetAgentState ;;;
   s <- get_state ;;
   ret (agent_state_col s))%io.

(** ** src/agent.py *)

(** [settings.agent_version] *)
Definition agent_version : string := "1.0.0".

Record Health := {
  h_status : StateValue;
  h_version : string;
  h_last_init : option StateValue;
  h_last_sync : option StateValue;
  h_projects_count : StateValue;
  h_cache_valid : bool
}.

Definition get_agent_health (env : Env) : IO Health :=
  (state <- get_agent_state env ;;
   s <- get_state ;;
   ret {| h_status := default (VStr "unknown") (state !! "health_status");
          h_version := agent_version;
          h_last_init := state !! "last_init";
          h_last_sync := state !! "last_sync";
          h_projects_count := default (VInt 0) (state !! "projects_count");
          h_cache_valid :=
            bool_decide (_projects_cache s <> None)
            && bool_decide (_cache_time s <> None) |})%io.

(** [initialize]: the exception of a step is logged and raised again. *)
Definition initialize (env : Env) : IO unit :=
  (state <- get_agent_state env ;;
   LinearSemanticAgent.get_or_refresh_projects env false ;;;
   t <- now ;;
   FirestoreClient.update_agent_state env
     [("last_init"%string, VTime t);
      ("health_status"%string, VStr "healthy");
      ("version"%string, VStr agent_version)])%io.

(** What decides a match in [search_projects]: the lowered query occurs
    in the lowered name or in the lowered description. *)
Definition doc_matches (query_lower : string) (data : LinearProject) : bool :=
  match description data with
  | Some d =>
      str_in query_lower (lower (name data))
      || str_in query_lower (lower d)
  | None => false
  end.

(** The text is empty or blank: [not text or not text.strip()]. *)
Definition blank (text : string) : bool :=
  str_eqb text EmptyString || str_eqb (strip text) EmptyString.



(** ** src/integrations/vertex_ai.py: the batch calls *)

Definition VERTEX_AI_BATCH_SIZE : nat := 100.

Section BatchEmbeddings.

(** [self.embedding_model.get_embeddings(embedding_inputs)] on the inputs
    of a batch: what the embedding model answers to a list of texts. *)
Variable model_get_embeddings_batch :
  list string -> string -> State -> result (list ndarray).

(** [valid_texts[i:i + VERTEX_AI_BATCH_SIZE]] for [i] in
    [range(0, len(valid_texts), VERTEX_AI_BATCH_SIZE)]; [fuel] bounds the
    number of slices. *)
Fixpoint batches (fuel : nat) (texts : list string) : list (list string) :=
  match fuel, texts with
  | S fuel, _ :: _ =>
      take VERTEX_AI_BATCH_SIZE texts
      :: batches fuel (drop VERTEX_AI_BATCH_SIZE texts)
  | _, _ => []
  end.

(** The texts of a batch, in the log of the calls to the model. *)
Definition log_batch (batch : list string) (task_type : string) (s : State)
  : State :=
  fold_left (fun s text => log_provider_call text task_type s) batch s.

(** The loop of [embed_texts] over the batches. *)
Fixpoint embed_batches (todo : list (list string)) (task_type : string)
         (all_embeddings : list ndarray) : IO (list ndarray) :=
  match todo with
  | [] => ret all_embeddings
  | batch :: todo =>
      (modify (log_batch batch task_type) ;;;
       s <- get_state ;;
       embeddings <- lift (model_get_embeddings_batch batch task_type s) ;;
       embed_batches todo task_type (all_embeddings ++ embeddings))%io
  end.

(** The body of [embed_texts]. *)
Definition embed_texts_once (texts : list string) (task_type : string)
  : IO (list ndarray) :=
  match texts with
  | [] => ret []
  | _ :: _ =>
      let valid_texts := List.filter (fun t => negb (blank t)) texts in
      match valid_texts with
      | [] =>
          ret (List.map (fun _ => repeat 0%Q embeddings_dimension) texts)
      | _ :: _ =>
          embed_batches (batches (length valid_texts) valid_texts)
                        task_type []
      end
  end.

Definition embed_texts (texts : list string) (task_type : string)
  : IO (list ndarray) :=
  VertexAIClient.retry 3 EmptyString (embed_texts_once texts task_type).

(** The first loop of [get_embeddings], from the text of index [i] on;
    [acc] holds [embeddings], [texts_to_embed] and [cache_indices]. *)
Fixpoint check_cache (env : Env) (use_cache : bool) (texts : list string)
         (i : nat)
         (acc : list (option ndarray) * list string * list nat)
  : IO (list (option ndarray) * list string * list nat) :=
  match texts with
  | [] => ret acc
  | text :: texts =>
      (cached <-
         (if use_cache then FirestoreClient.get_embedding env text
          else ret None) ;;
       let '(embeddings, texts_to_embed, cache_indices) := acc in
       match cached with
       | Some cached =>
           check_cache env use_cache texts (S i)
             (embeddings ++ [Some cached], texts_to_embed, cache_indices)
       | None =>
           check_cache env use_cache texts (S i)
             (embeddings ++ [None], texts_to_embed ++ [text],
              cache_indices ++ [i])
       end)%io
  end.

(** The second loop of [get_embeddings], from the new embedding of index
    [i] on.  An index out of range raises an IndexError. *)
Fixpoint store_new (env : Env) (use_cache : bool)
         (new_embeddings : list ndarray) (i : nat)
         (texts_to_embed : list string) (cache_indices : list nat)
         (embeddings : list (option ndarray))
  : IO (list (option ndarray)) :=
  match new_embeddings with
  | [] => ret embeddings
  | embedding :: new_embeddings =>
      match cache_indices !! i with
      | None => raise "list index out of range"
      | Some result_idx =>
          if (result_idx <? length embeddings)%nat
          then
            let embeddings := <[ result_idx := Some embedding ]> embeddings in
            ((if use_cache
              then
                match texts_to_embed !! i with
                | Some text =>
                    FirestoreClient.store_embedding env text embedding
                | None => raise "list index out of range"
                end
              else ret tt) ;;;
             store_new env use_cache new_embeddings (S i) texts_to_embed
                       cache_indices embeddings)%io
          else raise "list assignment index out of range"
      end
  end.

(** [EmbeddingService.get_embeddings]; a slot that no new embedding was
    written to holds [None]. *)
Definition get_embeddings (env : Env) (texts : list string)
           (task_type : string) (use_cache : bool)
  : IO (list (option ndarray)) :=
  (acc <- check_cache env use_cache texts 0 ([], [], []) ;;
   let '(embeddings, texts_to_embed, cache_indices) := acc in
   match texts_to_embed with
   | [] => ret embeddings
   | _ :: _ =>
       new_embeddings <- embed_texts texts_to_embed task_type ;;
       store_new env use_cache new_embeddings 0 texts_to_embed
                 cache_indices embeddings
   end)%io.

End BatchEmbeddings.

(** Every slot of the result holds an embedding. *)
Definition all_filled (embeddings : list (option ndarray)) : Prop :=
  Forall (fun e => e <> None) embeddings.

(** An embedding model that answers each text of a batch with the vector
    (1, 0). *)
Definition unit_model (batch : list string) (task_type : string)
           (s : State) : result (list ndarray) :=
  Ok (List.map (fun _ => [1%Q; 0%Q]) batch).
(* ===================================================================== *)
(** * Properties                                                          *)
(* ===================================================================== *)

(** ** Comparisons and clamps *)

Lemma Qltb_lt (a b : Q) : Qltb a b = true <-> (a < b)%Q.
Proof.
  unfold Qltb. rewrite negb_true_iff.
  destruct (Qle_bool b a) eqn:E.
  - apply Qle_bool_iff in E. split; [discriminate | intros H; lra].
  - split; [intros _ | reflexivity].
    destruct (Qlt_le_dec a b) as [H | H]; [exact H |].
    apply Qle_bool_iff in H. congruence.
Qed.

Lemma Qltb_ge (a b : Q) : Qltb a b = false <-> (b <= a)%Q.
Proof.
  unfold Qltb. rewrite negb_false_iff. apply Qle_bool_iff.
Qed.

Lemma Qgeb_ge (a b : Q) : Qgeb a b = true <-> (b <= a)%Q.
Proof. unfold Qgeb. apply Qle_bool_iff. Qed.

Lemma Qgeb_lt (a b : Q) : Qgeb a b = false <-> (a < b)%Q.
Proof.
  unfold Qgeb. destruct (Qle_bool b a) eqn:E.
  - apply Qle_bool_iff in E. split; [discriminate | intros H; lra].
  - split; [intros _ | reflexivity].
    destruct (Qlt_le_dec a b) as [H | H]; [exact H |].
    apply Qle_bool_iff in H. congruence.
Qed.

Lemma py_min_Qmin (a b : Q) : (py_min a b == Qmin a b)%Q.
Proof.
  unfold py_min. destruct (Qltb b a) eqn:E.
  - apply Qltb_lt in E. symmetry. apply Q.min_r. lra.
  - apply Qltb_ge in E. symmetry. apply Q.min_l. exact E.
Qed.

Lemma py_max_Qmax (a b : Q) : (py_max a b == Qmax a b)%Q.
Proof.
  unfold py_max. destruct (Qltb a b) eqn:E.
  - apply Qltb_lt in E. symmetry. apply Q.max_r. lra.
  - apply Qltb_ge in E. symmetry. apply Q.max_l. exact E.
Qed.

Lemma py_clamp_clamp01 (x : Q) : (py_max 0 (py_min 1 x) == clamp01 x)%Q.
Proof.
  unfold clamp01. rewrite py_max_Qmax, py_min_Qmin. reflexivity.
Qed.

Lemma py_clamp_bounds (x : Q) : (0 <= py_max 0 (py_min 1 x) <= 1)%Q.
Proof.
  unfold py_max, py_min.
  destruct (Qltb x 1) eqn:E1.
  - apply Qltb_lt in E1. destruct (Qltb 0 x) eqn:E2.
    + apply Qltb_lt in E2. lra.
    + lra.
  - destruct (Qltb 0 1) eqn:E2; lra.
Qed.

Lemma clamp01_bounds (x : Q) : (0 <= clamp01 x <= 1)%Q.
Proof. rewrite <- py_clamp_clamp01. apply py_clamp_bounds. Qed.

Lemma in_unit_iff (x : Q) : in_unit x = true <-> (0 <= x <= 1)%Q.
Proof.
  unfold in_unit. rewrite andb_true_iff, !Qle_bool_iff. reflexivity.
Qed.

Lemma new_Decision_ok (d : Decision) :
  well_formed d -> new_Decision d = Ok d.
Proof.
  intros [Hc Ha]. unfold new_Decision.
  apply in_unit_iff in Hc. apply in_unit_iff in Ha.
  rewrite Hc, Ha. reflexivity.
Qed.

Lemma new_Decision_inv (d d' : Decision) :
  new_Decision d = Ok d' -> d' = d /\ well_formed d.
Proof.
  unfold new_Decision, well_formed.
  destruct (in_unit (confidence d)) eqn:Hc; simpl; [| discriminate].
  destruct (in_unit (d_alignment_score d)) eqn:Ha; simpl; [| discriminate].
  intros [= <-]. apply in_unit_iff in Hc. apply in_unit_iff in Ha. auto.
Qed.

#[local] Instance clamp01_compat : Proper (Qeq ==> Qeq) clamp01.
Proof. intros x y H. unfold clamp01. rewrite H. reflexivity. Qed.

(** ** Text *)

Lemma ascii_lower_idem (c : ascii) :
  ascii_lower (ascii_lower c) = ascii_lower c.
Proof.
  destruct c as [[] [] [] [] [] [] [] []]; reflexivity.
Qed.

Lemma lower_idem (s : string) : lower (lower s) = lower s.
Proof.
  induction s as [| c s IH]; simpl; [reflexivity |].
  rewrite ascii_lower_idem, IH. reflexivity.
Qed.

Lemma first_rule_excluded (text : string) :
  MapacheContext.first_rule MapacheContext.FILTER_OUT_RULES text
  = excluded_category text.
Proof.
  unfold MapacheContext.first_rule, excluded_category.
  induction MapacheContext.FILTER_OUT_RULES as [| [category keywords] rules IH];
    simpl; [reflexivity |].
  destruct (existsb _ keywords); [reflexivity | exact IH].
Qed.

Lemma find_some_In {A} (f : A -> bool) (l : list A) (x : A) :
  List.find f l = Some x -> In x l.
Proof.
  induction l as [| y l IH]; simpl; [discriminate |].
  destruct (f y); [intros [= <-]; auto | auto].
Qed.






(** ** The scoring model *)


(** C5: [alignment_score] is 0.40 * filterS + 0.30 * bestSimilarityOrZero
    + 0.20 * clarityS + 0.10 * 1.0, clamped to [0, 1]: the red-flag weight
    multiplies the constant 1.0. *)
Theorem alignment_score_is_weighted_sum (filter_s similarity_s clarity_s : Q) :
  (ReasoningEngine.alignment_score filter_s similarity_s clarity_s
   == alignmentScore_spec filter_s similarity_s clarity_s)%Q
  /\ (0 <= ReasoningEngine.alignment_score filter_s similarity_s clarity_s
      <= 1)%Q.
Proof.
  split.
  - unfold ReasoningEngine.alignment_score, alignmentScore_spec.
    rewrite py_clamp_clamp01. apply clamp01_compat.
    unfold SCORE_WEIGHT_CONTEXT, SCORE_WEIGHT_SIMILARITY,
      SCORE_WEIGHT_CLARITY, SCORE_WEIGHT_RED_FLAGS.
    reflexivity.
  - apply py_clamp_bounds.
Qed.

Lemma filter_score_bounds (task : Task) :
  (0 <= ReasoningEngine.filter_score task <= 1)%Q.
Proof.
  unfold ReasoningEngine.filter_score.
  destruct (truthy _); [lra | apply py_clamp_bounds].
Qed.

Lemma get_filter_category_excluded (text : string) :
  MapacheContext.get_filter_category text = excluded_category (lower text).
Proof.
  unfold MapacheContext.get_filter_category. apply first_rule_excluded.
Qed.

(** ** The decision constructors *)

Lemma create_filter_decision_type (task : Task) (filter_score : Q)
      (d : Decision) :
  ReasoningEngine._create_filter_decision task filter_score = Ok d ->
  decision d = FILTER.
Proof.
  unfold ReasoningEngine._create_filter_decision. intros H.
  apply new_Decision_inv in H as [-> _]. reflexivity.
Qed.

Lemma create_clarify_decision_type (task : Task) (clarity_score : Q)
      (d : Decision) :
  ReasoningEngine._create_clarify_decision task clarity_score = Ok d ->
  decision d = CLARIFY.
Proof.
  unfold ReasoningEngine._create_clarify_decision. intros H.
  apply new_Decision_inv in H as [-> _]. reflexivity.
Qed.

Lemma create_add_decision_type (task : Task) (matches : list Match)
      (a f c : Q) (d : Decision) :
  ReasoningEngine._create_add_decision task matches a f c = Ok d ->
  decision d = ADD.
Proof.
  unfold ReasoningEngine._create_add_decision. intros H.
  apply new_Decision_inv in H as [-> _]. reflexivity.
Qed.

Lemma create_consolidate_decision_inv (task : Task) (matches : list Match)
      (duplicate_score : Q) (d : Decision) :
  ReasoningEngine._create_consolidate_decision task matches duplicate_score
  = Ok d ->
  decision d = CONSOLIDATE /\ d_alignment_score d = 0.90%Q
  /\ confidence d = duplicate_score.
Proof.
  unfold ReasoningEngine._create_consolidate_decision.
  destruct matches as [| best_match rest]; [discriminate |].
  intros H. apply new_Decision_inv in H as [-> _]. auto.
Qed.

Lemma decide_alignment_type (task : Task) (matches : list Match) (f c : Q)
      (d : Decision) :
  ReasoningEngine.decide_alignment task matches f c = Ok d ->
  decision d = ADD \/ decision d = CLARIFY.
Proof.
  unfold ReasoningEngine.decide_alignment.
  destruct (Qgeb _ _); intros H.
  - left. eapply create_add_decision_type, H.
  - right. eapply create_clarify_decision_type, H.
Qed.


Lemma create_filter_decision_wf (task : Task) (filter_score : Q)
      (d : Decision) :
  ReasoningEngine._create_filter_decision task filter_score = Ok d ->
  well_formed d.
Proof.
  unfold ReasoningEngine._create_filter_decision. intros H.
  apply new_Decision_inv in H as [-> H]. exact H.
Qed.

Lemma create_clarify_decision_wf (task : Task) (clarity_score : Q)
      (d : Decision) :
  ReasoningEngine._create_clarify_decision task clarity_score = Ok d ->
  well_formed d.
Proof.
  unfold ReasoningEngine._create_clarify_decision. intros H.
  apply new_Decision_inv in H as [-> H]. exact H.
Qed.

Lemma create_add_decision_wf (task : Task) (matches : list Match)
      (a f c : Q) (d : Decision) :
  ReasoningEngine._create_add_decision task matches a f c = Ok d ->
  well_formed d.
Proof.
  unfold ReasoningEngine._create_add_decision. intros H.
  apply new_Decision_inv in H as [-> H]. exact H.
Qed.

Lemma create_consolidate_decision_wf (task : Task) (matches : list Match)
      (duplicate_score : Q) (d : Decision) :
  ReasoningEngine._create_consolidate_decision task matches duplicate_score
  = Ok d ->
  well_formed d.
Proof.
  unfold ReasoningEngine._create_consolidate_decision.
  destruct matches as [| best_match rest]; [discriminate |].
  intros H. apply new_Decision_inv in H as [-> H]. exact H.
Qed.

Lemma decide_alignment_wf (task : Task) (matches : list Match) (f c : Q)
      (d : Decision) :
  ReasoningEngine.decide_alignment task matches f c = Ok d ->
  well_formed d.
Proof.
  unfold ReasoningEngine.decide_alignment.
  destruct (Qgeb _ _); intros H.
  - eapply create_add_decision_wf, H.
  - eapply create_clarify_decision_wf, H.
Qed.

(** Every decision that the engine returns has passed the validation of
    its two scores. *)
Lemma evaluate_well_formed (norm : ndarray -> Q) (task : Task)
      (task_embedding : ndarray) (projects : list LinearProject)
      (d : Decision) :
  ReasoningEngine.evaluate norm task task_embedding projects = Ok d ->
  well_formed d.
Proof.
  unfold ReasoningEngine.evaluate. cbv zeta.
  destruct (Qltb (ReasoningEngine.filter_score task) CONFIDENCE_FILTER);
    [apply create_filter_decision_wf |].
  destruct (Qltb (ReasoningEngine.clarity_score task) 0.4);
    [apply create_clarify_decision_wf |].
  destruct (ReasoningEngine._find_similar_projects norm task_embedding
              projects) as [matches | e]; [| discriminate].
  unfold rbind.
  destruct matches as [| best_match rest]; [apply decide_alignment_wf |].
  destruct (Qgeb (ReasoningEngine.duplicate_score task (project best_match)
                    (similarity_score best_match)) 0.75);
    [apply create_consolidate_decision_wf | apply decide_alignment_wf].
Qed.

(** ** The filter rule *)




(** ** Ranking by similarity *)

Lemma ranked_before_trans (a b c : nat * Q) :
  ranked_before a b -> ranked_before b c -> ranked_before a c.
Proof.
  unfold ranked_before.
  intros [H1 | [H1 H1']] [H2 | [H2 H2']].
  - left. lra.
  - left. lra.
  - left. lra.
  - right. split; [lra | lia].
Qed.

Lemma insert_desc_In (x y : nat * Q) (l : list (nat * Q)) :
  In y (insert_desc x l) <-> y = x \/ In y l.
Proof.
  induction l as [| z l IH]; cbn [insert_desc In].
  - intuition.
  - destruct (Qltb (snd x) (snd z)); cbn [In]; [rewrite IH |]; intuition.
Qed.

Lemma sort_desc_In (y : nat * Q) (l : list (nat * Q)) :
  In y (sort_desc l) <-> In y l.
Proof.
  unfold sort_desc.
  induction l as [| x l IH]; cbn [foldr In]; [reflexivity |].
  rewrite insert_desc_In, IH. intuition.
Qed.

Lemma insert_desc_sorted (x : nat * Q) (l : list (nat * Q)) :
  StronglySorted ranked_before l ->
  Forall (index_before x) l ->
  StronglySorted ranked_before (insert_desc x l).
Proof.
  induction l as [| y l IH]; intros Hs Hx; cbn [insert_desc].
  - constructor; constructor.
  - apply StronglySorted_inv in Hs as [Hs Hy].
    apply List.Forall_cons_iff in Hx as [Hxy Hx].
    destruct (Qltb (snd x) (snd y)) eqn:E.
    + apply Qltb_lt in E.
      constructor; [apply IH; assumption |].
      apply List.Forall_forall. intros z Hz.
      apply insert_desc_In in Hz as [-> | Hz].
      * left. exact E.
      * rewrite List.Forall_forall in Hy. apply Hy, Hz.
    + apply Qltb_ge in E.
      assert (Hxy' : ranked_before x y).
      { unfold ranked_before, index_before in *.
        destruct (Qlt_le_dec (snd y) (snd x)) as [Hlt | Hle];
          [left; exact Hlt | right; split; [lra | exact Hxy]]. }
      constructor; [constructor; assumption |].
      constructor; [exact Hxy' |].
      apply List.Forall_forall. intros z Hz.
      rewrite List.Forall_forall in Hy.
      eapply ranked_before_trans; [exact Hxy' | apply Hy, Hz].
Qed.

Lemma sort_desc_sorted (l : list (nat * Q)) :
  StronglySorted index_before l ->
  StronglySorted ranked_before (sort_desc l).
Proof.
  induction l as [| x l IH]; intros Hs; [constructor |].
  change (sort_desc (x :: l)) with (insert_desc x (sort_desc l)).
  apply StronglySorted_inv in Hs as [Hs Hx].
  apply insert_desc_sorted; [apply IH, Hs |].
  apply List.Forall_forall. intros y Hy.
  apply (proj1 (sort_desc_In y l)) in Hy.
  rewrite List.Forall_forall in Hx. apply Hx, Hy.
Qed.

Lemma lookup_shift {A} (x : A) (l : list A) (idx i : nat) :
  (idx <= i)%nat ->
  (x :: l) !! (i - idx)%nat
  = if (i =? idx)%nat then Some x else l !! (i - S idx)%nat.
Proof.
  intros Hle. destruct (Nat.eqb_spec i idx) as [-> | Hne].
  - rewrite Nat.sub_diag. reflexivity.
  - replace (i - idx)%nat with (S (i - S idx)) by lia. reflexivity.
Qed.

Section Ranking.

Variable norm : ndarray -> Q.

Lemma cosine_similarity_bounds (a b : option ndarray) (x : Q) :
  cosine_similarity norm a b = Ok x -> (0 <= x <= 1)%Q.
Proof.
  unfold cosine_similarity.
  destruct a as [a |], b as [b |]; try (intros [= <-]; lra).
  destruct (_ || _); [intros [= <-]; lra |].
  destruct (np_dot _ _) as [similarity | e]; [| discriminate].
  cbn [rbind]. intros [= <-]. unfold np_clip.
  destruct (Qltb similarity 0) eqn:E1; [lra |].
  destruct (Qltb 1 similarity) eqn:E2; [lra |].
  apply Qltb_ge in E1. apply Qltb_ge in E2. lra.
Qed.

Lemma cosine_similarity_total (v c : ndarray) :
  length c = length v ->
  exists x, cosine_similarity norm (Some v) (Some c) = Ok x.
Proof.
  intros Hlen. unfold cosine_similarity.
  destruct (_ || _); [eauto |].
  unfold np_dot, vec_div. rewrite !length_map, Hlen, Nat.eqb_refl.
  cbn [rbind]. eauto.
Qed.

Lemma similarities_from_total (v : ndarray) (threshold : Q)
      (candidates : list (option ndarray)) (idx : nat) :
  dims_agree v candidates ->
  exists l, similarities_from norm (Some v) threshold idx candidates = Ok l.
Proof.
  intros Hd. revert idx.
  induction Hd as [| candidate rest Hc Hd IH]; intros idx;
    cbn [similarities_from]; [eauto |].
  destruct candidate as [c |]; cbv beta iota; [| apply IH].
  destruct (cosine_similarity_total v c Hc) as [x Hx].
  destruct (IH (S idx)) as [l Hl].
  eexists. rewrite Hx. cbn [rbind]. rewrite Hl. cbn [rbind]. reflexivity.
Qed.

(** What the loop collects: the candidates that are present and whose
    score reaches the threshold, with their positions, in the order of
    the positions. *)
Lemma similarities_from_spec (query : option ndarray) (threshold : Q)
      (candidates : list (option ndarray)) :
  forall (idx : nat) (l : list (nat * Q)),
    similarities_from norm query threshold idx candidates = Ok l ->
    (forall i x,
        In (i, x) l <->
        (idx <= i)%nat
        /\ exists c,
             candidates !! (i - idx)%nat = Some (Some c)
             /\ cosine_similarity norm query (Some c) = Ok x
             /\ (threshold <= x)%Q)
    /\ StronglySorted index_before l
    /\ Forall (fun p => (idx <= fst p)%nat) l.
Proof.
  induction candidates as [| candidate rest IH]; intros idx l;
    cbn [similarities_from].
  - intros [= <-]. split; [| split; constructor].
    intros i x. split; [intros [] |].
    intros (_ & c & Hc & _). rewrite lookup_nil in Hc. discriminate.
  - assert (Hrest :
      forall l',
        similarities_from norm query threshold (S idx) rest = Ok l' ->
        (forall i x,
            In (i, x) l' <->
            (idx <= i)%nat /\ i <> idx
            /\ exists c,
                 (candidate :: rest) !! (i - idx)%nat = Some (Some c)
                 /\ cosine_similarity norm query (Some c) = Ok x
                 /\ (threshold <= x)%Q)
        /\ StronglySorted index_before l'
        /\ Forall (fun p => (S idx <= fst p)%nat) l').
    { intros l' Hl'. destruct (IH _ _ Hl') as (Hmem & Hs & Hge).
      split; [| split; assumption].
      intros i x. rewrite Hmem. split.
      - intros (Hle & c & Hc & Hx). split; [lia |]. split; [lia |].
        exists c. rewrite lookup_shift by lia.
        destruct (Nat.eqb_spec i idx); [lia |]. auto.
      - intros (Hle & Hne & c & Hc & Hx). split; [lia |].
        exists c. rewrite lookup_shift in Hc by lia.
        destruct (Nat.eqb_spec i idx); [lia |]. auto. }
    destruct candidate as [c |]; cbv beta iota.
    + destruct (cosine_similarity norm query (Some c)) as [score | e]
        eqn:Hscore; cbn [rbind]; [| discriminate].
      destruct (similarities_from norm query threshold (S idx) rest)
        as [sims | e] eqn:Hsims; cbn [rbind]; [| discriminate].
      destruct (Hrest sims eq_refl) as (Hmem & Hs & Hge).
      intros [= <-].
      destruct (Qgeb score threshold) eqn:Hthr.
      * apply Qgeb_ge in Hthr. split; [| split].
        -- intros i x. cbn [In]. rewrite Hmem. split.
           ++ intros [[= <- <-] | (Hle & Hne & H)].
              ** split; [lia |]. exists c.
                 rewrite Nat.sub_diag. auto.
              ** split; [exact Hle | exact H].
           ++ intros (Hle & c' & Hc' & Hx & Hx').
              destruct (Nat.eq_dec i idx) as [-> | Hne].
              ** left. rewrite Nat.sub_diag in Hc'.
                 injection Hc' as <-. congruence.
              ** right. split; [exact Hle |]. split; [exact Hne |].
                 exists c'. auto.
        -- constructor; [exact Hs |].
           eapply List.Forall_impl; [| exact Hge].
           intros p Hp. unfold index_before. cbn beta in Hp. cbn [fst].
           lia.
        -- constructor; [cbn [fst]; lia |].
           eapply List.Forall_impl; [| exact Hge]. intros p Hp. cbn beta in *.
           lia.
      * apply Qgeb_lt in Hthr. split; [| split].
        -- intros i x. rewrite Hmem. split.
           ++ intros (Hle & Hne & H). split; [exact Hle | exact H].
           ++ intros (Hle & c' & Hc' & Hx & Hx').
              destruct (Nat.eq_dec i idx) as [-> | Hne].
              ** rewrite Nat.sub_diag in Hc'. injection Hc' as <-.
                 rewrite Hscore in Hx. injection Hx as <-. lra.
              ** split; [exact Hle |]. split; [exact Hne |].
                 exists c'. auto.
        -- exact Hs.
        -- eapply List.Forall_impl; [| exact Hge]. intros p Hp. cbn beta in *.
           lia.
    + intros Hl. destruct (Hrest l Hl) as (Hmem & Hs & Hge).
      split; [| split].
      * intros i x. rewrite Hmem. split.
        -- intros (Hle & Hne & H). split; [exact Hle | exact H].
        -- intros (Hle & c' & Hc' & Hx & Hx').
           destruct (Nat.eq_dec i idx) as [-> | Hne].
           ++ rewrite Nat.sub_diag in Hc'. discriminate.
           ++ split; [exact Hle |]. split; [exact Hne |].
              exists c'. auto.
      * exact Hs.
      * eapply List.Forall_impl; [| exact Hge]. intros p Hp. cbn beta in *.
        lia.
Qed.

Lemma find_most_similar_spec (v : ndarray) (threshold : Q)
      (candidates : list (option ndarray)) (l : list (nat * Q)) :
  find_most_similar norm (Some v) candidates threshold = Ok l ->
  StronglySorted ranked_before l
  /\ forall i x,
       In (i, x) l <->
       exists c,
         candidates !! i = Some (Some c)
         /\ cosine_similarity norm (Some v) (Some c) = Ok x
         /\ (threshold <= x)%Q.
Proof.
  unfold find_most_similar.
  destruct candidates as [| candidate rest].
  - intros [= <-]. split; [constructor |].
    intros i x. split; [intros [] |].
    intros (c & Hc & _). rewrite lookup_nil in Hc. discriminate.
  - destruct (similarities_from norm (Some v) threshold 0
                                (candidate :: rest))
      as [sims | e] eqn:Hsims; cbn [rbind]; [| discriminate].
    intros [= <-].
    destruct (similarities_from_spec _ _ _ _ _ Hsims) as (Hmem & Hs & _).
    split; [apply sort_desc_sorted, Hs |].
    intros i x. rewrite sort_desc_In, Hmem, Nat.sub_0_r.
    split; [intros (_ & H); exact H | intros H; split; [lia | exact H]].
Qed.

Lemma find_most_similar_bounds (query : option ndarray) (threshold : Q)
      (candidates : list (option ndarray)) (l : list (nat * Q)) :
  find_most_similar norm query candidates threshold = Ok l ->
  Forall (fun p => (0 <= snd p <= 1)%Q /\ (threshold <= snd p)%Q) l.
Proof.
  destruct query as [v |].
  - intros H. apply find_most_similar_spec in H as [_ Hmem].
    apply List.Forall_forall. intros [i x] Hin.
    apply Hmem in Hin as (c & _ & Hx & Hthr). cbn [snd].
    split; [eapply cosine_similarity_bounds, Hx | exact Hthr].
  - unfold find_most_similar. intros [= <-]. constructor.
Qed.

Lemma empty_query_no_match (threshold : Q)
      (candidates : list (option ndarray)) (idx : nat) :
  (0 < threshold)%Q ->
  similarities_from norm (Some []) threshold idx candidates = Ok [].
Proof.
  intros Hthr. revert idx.
  induction candidates as [| candidate rest IH]; intros idx;
    cbn [similarities_from]; [reflexivity |].
  destruct candidate as [c |]; cbv beta iota; [| apply IH].
  cbn [cosine_similarity length Nat.eqb orb rbind].
  rewrite IH. cbn [rbind].
  destruct (Qgeb 0 threshold) eqn:E; [| reflexivity].
  apply Qgeb_ge in E. lra.
Qed.

End Ranking.

(** C8, amended: [find_most_similar] returns the empty list when the query
    is None or the candidate list is empty, and for a query of length zero
    when the threshold is positive.  When the candidates have the
    dimension of the query it returns a list; the list it returns holds
    exactly the pairs (index, score) of the candidates that are present
    and whose similarity to the query reaches the threshold, sorted by
    score, greatest first, candidates of equal score in their original
    order. *)
Theorem find_most_similar_ranked (norm : ndarray -> Q) (v : ndarray)
        (candidates : list (option ndarray)) (threshold : Q) :
  find_most_similar norm None candidates threshold = Ok []
  /\ find_most_similar norm (Some v) [] threshold = Ok []
  /\ ((0 < threshold)%Q ->
      find_most_similar norm (Some []) candidates threshold = Ok [])
  /\ (dims_agree v candidates ->
      exists l, find_most_similar norm (Some v) candidates threshold = Ok l)
  /\ (forall l,
        find_most_similar norm (Some v) candidates threshold = Ok l ->
        StronglySorted ranked_before l
        /\ forall i x,
             In (i, x) l <->
             exists c,
               candidates !! i = Some (Some c)
               /\ cosine_similarity norm (Some v) (Some c) = Ok x
               /\ (threshold <= x)%Q).
Proof.
  split; [reflexivity |]. split; [reflexivity |].
  split; [| split].
  - intros Hthr. unfold find_most_similar.
    destruct candidates as [| candidate rest]; [reflexivity |].
    rewrite empty_query_no_match by exact Hthr. reflexivity.
  - intros Hd. unfold find_most_similar.
    destruct candidates as [| candidate rest]; [eauto |].
    destruct (similarities_from_total norm v threshold (candidate :: rest) 0
                Hd) as [l Hl].
    eexists. rewrite Hl. cbn [rbind]. reflexivity.
  - intros l. apply find_most_similar_spec.
Qed.

(** The hypotheses of [find_most_similar_ranked] at a threshold of 0.75
    and four candidates, one absent and two equal to the query. *)
Lemma find_most_similar_ranked_witness :
  (0 < 0.75)%Q
  /\ dims_agree [1%Q; 0%Q]
                [Some [0%Q; 1%Q]; Some [1%Q; 0%Q]; None; Some [1%Q; 0%Q]]
  /\ find_most_similar axis_norm (Some []) [Some [1%Q; 0%Q]] 0.75 = Ok []
  /\ exists l,
       find_most_similar axis_norm (Some [1%Q; 0%Q])
         [Some [0%Q; 1%Q]; Some [1%Q; 0%Q]; None; Some [1%Q; 0%Q]] 0.75
       = Ok l
       /\ StronglySorted ranked_before l.
Proof.
  assert (Hthr : (0 < 0.75)%Q) by reflexivity.
  assert (Hd : dims_agree [1%Q; 0%Q]
                 [Some [0%Q; 1%Q]; Some [1%Q; 0%Q]; None; Some [1%Q; 0%Q]])
    by (repeat constructor).
  split; [exact Hthr |]. split; [exact Hd |].
  split.
  - exact (proj1 (proj2 (proj2
             (find_most_similar_ranked axis_norm [] [Some [1%Q; 0%Q]] 0.75)))
             Hthr).
  - destruct (find_most_similar_ranked axis_norm [1%Q; 0%Q]
                [Some [0%Q; 1%Q]; Some [1%Q; 0%Q]; None; Some [1%Q; 0%Q]]
                0.75) as (_ & _ & _ & Hex & Hspec).
    destruct (Hex Hd) as [l Hl].
    exists l. split; [exact Hl | apply Hspec, Hl].
Defined.

(** C8, as stated, fails: with a threshold of 0 a query of length zero is
    ranked against the candidates, each with a similarity of 0. *)
Lemma find_most_similar_empty_query_counterexample :
  find_most_similar axis_norm (Some []) [Some [1%Q]] 0 = Ok [(0%nat, 0%Q)]
  /\ find_most_similar axis_norm (Some []) [Some [1%Q]] 0 <> Ok [].
Proof.
  split; [reflexivity | discriminate].
Qed.

(** ** Duplicates and consolidation *)

Lemma ratio_bounds (a b : nat) :
  (a <= b)%nat -> (0 < b)%nat -> (0 <= of_int a / of_int b <= 1)%Q.
Proof.
  intros Hab Hb. unfold of_int.
  assert (Hb' : (0 < inject_Z (Z.of_nat b))%Q).
  { change 0%Q with (inject_Z 0). rewrite <- Zlt_Qlt. lia. }
  assert (Ha' : (0 <= inject_Z (Z.of_nat a))%Q).
  { change 0%Q with (inject_Z 0). rewrite <- Zle_Qle. lia. }
  assert (Hab' : (inject_Z (Z.of_nat a) <= inject_Z (Z.of_nat b))%Q).
  { rewrite <- Zle_Qle. lia. }
  split.
  - apply Qle_shift_div_l; [exact Hb' | lra].
  - apply Qle_shift_div_r; [exact Hb' | lra].
Qed.

Lemma duplicate_score_bounds (task : Task) (p : LinearProject) (sim : Q) :
  (0 <= sim <= 1)%Q ->
  (0 <= ReasoningEngine.duplicate_score task p sim <= 1)%Q.
Proof.
  intros Hsim. unfold ReasoningEngine.duplicate_score. cbv zeta.
  set (A := ReasoningEngine.keyword_set (task_description task)).
  set (B := if truthy (description p) then _ else _).
  destruct (bool_decide (A = ∅)) eqn:HA; cbn [negb andb]; [exact Hsim |].
  destruct (bool_decide (B = ∅)); cbn [negb]; [exact Hsim |].
  apply bool_decide_eq_false in HA.
  assert (Hratio : (0 <= of_int (size (A ∩ B)) / of_int (size (A ∪ B))
                    <= 1)%Q).
  { apply ratio_bounds.
    - apply subseteq_size. etrans; [apply intersection_subseteq_l |].
      apply union_subseteq_l.
    - assert (size A <= size (A ∪ B))%nat
        by (apply subseteq_size, union_subseteq_l).
      assert (size A <> 0%nat) by (intros H0; apply size_empty_inv in H0;
                                   apply HA; apply leibniz_equiv, H0).
      lia. }
  revert Hratio. generalize (of_int (size (A ∩ B)) / of_int (size (A ∪ B)))%Q.
  intros overlap Hratio. split.
  - apply Qle_shift_div_l; lra.
  - apply Qle_shift_div_r; lra.
Qed.

Section Matches.

Variable norm : ndarray -> Q.

Lemma matches_of_bounds (valid_projects : list LinearProject)
      (similar_indices : list (nat * Q)) (matches : list Match) :
  ReasoningEngine.matches_of valid_projects similar_indices = Ok matches ->
  Forall (fun p => (0 <= snd p <= 1)%Q) similar_indices ->
  Forall (fun m => (0 <= similarity_score m <= 1)%Q) matches.
Proof.
  revert matches.
  induction similar_indices as [| [idx score] rest IH]; intros matches;
    cbn [ReasoningEngine.matches_of].
  - intros [= <-] _. constructor.
  - destruct (valid_projects !! idx) as [p |]; [| discriminate].
    destruct (ReasoningEngine.matches_of valid_projects rest)
      as [matches' | e]; cbn [rbind]; [| discriminate].
    intros [= <-] Hall.
    apply List.Forall_cons_iff in Hall as [Hscore Hall].
    constructor; [exact Hscore | apply IH; [reflexivity | exact Hall]].
Qed.

Lemma find_similar_projects_bounds (task_embedding : ndarray)
      (projects : list LinearProject) (matches : list Match) :
  ReasoningEngine._find_similar_projects norm task_embedding projects
  = Ok matches ->
  Forall (fun m => (0 <= similarity_score m <= 1)%Q) matches.
Proof.
  unfold ReasoningEngine._find_similar_projects.
  destruct projects as [| p projects]; [intros [= <-]; constructor |].
  destruct (List.map embedding _) as [| e es] eqn:Hembs;
    [intros [= <-]; constructor |].
  destruct (find_most_similar norm (Some task_embedding) (e :: es)
                              SIMILARITY_THRESHOLD_MATCH)
    as [similar_indices | exc] eqn:Hfind; cbn [rbind]; [| discriminate].
  intros Hm. eapply matches_of_bounds; [exact Hm |].
  apply Forall_take.
  apply find_most_similar_bounds in Hfind.
  eapply List.Forall_impl; [| exact Hfind].
  intros q [Hq _]. exact Hq.
Qed.

End Matches.



(** C10: a Consolidate decision of the engine has the alignment score
    0.90, whatever the scores of the task are. *)
Theorem consolidate_alignment_constant (norm : ndarray -> Q) (task : Task)
        (task_embedding : ndarray) (projects : list LinearProject)
        (d : Decision) :
  ReasoningEngine.evaluate norm task task_embedding projects = Ok d ->
  decision d = CONSOLIDATE ->
  d_alignment_score d = 0.90%Q.
Proof.
  unfold ReasoningEngine.evaluate. cbv zeta.
  destruct (Qltb (ReasoningEngine.filter_score task) CONFIDENCE_FILTER).
  { intros H Hd. apply create_filter_decision_type in H. congruence. }
  destruct (Qltb (ReasoningEngine.clarity_score task) 0.4).
  { intros H Hd. apply create_clarify_decision_type in H. congruence. }
  destruct (ReasoningEngine._find_similar_projects norm task_embedding
              projects) as [matches | e]; [| discriminate].
  unfold rbind.
  assert (Hfinal :
            forall f c,
              ReasoningEngine.decide_alignment task matches f c = Ok d ->
              decision d = CONSOLIDATE -> d_alignment_score d = 0.90%Q).
  { intros f c H Hd. apply decide_alignment_type in H as [H | H];
      congruence. }
  destruct matches as [| best_match rest]; [apply Hfinal |].
  destruct (Qgeb (ReasoningEngine.duplicate_score task (project best_match)
                    (similarity_score best_match)) 0.75);
    [| apply Hfinal].
  intros H _. apply create_consolidate_decision_inv in H. tauto.
Qed.

(** The hypotheses of [consolidate_alignment_constant] at the decision of
    the engine on the Slack task and the Slack project. *)
Lemma consolidate_alignment_constant_witness :
  exists d,
    ReasoningEngine.evaluate axis_norm slack_task [1%Q; 0%Q] [slack_project]
    = Ok d
    /\ decision d = CONSOLIDATE
    /\ d_alignment_score d = 0.90%Q.
Proof.
  destruct (ReasoningEngine.evaluate axis_norm slack_task [1%Q; 0%Q]
              [slack_project]) as [d | e] eqn:E;
    [| vm_compute in E; discriminate].
  assert (Hd : decision d = CONSOLIDATE).
  { vm_compute in E. injection E as <-. reflexivity. }
  exists d. split; [reflexivity |]. split; [exact Hd |].
  exact (consolidate_alignment_constant axis_norm slack_task [1%Q; 0%Q]
           [slack_project] d E Hd).
Defined.

(** ** The validity of cache entries *)

Lemma memory_hit_iff (s : State) (t : datetime) (l : list LinearProject) :
  LinearSemanticAgent.memory_hit false s t = Some l <->
  _projects_cache s = Some l /\ l <> []
  /\ exists cache_time,
       _cache_time s = Some cache_time
       /\ (t - cache_time < seconds CACHE_TTL_PROJECTS)%Z.
Proof.
  unfold LinearSemanticAgent.memory_hit.
  destruct (_projects_cache s) as [[| p ps] |],
           (_cache_time s) as [cache_time |];
    try (split; [discriminate | intros (H & Hne & c & Hc & _);
                                try discriminate; congruence]).
  destruct (Z.ltb_spec (t - cache_time) (seconds CACHE_TTL_PROJECTS))
    as [Hlt | Hge].
  - split.
    + intros [= <-]. split; [reflexivity |]. split; [discriminate |].
      exists cache_time. auto.
    + intros (H & _). congruence.
  - split; [discriminate |].
    intros (_ & _ & c & [= <-] & Hlt). lia.
Qed.

Lemma memory_hit_served (env : Env) (s : State) (l : list LinearProject) :
  LinearSemanticAgent.memory_hit false s (clock s) = Some l ->
  LinearSemanticAgent.get_or_refresh_projects env false s = (Ok l, s).
Proof.
  intros H. unfold LinearSemanticAgent.get_or_refresh_projects, bind,
              get_state, now.
  rewrite H. reflexivity.
Qed.



Lemma read_embedding_iff (t : datetime) (data : EmbeddingDoc) (v : ndarray) :
  FirestoreClient.read_embedding t data = Some v <->
  e_embedding data = Some v /\ v <> []
  /\ forall created_at,
       e_created_at data = Some created_at ->
       (t - created_at
        <= seconds (default CACHE_TTL_EMBEDDINGS (e_ttl_seconds data)))%Z.
Proof.
  unfold FirestoreClient.read_embedding. cbv zeta.
  destruct (e_created_at data) as [created_at |].
  - destruct (Z.ltb_spec
                (seconds (default CACHE_TTL_EMBEDDINGS (e_ttl_seconds data)))
                (t - created_at)) as [Hexp | Hfresh].
    + split; [discriminate |].
      intros (_ & _ & H). specialize (H created_at eq_refl). lia.
    + destruct (e_embedding data) as [[| x l] |].
      * split; [discriminate | intros ([= <-] & H & _); congruence].
      * split.
        -- intros [= <-]. split; [reflexivity |]. split; [discriminate |].
           intros c [= <-]. exact Hfresh.
        -- intros ([= <-] & _). reflexivity.
      * split; [discriminate | intros (H & _); discriminate].
  - destruct (e_embedding data) as [[| x l] |].
    + split; [discriminate | intros ([= <-] & H & _); congruence].
    + split.
      * intros [= <-]. split; [reflexivity |]. split; [discriminate |].
        intros c. discriminate.
      * intros ([= <-] & _). reflexivity.
    + split; [discriminate | intros (H & _); discriminate].
Qed.

Lemma firestore_get_embedding_spec (env : Env) (text : string) (s : State) :
  firestore_fault env OpGetEmbedding s = None ->
  FirestoreClient.get_embedding env text s
  = (Ok (match embeddings_col s !! FirestoreClient._hash_text text with
         | Some data => FirestoreClient.read_embedding (clock s) data
         | None => None
         end), s).
Proof.
  intros Hfault.
  unfold FirestoreClient.get_embedding, bind, firestore, get_state, now, ret.
  rewrite Hfault.
  destruct (embeddings_col s !! FirestoreClient._hash_text text);
    reflexivity.
Qed.




(** ** The embedding cache *)

Lemma firestore_get_embedding_inv (env : Env) (text : string) (s s' : State)
      (r : result (option ndarray)) :
  FirestoreClient.get_embedding env text s = (r, s') ->
  s' = s
  /\ forall v,
       r = Ok (Some v) ->
       exists data,
         embeddings_col s !! FirestoreClient._hash_text text = Some data
         /\ FirestoreClient.read_embedding (clock s) data = Some v.
Proof.
  unfold FirestoreClient.get_embedding, bind, firestore, get_state, now, ret.
  destruct (firestore_fault env OpGetEmbedding s).
  - intros [= <- <-]. split; [reflexivity | discriminate].
  - destruct (embeddings_col s !! FirestoreClient._hash_text text)
      as [data |].
    + intros [= <- <-]. split; [reflexivity |].
      intros v [= H]. eauto.
    + intros [= <- <-]. split; [reflexivity | discriminate].
Qed.

Lemma embed_text_once_same_cache (env : Env) (text task_type : string)
      (s s' : State) (r : result ndarray) :
  VertexAIClient.embed_text_once env text task_type s = (r, s') ->
  same_cache s s'.
Proof.
  unfold VertexAIClient.embed_text_once, same_cache.
  destruct (_ || _).
  - intros [= <- <-]. auto.
  - unfold bind, modify, get_state, lift, ret.
    destruct (model_get_embeddings env text task_type _) as [[| e es] | exc];
      intros [= <- <-]; auto.
Qed.

Lemma retry_same_cache {A} (body : IO A) (attempts : nat) :
  (forall s s' r, body s = (r, s') -> same_cache s s') ->
  forall last s s' r,
    VertexAIClient.retry attempts last body s = (r, s') -> same_cache s s'.
Proof.
  intros Hbody.
  induction attempts as [| n IH]; intros last s s' r;
    cbn [VertexAIClient.retry].
  - unfold raise. intros [= <- <-]. split; reflexivity.
  - destruct (body s) as [[a | e] s0] eqn:Hb.
    + intros [= <- <-]. eapply Hbody, Hb.
    + intros H. apply IH in H. apply Hbody in Hb.
      destruct H as [H1 H2], Hb as [H3 H4]. split; congruence.
Qed.

Lemma embed_text_same_cache (env : Env) (text task_type : string)
      (s s' : State) (r : result ndarray) :
  VertexAIClient.embed_text env text task_type s = (r, s') ->
  same_cache s s'.
Proof.
  unfold VertexAIClient.embed_text.
  apply retry_same_cache. intros s0 s0' r0.
  apply embed_text_once_same_cache.
Qed.

Lemma store_embedding_inv (env : Env) (text : string) (embedding : ndarray)
      (s s' : State) :
  FirestoreClient.store_embedding env text embedding s = (Ok tt, s') ->
  clock s' = clock s
  /\ embeddings_col s'
     = <[ FirestoreClient._hash_text text :=
            {| e_text := text;
               e_embedding := Some embedding;
               e_dimension := length embedding;
               e_model := FirestoreClient.embeddings_model;
               e_created_at := Some (clock s);
               e_ttl_seconds := Some CACHE_TTL_EMBEDDINGS |} ]>
         (embeddings_col s).
Proof.
  unfold FirestoreClient.store_embedding, bind, now, firestore, modify.
  destruct (firestore_fault env OpStoreEmbedding s); [discriminate |].
  intros [= <-]. split; reflexivity.
Qed.

Lemma cached_embedding_served (env : Env) (text task_type : string)
      (s : State) (data : EmbeddingDoc) (v : ndarray) :
  firestore_fault env OpGetEmbedding s = None ->
  embeddings_col s !! FirestoreClient._hash_text text = Some data ->
  e_embedding data = Some v ->
  v <> [] ->
  entry_valid_at (clock s) data ->
  EmbeddingService.get_embedding env text task_type s = (Ok v, s).
Proof.
  intros Hfault Hdata Hemb Hne Hvalid.
  unfold EmbeddingService.get_embedding, EmbeddingService.get_embedding_opt,
    bind.
  rewrite firestore_get_embedding_spec, Hdata by exact Hfault.
  rewrite (proj2 (read_embedding_iff (clock s) data v)); [reflexivity |].
  split; [exact Hemb |]. split; [exact Hne | exact Hvalid].
Qed.

(** C2, amended: the embedding cache is keyed by the SHA-256 of the text
    as it is passed.  After a call of [get_embedding] that returned a
    non-empty vector, the cache holds that vector under the hash of the
    text, and a second call with the same text, made while the entry is
    valid and Firestore answers, returns the same vector from the cache:
    the state, and with it the log of the calls to the provider, does not
    change. *)
Theorem embedding_cache_keyed_by_text (env : Env)
        (text task_type task_type' : string) (s s1 : State) (v : ndarray)
        (dt : Z) :
  EmbeddingService.get_embedding env text task_type s = (Ok v, s1) ->
  v <> [] ->
  firestore_fault env OpGetEmbedding (advance dt s1) = None ->
  (forall data,
      embeddings_col s1 !! FirestoreClient._hash_text text = Some data ->
      entry_valid_at (clock s1 + dt) data) ->
  (exists data,
      embeddings_col s1 !! FirestoreClient._hash_text text = Some data
      /\ e_embedding data = Some v)
  /\ EmbeddingService.get_embedding env text task_type' (advance dt s1)
     = (Ok v, advance dt s1).
Proof.
  intros Hfirst Hne Hfault Hvalid.
  assert (Hstored :
            exists data,
              embeddings_col s1 !! FirestoreClient._hash_text text = Some data
              /\ e_embedding data = Some v).
  { revert Hfirst.
    unfold EmbeddingService.get_embedding,
      EmbeddingService.get_embedding_opt, bind.
    destruct (FirestoreClient.get_embedding env text s) as [[cached | e] s0]
      eqn:Hget; [| discriminate].
    apply firestore_get_embedding_inv in Hget as [-> Hhit].
    destruct cached as [cached |].
    - unfold ret. intros [= <- <-].
      destruct (Hhit cached eq_refl) as (data & Hdata & Hread).
      exists data. split; [exact Hdata |].
      apply read_embedding_iff in Hread. tauto.
    - destruct (VertexAIClient.embed_text env text task_type s)
        as [[embedding | e] sa] eqn:Hembed; [| discriminate].
      destruct (FirestoreClient.store_embedding env text embedding sa)
        as [[[] | e] sb] eqn:Hstore; [| discriminate].
      unfold ret. intros [= <- <-].
      apply store_embedding_inv in Hstore as [_ Hcol].
      eexists. rewrite Hcol, lookup_insert_eq. split; reflexivity. }
  split; [exact Hstored |].
  destruct Hstored as (data & Hdata & Hemb).
  apply (cached_embedding_served env text task_type' (advance dt s1) data v).
  - exact Hfault.
  - exact Hdata.
  - exact Hemb.
  - exact Hne.
  - apply Hvalid, Hdata.
Qed.

(** The hypotheses of [embedding_cache_keyed_by_text] at the text "Hello
    World", asked for twice, one minute apart. *)
Lemma embedding_cache_keyed_by_text_witness :
  EmbeddingService.get_embedding quiet_env "Hello World" "RETRIEVAL_QUERY"
    (advance (seconds 60) hello_state)
  = (Ok [1%Q; 0%Q], advance (seconds 60) hello_state)
  /\ provider_calls (advance (seconds 60) hello_state)
     = [("Hello World"%string, "RETRIEVAL_QUERY"%string)].
Proof.
  assert (Hfirst :
            EmbeddingService.get_embedding quiet_env "Hello World"
              "RETRIEVAL_QUERY" empty_state
            = (Ok [1%Q; 0%Q], hello_state))
    by (vm_compute; reflexivity).
  assert (Hvalid :
            forall data,
              embeddings_col hello_state
                !! FirestoreClient._hash_text "Hello World" = Some data ->
              entry_valid_at (clock hello_state + seconds 60) data).
  { intros data Hdata. vm_compute in Hdata. injection Hdata as <-.
    intros created_at [= <-]. vm_compute. discriminate. }
  split; [| vm_compute; reflexivity].
  apply (embedding_cache_keyed_by_text quiet_env "Hello World"
           "RETRIEVAL_QUERY" "RETRIEVAL_QUERY" empty_state hello_state
           [1%Q; 0%Q] (seconds 60) Hfirst);
    [discriminate | reflexivity | exact Hvalid].
Defined.

(** C2, as stated, fails: "Hello World" and "hello  world" have the same
    normalized text and different cache keys; the second call misses the
    entry stored by the first and the provider is called for each. *)
Lemma embedding_cache_raw_key_counterexample :
  normalize_text "Hello World" = normalize_text "hello  world"
  /\ FirestoreClient._hash_text "Hello World"
     <> FirestoreClient._hash_text "hello  world"
  /\ fst (FirestoreClient.get_embedding quiet_env "hello  world" hello_state)
     = Ok None
  /\ provider_calls
       (snd (EmbeddingService.get_embedding quiet_env "hello  world"
               "RETRIEVAL_QUERY" hello_state))
     = [("Hello World"%string, "RETRIEVAL_QUERY"%string);
        ("hello  world"%string, "RETRIEVAL_QUERY"%string)].
Proof.
  split; [vm_compute; reflexivity |].
  split; [vm_compute; discriminate |].
  split; vm_compute; reflexivity.
Qed.

(** ** The evaluation of a task *)

Lemma error_decision_ok (e : Exception) :
  exists d,
    LinearSemanticAgent.error_decision e = Ok d
    /\ well_formed d
    /\ decision d = CLARIFY
    /\ confidence d = 0.0%Q
    /\ reasoning d = ("Error during evaluation: " ++ e)%string
    /\ tags d = ["error"%string].
Proof.
  unfold LinearSemanticAgent.error_decision.
  eexists. split.
  { apply new_Decision_ok. unfold well_formed.
    cbn [confidence d_alignment_score]. lra. }
  split; [unfold well_formed; cbn [confidence d_alignment_score]; lra |].
  repeat split.
Qed.

Lemma decide_steps_well_formed (env : Env) (task : Task) (s s' : State)
      (d : Decision) :
  LinearSemanticAgent.decide_steps env task s = (Ok d, s') ->
  well_formed d.
Proof.
  unfold LinearSemanticAgent.decide_steps, bind, lift.
  destruct (LinearSemanticAgent.get_or_refresh_projects env false s)
    as [[projects | e] s1]; [| discriminate].
  destruct (EmbeddingService.embed_task env (task_description task) s1)
    as [[task_embedding | e] s2]; [| discriminate].
  destruct (LinearSemanticAgent._ensure_project_embeddings env projects s2)
    as [[projects' | e] s3]; [| discriminate].
  intros [= H _]. eapply evaluate_well_formed, H.
Qed.

Lemma evaluate_steps_well_formed (env : Env) (task : Task) (s s' : State)
      (d : Decision) :
  LinearSemanticAgent.evaluate_steps env task s = (Ok d, s') ->
  well_formed d.
Proof.
  unfold LinearSemanticAgent.evaluate_steps, bind.
  destruct (LinearSemanticAgent.decide_steps env task s) as [[d0 | e] s1]
    eqn:Hd; [| discriminate].
  destruct (FirestoreClient.store_decision env d0 _ _ _ s1)
    as [[[] | e] s2]; [| discriminate].
  unfold ret. intros [= <- _]. eapply decide_steps_well_formed, Hd.
Qed.

Lemma store_decision_raise (env : Env) (d : Decision)
      (task_id task_description source : string) (s s' : State)
      (e : Exception) :
  FirestoreClient.store_decision env d task_id task_description source s
  = (Raise e, s') ->
  s' = s /\ firestore_fault env OpStoreDecision s = Some e.
Proof.
  unfold FirestoreClient.store_decision, bind, now, firestore, modify.
  destruct (firestore_fault env OpStoreDecision s);
    [intros [= <- <-]; auto | discriminate].
Qed.

(** C1: [evaluate_task] returns a well-formed Decision in every state and
    with every behaviour of the collaborators, and raises nothing.  When
    a step inside the [try] raises - the refresh of the catalog, the
    embedding of the task or of a project, the reasoning engine, the
    write of the audit record - the Decision is Clarify with confidence
    0.0, the message of the exception in its reasoning, and the tag
    ["error"]. *)
Theorem evaluate_task_always_decides (env : Env) (task : Task) (s : State) :
  (exists d s',
      LinearSemanticAgent.evaluate_task env task s = (Ok d, s')
      /\ well_formed d)
  /\ (forall e s',
        LinearSemanticAgent.evaluate_steps env task s = (Raise e, s') ->
        exists d,
          LinearSemanticAgent.evaluate_task env task s = (Ok d, s')
          /\ decision d = CLARIFY
          /\ confidence d = 0.0%Q
          /\ reasoning d = ("Error during evaluation: " ++ e)%string
          /\ tags d = ["error"%string])
  /\ (forall e s1,
        LinearSemanticAgent.get_or_refresh_projects env false s
        = (Raise e, s1) ->
        LinearSemanticAgent.evaluate_steps env task s = (Raise e, s1))
  /\ (forall projects s1 e s2,
        LinearSemanticAgent.get_or_refresh_projects env false s
        = (Ok projects, s1) ->
        EmbeddingService.embed_task env (task_description task) s1
        = (Raise e, s2) ->
        LinearSemanticAgent.evaluate_steps env task s = (Raise e, s2))
  /\ (forall projects s1 task_embedding s2,
        LinearSemanticAgent.get_or_refresh_projects env false s
        = (Ok projects, s1) ->
        EmbeddingService.embed_task env (task_description task) s1
        = (Ok task_embedding, s2) ->
        (forall e s3,
            LinearSemanticAgent._ensure_project_embeddings env projects s2
            = (Raise e, s3) ->
            LinearSemanticAgent.evaluate_steps env task s = (Raise e, s3))
        /\ (forall projects' s3,
              LinearSemanticAgent._ensure_project_embeddings env projects s2
              = (Ok projects', s3) ->
              (forall e,
                  ReasoningEngine.evaluate (np_linalg_norm env) task
                    task_embedding projects' = Raise e ->
                  LinearSemanticAgent.evaluate_steps env task s
                  = (Raise e, s3))
              /\ (forall d e s4,
                    ReasoningEngine.evaluate (np_linalg_norm env) task
                      task_embedding projects' = Ok d ->
                    FirestoreClient.store_decision env d (task_id task)
                      (task_description task) (source task) s3
                    = (Raise e, s4) ->
                    LinearSemanticAgent.evaluate_steps env task s
                    = (Raise e, s4)))).
Proof.
  split; [| split].
  - unfold LinearSemanticAgent.evaluate_task.
    destruct (LinearSemanticAgent.evaluate_steps env task s)
      as [[d | e] s'] eqn:Hsteps.
    + exists d, s'. split; [reflexivity |].
      eapply evaluate_steps_well_formed, Hsteps.
    + destruct (error_decision_ok e) as (d & Hd & Hwf & _).
      exists d, s'. rewrite Hd. auto.
  - intros e s' Hsteps. unfold LinearSemanticAgent.evaluate_task.
    rewrite Hsteps.
    destruct (error_decision_ok e) as (d & Hd & _ & Hfields).
    exists d. rewrite Hd. auto.
  - unfold LinearSemanticAgent.evaluate_steps,
      LinearSemanticAgent.decide_steps, bind, lift.
    split; [| split].
    + intros e s1 ->. reflexivity.
    + intros projects s1 e s2 -> ->. reflexivity.
    + intros projects s1 task_embedding s2 -> ->. split.
      * intros e s3 ->. reflexivity.
      * intros projects' s3 ->. split.
        -- intros e ->. reflexivity.
        -- intros d e s4 -> ->. reflexivity.
Qed.

(** The hypotheses of [evaluate_task_always_decides] when the catalog
    source and the embedding model both time out. *)
Lemma evaluate_task_always_decides_witness :
  exists d s',
    LinearSemanticAgent.evaluate_task timeout_env curtain_task empty_state
    = (Ok d, s')
    /\ decision d = CLARIFY
    /\ confidence d = 0.0%Q
    /\ reasoning d = "Error during evaluation: Request failed: timeout"%string
    /\ tags d = ["error"%string].
Proof.
  destruct (LinearSemanticAgent.evaluate_steps timeout_env curtain_task
              empty_state) as [[d0 | e] s'] eqn:Hsteps;
    [vm_compute in Hsteps; discriminate |].
  destruct (evaluate_task_always_decides timeout_env curtain_task empty_state)
    as (_ & Herr & _).
  destruct (Herr e s' Hsteps) as (d & Hd & Htype & Hconf & Hreason & Htags).
  exists d, s'. split; [exact Hd |]. split; [exact Htype |].
  split; [exact Hconf |]. split; [| exact Htags].
  rewrite Hreason. vm_compute in Hsteps. injection Hsteps as <- _.
  reflexivity.
Defined.

(** C9, amended: when the engine has computed a Decision and the write of
    the audit record fails, [evaluate_task] does not return that
    Decision: the handler of the [try] returns the error Decision, with
    the message of the failed write; nothing is written.  The computed
    Decision is returned when the write succeeds. *)
Theorem audit_failure_gives_error_decision (env : Env) (task : Task)
        (s s4 : State) (d : Decision) :
  LinearSemanticAgent.decide_steps env task s = (Ok d, s4) ->
  (forall s5,
      FirestoreClient.store_decision env d (task_id task)
        (task_description task) (source task) s4 = (Ok tt, s5) ->
      LinearSemanticAgent.evaluate_task env task s = (Ok d, s5))
  /\ (forall e s5,
        FirestoreClient.store_decision env d (task_id task)
          (task_description task) (source task) s4 = (Raise e, s5) ->
        s5 = s4
        /\ exists d',
             LinearSemanticAgent.evaluate_task env task s = (Ok d', s4)
             /\ decision d' = CLARIFY
             /\ confidence d' = 0.0%Q
             /\ reasoning d' = ("Error during evaluation: " ++ e)%string
             /\ tags d' = ["error"%string]).
Proof.
  intros Hdecide. split.
  - intros s5 Hstore.
    unfold LinearSemanticAgent.evaluate_task,
      LinearSemanticAgent.evaluate_steps, bind.
    rewrite Hdecide, Hstore. reflexivity.
  - intros e s5 Hstore.
    pose proof (store_decision_raise _ _ _ _ _ _ _ _ Hstore) as [-> _].
    split; [reflexivity |].
    destruct (error_decision_ok e) as (d' & Hd' & _ & Hfields).
    exists d'. split; [| exact Hfields].
    unfold LinearSemanticAgent.evaluate_task,
      LinearSemanticAgent.evaluate_steps, bind.
    rewrite Hdecide, Hstore. exact (f_equal (fun r => (r, s4)) Hd').
Qed.

(** The hypotheses of [audit_failure_gives_error_decision] at the
    household task, when the write of the audit record fails. *)
Lemma audit_failure_gives_error_decision_witness :
  exists d',
    fst (LinearSemanticAgent.evaluate_task audit_down_env curtain_task
           empty_state) = Ok d'
    /\ decision d' = CLARIFY
    /\ reasoning d'
       = "Error during evaluation: 503 Service Unavailable"%string.
Proof.
  destruct (LinearSemanticAgent.decide_steps audit_down_env curtain_task
              empty_state) as [[d | e] s4] eqn:Hdecide;
    [| vm_compute in Hdecide; discriminate].
  destruct (audit_failure_gives_error_decision audit_down_env curtain_task
              empty_state s4 d Hdecide) as [_ Hfail].
  destruct (Hfail "503 Service Unavailable"%string s4)
    as (_ & d' & Hd' & Htype & _ & Hreason & _).
  { unfold FirestoreClient.store_decision, bind, now, firestore.
    reflexivity. }
  exists d'. rewrite Hd'. auto.
Defined.

(** C9, as stated, fails: the engine decides Filter for the household
    task, the write of the audit record fails, and [evaluate_task] returns
    the Clarify decision of the error handler instead. *)
Lemma audit_failure_counterexample :
  exists d s4,
    LinearSemanticAgent.decide_steps audit_down_env curtain_task empty_state
    = (Ok d, s4)
    /\ decision d = FILTER
    /\ fst (FirestoreClient.store_decision audit_down_env d
              (task_id curtain_task) (task_description curtain_task)
              (source curtain_task) s4)
       = Raise "503 Service Unavailable"
    /\ exists d',
         fst (LinearSemanticAgent.evaluate_task audit_down_env curtain_task
                empty_state) = Ok d'
         /\ decision d' = CLARIFY
         /\ tags d' = ["error"%string]
         /\ d' <> d.
Proof.
  eexists. eexists. split; [vm_compute; reflexivity |].
  split; [reflexivity |]. split; [reflexivity |].
  eexists. split; [vm_compute; reflexivity |].
  split; [reflexivity |]. split; [reflexivity |].
  intros H. discriminate H.
Qed.

(** ** More on text *)

Lemma isspace_lower (c : ascii) : isspace (ascii_lower c) = isspace c.
Proof.
  destruct c as [[] [] [] [] [] [] [] []]; reflexivity.
Qed.

Lemma lower_length (s : string) : String.length (lower s) = String.length s.
Proof.
  induction s as [| c s IH]; cbn [lower String.length]; congruence.
Qed.

Lemma str_eqb_empty (s : string) :
  str_eqb s EmptyString = true <-> s = EmptyString.
Proof. unfold str_eqb. apply String.eqb_eq. Qed.

Lemma str_eqb_empty_lower (s : string) :
  str_eqb (lower s) EmptyString = str_eqb s EmptyString.
Proof. destruct s; reflexivity. Qed.

Lemma lstrip_lower (s : string) : lstrip (lower s) = lower (lstrip s).
Proof.
  induction s as [| c s IH]; cbn [lower lstrip]; [reflexivity |].
  rewrite isspace_lower. destruct (isspace c); [exact IH | reflexivity].
Qed.

Lemma rstrip_lower (s : string) : rstrip (lower s) = lower (rstrip s).
Proof.
  induction s as [| c s IH]; cbn [lower rstrip]; [reflexivity |].
  rewrite isspace_lower, IH, str_eqb_empty_lower.
  destruct (isspace c && str_eqb (rstrip s) EmptyString); reflexivity.
Qed.

Lemma strip_lower (s : string) : strip (lower s) = lower (strip s).
Proof. unfold strip. rewrite lstrip_lower, rstrip_lower. reflexivity. Qed.

Lemma collapse_lower (b : bool) (s : string) :
  collapse_ws b (lower s) = lower (collapse_ws b s).
Proof.
  revert b. induction s as [| c s IH]; intros b; cbn [lower collapse_ws];
    [reflexivity |].
  rewrite isspace_lower. destruct (isspace c).
  - destruct b; cbn [lower]; rewrite IH; reflexivity.
  - cbn [lower]. rewrite IH. reflexivity.
Qed.

Lemma rstrip_empty_iff (s : string) :
  rstrip s = EmptyString <-> all_space s = true.
Proof.
  induction s as [| c s IH]; cbn [rstrip all_space]; [tauto |].
  destruct (isspace c); cbn [andb].
  - destruct (str_eqb (rstrip s) EmptyString) eqn:E.
    + apply str_eqb_empty in E. tauto.
    + split; [discriminate |]. intros H. apply IH in H.
      apply str_eqb_empty in H. congruence.
  - split; discriminate.
Qed.

Lemma lstrip_empty_iff (s : string) :
  lstrip s = EmptyString <-> all_space s = true.
Proof.
  induction s as [| c s IH]; cbn [lstrip all_space]; [tauto |].
  destruct (isspace c); cbn [andb]; [exact IH |].
  split; discriminate.
Qed.

Lemma lstrip_idem (s : string) : lstrip (lstrip s) = lstrip s.
Proof.
  induction s as [| c s IH]; cbn [lstrip]; [reflexivity |].
  destruct (isspace c) eqn:E; [exact IH |].
  cbn [lstrip]. rewrite E. reflexivity.
Qed.

Lemma rstrip_idem (s : string) : rstrip (rstrip s) = rstrip s.
Proof.
  induction s as [| c s IH]; cbn [rstrip]; [reflexivity |].
  destruct (isspace c && str_eqb (rstrip s) EmptyString) eqn:E;
    [reflexivity |].
  cbn [rstrip]. rewrite IH, E. reflexivity.
Qed.

Lemma lstrip_rstrip (s : string) : lstrip (rstrip s) = rstrip (lstrip s).
Proof.
  induction s as [| c s IH]; cbn [rstrip lstrip]; [reflexivity |].
  destruct (isspace c) eqn:Ec; cbn [andb].
  - destruct (str_eqb (rstrip s) EmptyString) eqn:E.
    + apply str_eqb_empty in E.
      assert (Hl : lstrip s = EmptyString)
        by (apply lstrip_empty_iff, rstrip_empty_iff, E).
      rewrite Hl. reflexivity.
    + cbn [lstrip]. rewrite Ec. exact IH.
  - cbn [lstrip rstrip]. rewrite Ec. reflexivity.
Qed.

Lemma strip_idem (s : string) : strip (strip s) = strip s.
Proof.
  unfold strip.
  rewrite lstrip_rstrip, lstrip_idem, rstrip_idem. reflexivity.
Qed.

Lemma lstrip_collapse (b : bool) (s : string) :
  lstrip (collapse_ws b s) = collapse_ws false (lstrip s).
Proof.
  revert b. induction s as [| c s IH]; intros b; cbn [collapse_ws lstrip];
    [reflexivity |].
  destruct (isspace c) eqn:Ec.
  - destruct b; [apply IH |]. cbn [lstrip]. apply IH.
  - cbn [lstrip collapse_ws]. rewrite Ec. reflexivity.
Qed.

Lemma collapse_length (b : bool) (s : string) :
  (String.length (collapse_ws b s) <= String.length s)%nat.
Proof.
  revert b. induction s as [| c s IH]; intros b;
    cbn [collapse_ws String.length]; [lia |].
  pose proof (IH true). pose proof (IH false).
  destruct (isspace c); [destruct b |]; cbn [String.length]; lia.
Qed.

Lemma collapse_idem (b : bool) (s : string) :
  collapse_ws b (collapse_ws b s) = collapse_ws b s.
Proof.
  revert b. induction s as [| c s IH]; intros b; cbn [collapse_ws];
    [reflexivity |].
  destruct (isspace c) eqn:Ec.
  - destruct b; [apply IH |].
    cbn [collapse_ws]. change (isspace " ") with true. cbv iota.
    rewrite IH. reflexivity.
  - cbn [collapse_ws]. rewrite Ec, IH. reflexivity.
Qed.

Lemma collapse_fixed_rstrip (b : bool) (s : string) :
  collapse_ws b s = s -> collapse_ws b (rstrip s) = rstrip s.
Proof.
  revert b. induction s as [| c s IH]; intros b; cbn [collapse_ws rstrip];
    [reflexivity |].
  destruct (isspace c) eqn:Ec; cbn [andb].
  - destruct b.
    + intros H. pose proof (collapse_length true s) as Hlen.
      rewrite H in Hlen. cbn [String.length] in Hlen. lia.
    + intros [= <- H].
      destruct (str_eqb (rstrip s) EmptyString); [reflexivity |].
      cbn [collapse_ws]. change (isspace " ") with true. cbv iota.
      rewrite (IH true H). reflexivity.
  - intros [= H]. cbn [collapse_ws]. rewrite Ec, (IH false H). reflexivity.
Qed.

(** The three steps of [normalize_text] leave its result as it is. *)
Lemma normalize_fixed (text : string) :
  let n := normalize_text text in
  lower n = n /\ collapse_ws false n = n /\ strip n = n.
Proof.
  unfold normalize_text.
  destruct (str_eqb text EmptyString); [repeat split |].
  cbv zeta. split; [| split].
  - rewrite <- strip_lower, <- collapse_lower, lower_idem. reflexivity.
  - unfold strip. rewrite lstrip_collapse.
    apply collapse_fixed_rstrip, collapse_idem.
  - apply strip_idem.
Qed.

(** X1: [normalize_text] is idempotent, and its result is lower case, has
    its whitespace collapsed and is stripped; the empty text gives the
    empty text. *)
Theorem normalize_text_idempotent (text : string) :
  normalize_text (normalize_text text) = normalize_text text
  /\ lower (normalize_text text) = normalize_text text
  /\ collapse_ws false (normalize_text text) = normalize_text text
  /\ strip (normalize_text text) = normalize_text text
  /\ normalize_text EmptyString = EmptyString.
Proof.
  destruct (normalize_fixed text) as (Hl & Hc & Hs).
  split; [| auto].
  unfold normalize_text at 1.
  destruct (str_eqb (normalize_text text) EmptyString) eqn:E.
  - apply str_eqb_empty in E. congruence.
  - rewrite Hl, Hc, Hs. reflexivity.
Qed.

Lemma string_app_cons (c : ascii) (p q : string) :
  (String c p ++ q)%string = String c (p ++ q).
Proof. reflexivity. Qed.

Lemma string_app_nil (q : string) : (EmptyString ++ q)%string = q.
Proof. reflexivity. Qed.

Lemma rstrip_app_space (p q : string) :
  all_space q = true -> rstrip (p ++ q) = rstrip p.
Proof.
  intros Hq. induction p as [| c p IH];
    rewrite ?string_app_cons, ?string_app_nil; cbn [rstrip].
  - apply rstrip_empty_iff, Hq.
  - rewrite IH. reflexivity.
Qed.

Lemma no_space_rstrip (s : string) : no_space s = true -> rstrip s = s.
Proof.
  induction s as [| c s IH]; cbn [no_space rstrip]; [reflexivity |].
  intros H. apply andb_prop in H as [Hc Hs].
  apply negb_true_iff in Hc. rewrite Hc, (IH Hs). reflexivity.
Qed.

Lemma drop_prefix_app (w s rest : string) :
  drop_prefix w s = Some rest -> s = (w ++ rest)%string.
Proof.
  revert s. induction w as [| a w IH]; intros s;
    rewrite ?string_app_cons, ?string_app_nil; cbn [drop_prefix].
  - intros [= <-]. reflexivity.
  - destruct s as [| b s]; [discriminate |].
    destruct (Ascii.eqb_spec a b) as [<- | Hne]; [| discriminate].
    intros H. rewrite (IH s H). reflexivity.
Qed.

Lemma collapse_rstrip_empty (b : bool) (s : string) :
  rstrip (collapse_ws b s) = EmptyString -> rstrip s = EmptyString.
Proof.
  revert b. induction s as [| c s IH]; intros b; cbn [collapse_ws rstrip];
    [reflexivity |].
  destruct (isspace c) eqn:Ec; cbn [andb].
  - destruct b.
    + intros H. rewrite (IH true H). reflexivity.
    + cbn [rstrip]. change (isspace " ") with true. cbn [andb].
      destruct (str_eqb (rstrip (collapse_ws true s)) EmptyString) eqn:E;
        [| discriminate].
      apply str_eqb_empty in E. rewrite (IH true E). reflexivity.
  - cbn [rstrip]. rewrite Ec. cbn [andb]. discriminate.
Qed.

(** Where the collapsed text has no whitespace left, nothing was
    collapsed. *)
Lemma collapse_no_space (s : string) :
  no_space (rstrip (collapse_ws false s)) = true ->
  rstrip (collapse_ws false s) = rstrip s.
Proof.
  induction s as [| c s IH]; cbn [collapse_ws rstrip]; [reflexivity |].
  destruct (isspace c) eqn:Ec; cbn [andb].
  - cbn [rstrip]. change (isspace " ") with true. cbn [andb].
    destruct (str_eqb (rstrip (collapse_ws true s)) EmptyString) eqn:E.
    + apply str_eqb_empty in E. apply collapse_rstrip_empty in E.
      rewrite E. reflexivity.
    + cbn [no_space]. change (isspace " ") with true. discriminate.
  - cbn [rstrip]. rewrite Ec. cbn [andb no_space]. rewrite Ec. cbn [negb andb].
    intros H. rewrite (IH H). reflexivity.
Qed.

Lemma normalize_no_space_length (text : string) :
  no_space (normalize_text text) = true ->
  String.length (normalize_text text) = String.length (strip text).
Proof.
  unfold normalize_text.
  destruct (str_eqb text EmptyString) eqn:E.
  - apply str_eqb_empty in E. subst text. reflexivity.
  - unfold strip at 1 2. rewrite lstrip_collapse. intros H.
    rewrite (collapse_no_space _ H).
    change (rstrip (lstrip (lower text))) with (strip (lower text)).
    rewrite strip_lower. apply lower_length.
Qed.

Lemma vague_word_shape (w n rest : string) :
  rstrip n = n ->
  no_space w = true ->
  drop_prefix w n = Some rest ->
  all_space rest
  || match rest with
     | String c rest' => Ascii.eqb c "s" && all_space rest'
     | EmptyString => false
     end = true ->
  n = w \/ n = (w ++ "s")%string.
Proof.
  intros Hn Hw Hdrop Hrest. apply drop_prefix_app in Hdrop.
  apply orb_prop in Hrest as [Hrest | Hrest].
  - left. rewrite <- Hn, Hdrop, rstrip_app_space by exact Hrest.
    apply no_space_rstrip, Hw.
  - right. destruct rest as [| c rest']; [discriminate |].
    apply andb_prop in Hrest as [Hc Hrest].
    apply Ascii.eqb_eq in Hc. subst c.
    assert (Happ : (w ++ String "s" rest')%string
                   = ((w ++ "s") ++ rest')%string).
    { clear. induction w as [| a w IH]; [reflexivity |].
      rewrite !string_app_cons. f_equal. exact IH. }
    rewrite <- Hn, Hdrop, Happ, rstrip_app_space by exact Hrest.
    apply no_space_rstrip.
    clear - Hw. induction w as [| a w IH];
      rewrite ?string_app_cons, ?string_app_nil; cbn [no_space] in *;
      [reflexivity |].
    apply andb_prop in Hw as [Ha Hw]. rewrite Ha, (IH Hw). reflexivity.
Qed.

Lemma vague_match_short (n : string) :
  rstrip n = n ->
  match_vague_word n || match_vague_title n || all_space n = true ->
  no_space n = true /\ (String.length n <= 8)%nat.
Proof.
  intros Hn H. apply orb_prop in H as [H | H];
    [apply orb_prop in H as [H | H] |].
  - unfold match_vague_word in H. apply existsb_exists in H as (w & Hw & H).
    destruct (drop_prefix w n) as [rest |] eqn:Hdrop; [| discriminate].
    assert (Hshape : n = w \/ n = (w ++ "s")%string).
    { eapply vague_word_shape; [exact Hn | | exact Hdrop | exact H].
      cbn [In] in Hw.
      repeat destruct Hw as [<- | Hw]; try reflexivity. contradiction. }
    cbn [In] in Hw.
    repeat destruct Hw as [<- | Hw]; try contradiction;
      destruct Hshape as [-> | ->]; split; (reflexivity || (apply Nat.leb_le; reflexivity)).
  - unfold match_vague_title in H. apply existsb_exists in H as (w & Hw & H).
    destruct (drop_prefix w n) as [rest |] eqn:Hdrop; [| discriminate].
    apply drop_prefix_app in Hdrop.
    assert (Hrest : all_space rest = true).
    { apply orb_prop in H as [H | H]; apply String.eqb_eq in H; subst rest;
        reflexivity. }
    assert (Hw' : no_space w = true).
    { cbn [In] in Hw.
      repeat destruct Hw as [<- | Hw]; try reflexivity. contradiction. }
    assert (Hnw : n = w).
    { rewrite <- Hn, Hdrop, rstrip_app_space by exact Hrest.
      apply no_space_rstrip, Hw'. }
    clear Hdrop H Hrest. subst n. cbn [In] in Hw.
    repeat destruct Hw as [<- | Hw]; try contradiction;
      split; (reflexivity || (apply Nat.leb_le; reflexivity)).
  - apply rstrip_empty_iff in H. rewrite Hn in H. subst n.
    split; [reflexivity | apply Nat.leb_le; reflexivity].
Qed.

(** A text whose stripped form has 10 characters or more matches none of
    the three patterns of [is_empty_or_vague]. *)
Lemma vague_patterns_dead (text : string) :
  (10 <= String.length (strip text))%nat ->
  match_vague_word (normalize_text text)
  || match_vague_title (normalize_text text)
  || all_space (normalize_text text) = false.
Proof.
  intros E.
  destruct (match_vague_word (normalize_text text)
            || match_vague_title (normalize_text text)
            || all_space (normalize_text text)) eqn:Hm; [| reflexivity].
  destruct (normalize_fixed text) as (_ & _ & Hs). cbv zeta in Hs.
  assert (Hr : rstrip (normalize_text text) = normalize_text text).
  { rewrite <- Hs at 1. unfold strip. rewrite rstrip_idem. exact Hs. }
  apply (vague_match_short _ Hr) in Hm as [Hns Hlen].
  rewrite (normalize_no_space_length _ Hns) in Hlen. lia.
Qed.

(** X2: the three patterns of [is_empty_or_vague] never decide: a text is
    vague exactly when it is empty or its stripped form has fewer than 10
    characters ("Fix stuff" is vague by its length, not by a pattern). *)
Theorem is_empty_or_vague_is_short (text : string) :
  is_empty_or_vague text
  = str_eqb text EmptyString || (String.length (strip text) <? 10)%nat.
Proof.
  unfold is_empty_or_vague.
  destruct (str_eqb text EmptyString || (String.length (strip text) <? 10)%nat)
    eqn:E; [reflexivity |].
  apply orb_false_elim in E as [_ E]. apply Nat.ltb_ge in E.
  apply vague_patterns_dead, E.
Qed.

(** X3: the branch of [clarity_score] that returns 0.3 for a vague
    description is never taken: the score is 0.2 when the stripped
    description has fewer than 10 characters, and the clamped additive
    score otherwise; it lies in [0, 1]. *)
Theorem clarity_score_never_vague (task : Task) :
  let description := strip (task_description task) in
  ReasoningEngine.clarity_score task
  = (if (String.length description <? 10)%nat then 0.2%Q
     else py_max 0 (py_min 1 (clarity_base description)))
  /\ (0 <= ReasoningEngine.clarity_score task <= 1)%Q.
Proof.
  cbv zeta.
  assert (Heq :
    ReasoningEngine.clarity_score task
    = (if (String.length (strip (task_description task)) <? 10)%nat
       then 0.2%Q
       else py_max 0 (py_min 1 (clarity_base (strip (task_description task)))))).
  { unfold ReasoningEngine.clarity_score, MIN_DESCRIPTION_LENGTH. cbv zeta.
    destruct (String.length (strip (task_description task)) <? 10)%nat eqn:E;
      [reflexivity |].
    unfold is_empty_or_vague. rewrite strip_idem, E.
    destruct (str_eqb (strip (task_description task)) EmptyString) eqn:E0.
    { apply str_eqb_empty in E0. rewrite E0 in E. discriminate. }
    cbn [orb]. rewrite vague_patterns_dead; [reflexivity |].
    rewrite strip_idem. apply Nat.ltb_ge, E. }
  split; [exact Heq |].
  rewrite Heq.
  destruct (String.length (strip (task_description task)) <? 10)%nat;
    [lra | apply py_clamp_bounds].
Qed.

(** ** Keywords *)

Lemma all_word_snoc (cur : string) (c : ascii) :
  all_word cur = true -> isword c = true ->
  all_word (cur ++ String c EmptyString) = true.
Proof.
  intros Hcur Hc. induction cur as [| a cur IH];
    rewrite ?string_app_cons, ?string_app_nil; cbn [all_word] in *.
  - rewrite Hc. reflexivity.
  - apply andb_prop in Hcur as [Ha Hcur]. rewrite Ha, (IH Hcur). reflexivity.
Qed.

Lemma lower_snoc (cur : string) (c : ascii) :
  lower (cur ++ String c EmptyString)
  = (lower cur ++ String (ascii_lower c) EmptyString)%string.
Proof.
  induction cur as [| a cur IH];
    rewrite ?string_app_cons, ?string_app_nil; cbn [lower]; [reflexivity |].
  rewrite IH, string_app_cons. reflexivity.
Qed.

Lemma findall_words_word (s cur : string) :
  all_word cur = true ->
  Forall (fun w => all_word w = true) (findall_words cur s).
Proof.
  revert cur. induction s as [| c s IH]; intros cur Hcur;
    cbn [findall_words].
  - destruct (str_eqb cur EmptyString); repeat constructor. exact Hcur.
  - destruct (isword c) eqn:Hc.
    + apply IH, all_word_snoc; assumption.
    + destruct (str_eqb cur EmptyString); [apply IH; reflexivity |].
      constructor; [exact Hcur | apply IH; reflexivity].
Qed.

Lemma findall_words_lower (s cur : string) :
  lower cur = cur -> lower s = s ->
  Forall (fun w => lower w = w) (findall_words cur s).
Proof.
  revert cur. induction s as [| c s IH]; intros cur Hcur Hs;
    cbn [findall_words].
  - destruct (str_eqb cur EmptyString); repeat constructor. exact Hcur.
  - cbn [lower] in Hs. injection Hs as Hc Hs.
    destruct (isword c).
    + apply IH; [| exact Hs]. rewrite lower_snoc, Hcur, Hc. reflexivity.
    + destruct (str_eqb cur EmptyString); [apply IH; auto |].
      constructor; [exact Hcur | apply IH; auto].
Qed.

(** X4: every keyword that [extract_keywords] returns has [min_length]
    characters or more, is no stop word, is made of word characters and
    is lower case; the empty text has no keyword. *)
Theorem extract_keywords_wellformed (text : string) (min_length : nat) :
  Forall (fun w =>
            (min_length <= String.length w)%nat
            /\ str_mem w stop_words = false
            /\ all_word w = true
            /\ lower w = w)
         (extract_keywords_min text min_length)
  /\ extract_keywords_min EmptyString min_length = [].
Proof.
  split; [| reflexivity].
  unfold extract_keywords_min.
  destruct (str_eqb text EmptyString); [constructor |].
  cbv zeta. apply List.Forall_forall. intros w Hw.
  apply filter_In in Hw as [Hin Hkeep].
  apply andb_prop in Hkeep as [Hlen Hstop].
  apply Nat.leb_le in Hlen. apply negb_true_iff in Hstop.
  split; [exact Hlen |]. split; [exact Hstop |].
  split.
  - pose proof (findall_words_word (normalize_text text) EmptyString eq_refl)
      as H.
    rewrite List.Forall_forall in H. apply H, Hin.
  - destruct (normalize_fixed text) as (Hl & _).
    pose proof (findall_words_lower (normalize_text text) EmptyString eq_refl
                  Hl) as H.
    rewrite List.Forall_forall in H. apply H, Hin.
Qed.

(** ** Truncation *)

Lemma substring_length (n : nat) (s : string) :
  String.length (substring 0 n s) = Nat.min n (String.length s).
Proof.
  revert s. induction n as [| n IH]; intros s.
  - destruct s; reflexivity.
  - destruct s as [| c s]; [reflexivity |].
    cbn [substring String.length]. rewrite IH. reflexivity.
Qed.

Lemma append_length (a b : string) :
  String.length (a ++ b) = (String.length a + String.length b)%nat.
Proof.
  induction a as [| c a IH]; rewrite ?string_app_cons, ?string_app_nil;
    cbn [String.length]; [reflexivity |].
  rewrite IH. reflexivity.
Qed.

(** X5: for a maximal length of 3 or more, [truncate_text] returns a text
    of at most that length: the text itself when it is short enough, else
    its first [max_length - 3] characters followed by three dots. *)
Theorem truncate_text_bound (text : string) (max_length : Z) :
  (3 <= max_length)%Z ->
  (Z.of_nat (String.length (truncate_text_to text max_length))
   <= max_length)%Z
  /\ ((Z.of_nat (String.length text) <= max_length)%Z ->
      truncate_text_to text max_length = text)
  /\ ((max_length < Z.of_nat (String.length text))%Z ->
      truncate_text_to text max_length
      = (substring 0 (Z.to_nat (max_length - 3)) text ++ "...")%string).
Proof.
  intros Hmax. unfold truncate_text_to.
  destruct (str_eqb text EmptyString) eqn:E.
  { apply str_eqb_empty in E. subst text.
    split; [cbn [String.length]; lia |].
    split; [reflexivity |]. cbn [String.length]. lia. }
  destruct (Z.leb_spec (Z.of_nat (String.length text)) max_length)
    as [Hle | Hgt].
  { split; [exact Hle |]. split; [reflexivity | lia]. }
  assert (Hslice : slice_to text (max_length - 3)
                   = substring 0 (Z.to_nat (max_length - 3)) text).
  { unfold slice_to. cbv zeta.
    destruct (Z.ltb_spec (max_length - 3) 0) as [Hneg | _]; [lia |].
    rewrite Z.min_l by lia. reflexivity. }
  rewrite Hslice.
  split; [| split; [lia | reflexivity]].
  rewrite append_length, substring_length.
  change (String.length "...") with 3%nat. lia.
Qed.

(** The hypothesis of [truncate_text_bound] at a text of 26 characters
    cut to 10. *)
Lemma truncate_text_bound_witness :
  truncate_text_to "abcdefghijklmnopqrstuvwxyz" 10 = "abcdefg..."%string
  /\ (Z.of_nat (String.length
                  (truncate_text_to "abcdefghijklmnopqrstuvwxyz" 10))
      <= 10)%Z.
Proof.
  assert (H : (3 <= 10)%Z) by lia.
  destruct (truncate_text_bound "abcdefghijklmnopqrstuvwxyz" 10 H)
    as (Hlen & _ & Hcut).
  split; [| exact Hlen].
  rewrite Hcut; [reflexivity |]. cbn [String.length]. lia.
Defined.

(** ** Matching against the lowered description *)

Lemma prefix_lower_fixed (kw text : string) :
  String.prefix kw (lower text) = true -> lower kw = kw.
Proof.
  revert text. induction kw as [| a kw IH]; intros text; [reflexivity |].
  destruct text as [| b text]; cbn [lower String.prefix]; [discriminate |].
  destruct (ascii_dec a (ascii_lower b)) as [-> | Hne]; [| discriminate].
  intros H. rewrite ascii_lower_idem, (IH text H). reflexivity.
Qed.

Lemma str_in_lower_fixed (kw text : string) :
  str_in kw (lower text) = true -> lower kw = kw.
Proof.
  induction text as [| b text IH]; cbn [lower str_in].
  - rewrite orb_false_r. apply (prefix_lower_fixed kw EmptyString).
  - intros H. apply orb_prop in H as [H | H]; [| exact (IH H)].
    apply (prefix_lower_fixed kw (String b text)), H.
Qed.

Lemma filter_length_lt {A} (f : A -> bool) (x : A) (l : list A) :
  In x l -> f x = false -> (length l > length (List.filter f l))%nat.
Proof.
  intros Hin Hx. induction l as [| y l IH]; [destruct Hin |].
  cbn [List.filter length].
  pose proof (filter_length_le f l) as Hle.
  destruct Hin as [-> | Hin].
  - rewrite Hx. lia.
  - specialize (IH Hin). destruct (f y); cbn [length]; lia.
Qed.

(** X6: a keyword that holds an upper-case letter never occurs in a
    lowered description.  [filter_score] lowers the description and not
    the keywords, so the keyword "saaS" of MAPACHE_KEYWORDS never counts:
    27 of the 28 keywords can match. *)
Theorem uppercase_keyword_never_matches (kw description : string) :
  (lower kw <> kw -> str_in kw (lower description) = false)
  /\ In "saaS"%string MapacheContext.MAPACHE_KEYWORDS
  /\ str_in "saaS" (lower description) = false
  /\ (count_in MapacheContext.MAPACHE_KEYWORDS (lower description) <= 27)%nat.
Proof.
  assert (Hgen : forall k, lower k <> k ->
                           str_in k (lower description) = false).
  { intros k Hk. destruct (str_in k (lower description)) eqn:E;
      [| reflexivity].
    apply str_in_lower_fixed in E. contradiction. }
  assert (Hsaas : str_in "saaS" (lower description) = false)
    by (apply Hgen; discriminate).
  split; [apply Hgen |].
  split; [unfold MapacheContext.MAPACHE_KEYWORDS; cbn [In]; tauto |].
  split; [exact Hsaas |].
  unfold count_in.
  pose proof (filter_length_lt (fun kw0 => str_in kw0 (lower description))
                "saaS"%string MapacheContext.MAPACHE_KEYWORDS) as Hlt.
  change (length MapacheContext.MAPACHE_KEYWORDS) with 28%nat in Hlt.
  assert (28 > length (List.filter
                         (fun kw0 => str_in kw0 (lower description))
                         MapacheContext.MAPACHE_KEYWORDS))%nat; [| lia].
  apply Hlt; [unfold MapacheContext.MAPACHE_KEYWORDS; cbn [In]; tauto |].
  exact Hsaas.
Qed.

(** The hypothesis of [uppercase_keyword_never_matches] at the keyword
    "saaS" and a description that holds it as written. *)
Lemma uppercase_keyword_never_matches_witness :
  lower "saaS" <> "saaS"%string
  /\ str_in "saaS" (lower "Build a saaS dashboard") = false.
Proof.
  assert (H : lower "saaS" <> "saaS"%string) by discriminate.
  split; [exact H |].
  exact (proj1 (uppercase_keyword_never_matches "saaS"
                  "Build a saaS dashboard") H).
Defined.

(** ** Cosine similarity and the thresholds *)

Lemma dot_sum_comm (u v : ndarray) :
  (fold_right Qplus 0 (zip_with Qmult u v)
   == fold_right Qplus 0 (zip_with Qmult v u))%Q.
Proof.
  revert v. induction u as [| x u IH]; intros [| y v]; cbn [zip_with fold_right];
    try reflexivity.
  rewrite IH. ring.
Qed.

Lemma np_clip_compat (x y : Q) :
  (x == y)%Q -> (np_clip x 0 1 == np_clip y 0 1)%Q.
Proof.
  intros H. unfold np_clip.
  destruct (Qltb x 0) eqn:Ex, (Qltb y 0) eqn:Ey;
    try (apply Qltb_lt in Ex); try (apply Qltb_ge in Ex);
    try (apply Qltb_lt in Ey); try (apply Qltb_ge in Ey); try lra.
  destruct (Qltb 1 x) eqn:Ex1, (Qltb 1 y) eqn:Ey1;
    try (apply Qltb_lt in Ex1); try (apply Qltb_ge in Ex1);
    try (apply Qltb_lt in Ey1); try (apply Qltb_ge in Ey1); lra.
Qed.

(** X7: [cosine_similarity] returns a value in [0, 1]; it returns 0 when a
    vector is None or empty; on two non-empty vectors it returns a value
    exactly when they have the same length (else [np.dot] raises); and it
    is symmetric. *)
Theorem cosine_similarity_properties (norm : ndarray -> Q)
        (a b : option ndarray) :
  (forall x, cosine_similarity norm a b = Ok x -> (0 <= x <= 1)%Q)
  /\ (a = None \/ b = None \/ a = Some [] \/ b = Some [] ->
      cosine_similarity norm a b = Ok 0%Q)
  /\ (forall va vb,
        a = Some va -> b = Some vb -> va <> [] -> vb <> [] ->
        (length va = length vb <->
         exists x, cosine_similarity norm a b = Ok x))
  /\ (forall x,
        cosine_similarity norm a b = Ok x ->
        exists y, cosine_similarity norm b a = Ok y /\ (x == y)%Q).
Proof.
  split; [intros x; apply cosine_similarity_bounds |].
  split; [| split].
  - intros H. unfold cosine_similarity.
    destruct a as [[| x va] |], b as [[| y vb] |]; try reflexivity;
      destruct H as [H | [H | [H | H]]]; discriminate.
  - intros va vb -> -> Ha Hb. unfold cosine_similarity.
    destruct va as [| x va]; [congruence |].
    destruct vb as [| y vb]; [congruence |].
    cbn [length Nat.eqb orb]. unfold np_dot, vec_div.
    rewrite !length_map.
    destruct (Nat.eqb_spec (length (x :: va)) (length (y :: vb)))
      as [Heq | Hne]; cbn [rbind].
    + split; [eauto | intros _; exact Heq].
    + split; [intros H; contradiction | intros [z Hz]; discriminate].
  - intros x. unfold cosine_similarity.
    destruct a as [va |], b as [vb |].
    + rewrite (orb_comm (length vb =? 0)%nat).
      destruct ((length va =? 0)%nat || (length vb =? 0)%nat).
      { intros [= <-]. eexists. split; reflexivity. }
      unfold np_dot, vec_div. rewrite !length_map.
      rewrite (Nat.eqb_sym (length vb)).
      destruct (length va =? length vb)%nat; cbn [rbind]; [| discriminate].
      intros [= <-]. eexists. split; [reflexivity |].
      apply np_clip_compat, dot_sum_comm.
    + intros [= <-]. eexists. split; reflexivity.
    + intros [= <-]. eexists. split; reflexivity.
    + intros [= <-]. eexists. split; reflexivity.
Qed.

(** The hypotheses of [cosine_similarity_properties] at two vectors of
    length 2, and at a missing vector. *)
Lemma cosine_similarity_properties_witness :
  (exists x,
      cosine_similarity axis_norm (Some [1%Q; 0%Q]) (Some [0%Q; 1%Q]) = Ok x)
  /\ cosine_similarity axis_norm None (Some [0%Q; 1%Q]) = Ok 0%Q.
Proof.
  split.
  - destruct (cosine_similarity_properties axis_norm (Some [1%Q; 0%Q])
                (Some [0%Q; 1%Q])) as (_ & _ & Hlen & _).
    apply (Hlen [1%Q; 0%Q] [0%Q; 1%Q]); try reflexivity; discriminate.
  - destruct (cosine_similarity_properties axis_norm None
                (Some [0%Q; 1%Q])) as (_ & Hnone & _).
    apply Hnone. left. reflexivity.
Defined.

(** X8: the three similarity thresholds are nested - an exact duplicate is
    a duplicate and a duplicate is related - and [get_match_confidence]
    is monotone, is 0.75 or more exactly for related scores, and stays in
    [0, 0.95] on scores in [0, 1]. *)
Theorem similarity_thresholds_nested (s t : Q) :
  (is_exact_duplicate s = true -> is_duplicate s = true)
  /\ (is_duplicate s = true -> is_related s = true)
  /\ (is_related s = true <-> (0.75 <= get_match_confidence s)%Q)
  /\ ((s <= t)%Q -> (get_match_confidence s <= get_match_confidence t)%Q)
  /\ ((0 <= s <= 1)%Q -> (0 <= get_match_confidence s <= 0.95)%Q).
Proof.
  unfold is_exact_duplicate, is_duplicate, is_related, get_match_confidence,
    SIMILARITY_THRESHOLD_EXACT, SIMILARITY_THRESHOLD_DUPLICATE,
    SIMILARITY_THRESHOLD_MATCH.
  destruct (Qgeb s 0.90) eqn:E1, (Qgeb s 0.80) eqn:E2, (Qgeb s 0.75) eqn:E3;
    try (apply Qgeb_ge in E1); try (apply Qgeb_lt in E1);
    try (apply Qgeb_ge in E2); try (apply Qgeb_lt in E2);
    try (apply Qgeb_ge in E3); try (apply Qgeb_lt in E3);
    try lra;
    (split; [intros; (reflexivity || discriminate || lra) |]);
    (split; [intros; (reflexivity || discriminate || lra) |]);
    (split; [split; intros; (reflexivity || discriminate || lra) |]);
    (split; [| intros; lra]);
    intros Hst;
    destruct (Qgeb t 0.90) eqn:F1, (Qgeb t 0.80) eqn:F2, (Qgeb t 0.75) eqn:F3;
    try (apply Qgeb_ge in F1); try (apply Qgeb_lt in F1);
    try (apply Qgeb_ge in F2); try (apply Qgeb_lt in F2);
    try (apply Qgeb_ge in F3); try (apply Qgeb_lt in F3);
    lra.
Qed.

(** The hypotheses of [similarity_thresholds_nested] at the scores 0.92
    and 0.95. *)
Lemma similarity_thresholds_nested_witness :
  is_exact_duplicate 0.92 = true
  /\ is_duplicate 0.92 = true
  /\ is_related 0.92 = true
  /\ (get_match_confidence 0.92 <= get_match_confidence 0.95)%Q
  /\ (0 <= get_match_confidence 0.92 <= 0.95)%Q.
Proof.
  destruct (similarity_thresholds_nested 0.92 0.95)
    as (Hexact & Hdup & _ & Hmono & Hunit).
  assert (H1 : is_exact_duplicate 0.92 = true) by reflexivity.
  split; [exact H1 |].
  split; [exact (Hexact H1) |].
  split; [exact (Hdup (Hexact H1)) |].
  split; [apply Hmono; lra | apply Hunit; lra].
Defined.

(** ** More on the engine *)

Lemma clarity_score_bounds (task : Task) :
  (0 <= ReasoningEngine.clarity_score task <= 1)%Q.
Proof.
  unfold ReasoningEngine.clarity_score. cbv zeta.
  destruct (_ <? _)%nat; [lra |].
  destruct (is_empty_or_vague _); [lra | apply py_clamp_bounds].
Qed.

Lemma alignment_score_bounds (f s c : Q) :
  (0 <= ReasoningEngine.alignment_score f s c <= 1)%Q.
Proof. unfold ReasoningEngine.alignment_score. apply py_clamp_bounds. Qed.

Lemma py_clamp_le (x y : Q) :
  (x <= y)%Q -> (py_max 0 (py_min 1 x) <= py_max 0 (py_min 1 y))%Q.
Proof.
  intros H. rewrite !py_clamp_clamp01. unfold clamp01.
  apply Q.max_le_compat_l, Q.min_le_compat_l, H.
Qed.

Lemma py_clamp_upper (x u : Q) :
  (0 <= u)%Q -> (x <= u)%Q -> (py_max 0 (py_min 1 x) <= u)%Q.
Proof.
  intros Hu H. unfold py_max, py_min.
  destruct (Qltb x 1) eqn:E1.
  - destruct (Qltb 0 x) eqn:E2; lra.
  - apply Qltb_ge in E1. destruct (Qltb 0 1) eqn:E2; lra.
Qed.

Lemma py_clamp_lower (x l : Q) :
  (l <= 1)%Q -> (l <= x)%Q -> (l <= py_max 0 (py_min 1 x))%Q.
Proof.
  intros Hl H. unfold py_max, py_min.
  destruct (Qltb x 1) eqn:E1.
  - destruct (Qltb 0 x) eqn:E2; [lra |]. apply Qltb_ge in E2. lra.
  - destruct (Qltb 0 1) eqn:E2; [lra |]. apply Qltb_ge in E2. lra.
Qed.

Lemma of_int_nonneg (n : nat) : (0 <= of_int n)%Q.
Proof.
  unfold of_int. change 0%Q with (inject_Z 0). rewrite <- Zle_Qle. lia.
Qed.

Lemma of_int_pos (n : nat) : (0 < n)%nat -> (1 <= of_int n)%Q.
Proof.
  intros H. unfold of_int. change 1%Q with (inject_Z 1).
  rewrite <- Zle_Qle. lia.
Qed.

Lemma any_in_false_count (keywords : list string) (text : string) :
  any_in keywords text = false -> count_in keywords text = 0%nat.
Proof.
  unfold any_in, count_in.
  induction keywords as [| kw keywords IH]; cbn [existsb List.filter];
    [reflexivity |].
  intros H. apply orb_false_elim in H as [Hkw H]. rewrite Hkw. exact (IH H).
Qed.

Lemma evaluate_not_filter (norm : ndarray -> Q) (task : Task)
      (task_embedding : ndarray) (projects : list LinearProject)
      (d : Decision) :
  (CONFIDENCE_FILTER <= ReasoningEngine.filter_score task)%Q ->
  ReasoningEngine.evaluate norm task task_embedding projects = Ok d ->
  decision d <> FILTER.
Proof.
  intros Hfs. unfold ReasoningEngine.evaluate. cbv zeta.
  rewrite (proj2 (Qltb_ge _ _) Hfs).
  destruct (Qltb (ReasoningEngine.clarity_score task) 0.4).
  { intros H. apply create_clarify_decision_type in H. congruence. }
  destruct (ReasoningEngine._find_similar_projects norm task_embedding
              projects) as [matches | e]; [| discriminate].
  unfold rbind.
  assert (Hfinal :
            forall f c,
              ReasoningEngine.decide_alignment task matches f c = Ok d ->
              decision d <> FILTER).
  { intros f c H. apply decide_alignment_type in H as [H | H]; congruence. }
  destruct matches as [| best_match rest]; [apply Hfinal |].
  destruct (Qgeb (ReasoningEngine.duplicate_score task (project best_match)
                    (similarity_score best_match)) 0.75);
    [| apply Hfinal].
  intros H. apply create_consolidate_decision_inv in H as [H _]. congruence.
Qed.

(** X9: a description that [is_valid_mapache_work] accepts and that
    matches no excluded category has a filter score of 0.6 or more, so
    the engine never answers Filter for it. *)
Theorem valid_mapache_work_not_filtered (norm : ndarray -> Q) (task : Task)
        (task_embedding : ndarray) (projects : list LinearProject) :
  is_valid_mapache_work (task_description task) = true ->
  MapacheContext.get_filter_category (task_description task) = None ->
  (0.6 <= ReasoningEngine.filter_score task)%Q
  /\ forall d,
       ReasoningEngine.evaluate norm task task_embedding projects = Ok d ->
       decision d <> FILTER.
Proof.
  intros Hvalid Hcat.
  assert (Hfs : (0.6 <= ReasoningEngine.filter_score task)%Q).
  { unfold is_valid_mapache_work in Hvalid. cbv zeta in Hvalid.
    destruct (any_in MapacheContext.RED_FLAGS (lower (task_description task)))
      eqn:Hred; [discriminate |].
    cbn [orb] in Hvalid.
    destruct (0 <? count_in MapacheContext.FILTER_OUT_KEYWORDS
                     (lower (task_description task)))%nat eqn:Hfilter;
      [discriminate |].
    destruct (0 <? count_in MapacheContext.MAPACHE_KEYWORDS
                     (lower (task_description task)))%nat eqn:Hmap;
      [| discriminate].
    apply Nat.ltb_ge in Hfilter. apply Nat.ltb_lt in Hmap.
    apply any_in_false_count in Hred.
    unfold ReasoningEngine.filter_score. cbv zeta.
    rewrite get_filter_category_excluded, lower_idem.
    rewrite get_filter_category_excluded in Hcat. rewrite Hcat.
    cbn [truthy]. rewrite Hred.
    replace (count_in MapacheContext.FILTER_OUT_KEYWORDS
               (lower (task_description task))) with 0%nat by lia.
    pose proof (of_int_pos _ Hmap) as Hm.
    pose proof (of_int_nonneg
                  (size (extract_project_indicators
                           (lower (task_description task))))) as Hk.
    revert Hm Hk.
    generalize (of_int (count_in MapacheContext.MAPACHE_KEYWORDS
                          (lower (task_description task)))).
    generalize (of_int (size (extract_project_indicators
                                (lower (task_description task))))).
    intros k m Hm Hk.
    apply py_clamp_lower; [lra |].
    change (of_int 0) with 0%Q.
    unfold py_min. destruct (Qltb 0.4 (m * 0.1)) eqn:E; [lra |].
    apply Qltb_ge in E. lra. }
  split; [exact Hfs |].
  intros d. apply evaluate_not_filter.
  unfold CONFIDENCE_FILTER. lra.
Qed.

(** The hypotheses of [valid_mapache_work_not_filtered] at the Slack
    task. *)
Lemma valid_mapache_work_not_filtered_witness :
  (0.6 <= ReasoningEngine.filter_score slack_task)%Q.
Proof.
  assert (H1 : is_valid_mapache_work (task_description slack_task) = true)
    by (vm_compute; reflexivity).
  assert (H2 : MapacheContext.get_filter_category
                 (task_description slack_task) = None)
    by (vm_compute; reflexivity).
  exact (proj1 (valid_mapache_work_not_filtered axis_norm slack_task [] []
                  H1 H2)).
Defined.

(** X10: [alignment_score] is monotone in each of its three inputs. *)
Theorem alignment_score_monotone (f f' s s' c c' : Q) :
  (f <= f')%Q -> (s <= s')%Q -> (c <= c')%Q ->
  (ReasoningEngine.alignment_score f s c
   <= ReasoningEngine.alignment_score f' s' c')%Q.
Proof.
  intros Hf Hs Hc. unfold ReasoningEngine.alignment_score. cbv zeta.
  apply py_clamp_le.
  unfold SCORE_WEIGHT_CONTEXT, SCORE_WEIGHT_SIMILARITY, SCORE_WEIGHT_CLARITY,
    SCORE_WEIGHT_RED_FLAGS.
  lra.
Qed.

(** The hypotheses of [alignment_score_monotone] at the scores of the
    test suite, one of them raised. *)
Lemma alignment_score_monotone_witness :
  (ReasoningEngine.alignment_score 0.8 0.7 0.9
   <= ReasoningEngine.alignment_score 0.8 0.75 0.9)%Q.
Proof.
  apply alignment_score_monotone; apply Qle_bool_iff; reflexivity.
Defined.

Lemma create_filter_decision_ok (task : Task) (fs : Q) :
  (0 <= fs <= 1)%Q ->
  exists d, ReasoningEngine._create_filter_decision task fs = Ok d.
Proof.
  intros H. unfold ReasoningEngine._create_filter_decision.
  eexists. apply new_Decision_ok. unfold well_formed.
  cbn [confidence d_alignment_score]. lra.
Qed.


Lemma create_clarify_decision_ok (task : Task) (cs : Q) :
  (0 <= cs <= 1)%Q ->
  exists d,
    ReasoningEngine._create_clarify_decision task cs = Ok d
    /\ decision d = CLARIFY
    /\ confidence d = (0.3 + cs * 0.3)%Q
    /\ mapped_project d = None
    /\ tags d = ["needs_clarification"%string].
Proof.
  intros H. unfold ReasoningEngine._create_clarify_decision. cbv zeta.
  eexists. split.
  { apply new_Decision_ok. unfold well_formed.
    cbn [confidence d_alignment_score]. lra. }
  repeat split.
Qed.

Lemma create_add_decision_ok (task : Task) (matches : list Match)
      (a f c : Q) :
  (0 <= a <= 1)%Q ->
  exists d,
    ReasoningEngine._create_add_decision task matches a f c = Ok d
    /\ decision d = ADD
    /\ confidence d = py_min (a + 0.1) 1
    /\ d_alignment_score d = a
    /\ mapped_project d = ReasoningEngine.top_project matches.
Proof.
  intros H. unfold ReasoningEngine._create_add_decision. cbv zeta.
  eexists. split.
  { apply new_Decision_ok. unfold well_formed.
    cbn [confidence d_alignment_score]. split; [| exact H].
    unfold py_min. destruct (Qltb 1 (a + 0.1)) eqn:E; [lra |].
    apply Qltb_ge in E. lra. }
  repeat split.
Qed.

Lemma create_consolidate_decision_ok (task : Task) (best : Match)
      (others : list Match) (dup : Q) :
  (0 <= dup <= 1)%Q ->
  exists d,
    ReasoningEngine._create_consolidate_decision task (best :: others) dup
    = Ok d.
Proof.
  intros H. unfold ReasoningEngine._create_consolidate_decision.
  eexists. apply new_Decision_ok. unfold well_formed.
  cbn [confidence d_alignment_score]. lra.
Qed.

Lemma decide_alignment_ok (task : Task) (matches : list Match) (f c : Q) :
  (0 <= c <= 1)%Q ->
  exists d, ReasoningEngine.decide_alignment task matches f c = Ok d.
Proof.
  intros Hc. unfold ReasoningEngine.decide_alignment. cbv zeta.
  destruct (Qgeb _ _).
  - destruct (create_add_decision_ok task matches
                (ReasoningEngine.alignment_score f
                   (ReasoningEngine.best_similarity matches) c) f c
                (alignment_score_bounds _ _ _)) as (d & Hd & _).
    eauto.
  - destruct (create_clarify_decision_ok task c Hc) as (d & Hd & _). eauto.
Qed.

(** With no match the weighted sum is 0.7 at most: the Add threshold is
    out of reach. *)
Lemma decide_alignment_no_match (task : Task) (f c : Q) :
  (0 <= f <= 1)%Q -> (0 <= c <= 1)%Q ->
  ReasoningEngine.decide_alignment task [] f c
  = ReasoningEngine._create_clarify_decision task c.
Proof.
  intros Hf Hc. unfold ReasoningEngine.decide_alignment. cbv zeta.
  destruct (Qgeb _ _) eqn:E; [| reflexivity].
  apply Qgeb_ge in E. exfalso.
  unfold ReasoningEngine.alignment_score, ReasoningEngine.best_similarity,
    ALIGNMENT_SCORE_THRESHOLD, SCORE_WEIGHT_CONTEXT, SCORE_WEIGHT_SIMILARITY,
    SCORE_WEIGHT_CLARITY, SCORE_WEIGHT_RED_FLAGS in E.
  cbv zeta in E.
  assert (H : (py_max 0 (py_min 1 (0.40 * f + 0.30 * 0.0 + 0.20 * c
                                   + 0.10 * 1.0)) <= 0.7)%Q)
    by (apply py_clamp_upper; lra).
  lra.
Qed.

(** X11: a task for which no project reaches the similarity threshold is
    never added: the weighted sum is 0.7 at most, below the threshold of
    0.75, and the engine answers Filter or Clarify.  That is the case of
    every task while the catalog is empty. *)
Theorem no_match_never_add (norm : ndarray -> Q) (task : Task)
        (task_embedding : ndarray) (projects : list LinearProject) :
  (ReasoningEngine._find_similar_projects norm task_embedding projects
   = Ok [] ->
   exists d,
     ReasoningEngine.evaluate norm task task_embedding projects = Ok d
     /\ (decision d = FILTER \/ decision d = CLARIFY))
  /\ exists d,
       ReasoningEngine.evaluate norm task task_embedding [] = Ok d
       /\ (decision d = FILTER \/ decision d = CLARIFY).
Proof.
  assert (Hgen :
            forall projects',
              ReasoningEngine._find_similar_projects norm task_embedding
                projects' = Ok [] ->
              exists d,
                ReasoningEngine.evaluate norm task task_embedding projects'
                = Ok d
                /\ (decision d = FILTER \/ decision d = CLARIFY)).
  { intros projects' Hm.
    pose proof (filter_score_bounds task) as Hf.
    pose proof (clarity_score_bounds task) as Hc.
    unfold ReasoningEngine.evaluate. cbv zeta.
    destruct (Qltb (ReasoningEngine.filter_score task) CONFIDENCE_FILTER).
    { destruct (create_filter_decision_ok task _ Hf) as [d Hd].
      exists d. split; [exact Hd |]. left.
      eapply create_filter_decision_type, Hd. }
    destruct (create_clarify_decision_ok task _ Hc) as (d & Hd & Ht & _).
    destruct (Qltb (ReasoningEngine.clarity_score task) 0.4); [eauto |].
    rewrite Hm. unfold rbind.
    rewrite decide_alignment_no_match by assumption. eauto. }
  split; [apply Hgen | apply Hgen; reflexivity].
Qed.

(** The hypothesis of [no_match_never_add] at the Slack task and a
    project whose embedding is orthogonal to the task's. *)
Lemma no_match_never_add_witness :
  exists d,
    ReasoningEngine.evaluate axis_norm slack_task [0%Q; 1%Q] [slack_project]
    = Ok d
    /\ (decision d = FILTER \/ decision d = CLARIFY).
Proof.
  apply (proj1 (no_match_never_add axis_norm slack_task [0%Q; 1%Q]
                  [slack_project])).
  vm_compute. reflexivity.
Defined.





Section Totality.

Variable norm : ndarray -> Q.

Lemma matches_of_total (valid_projects : list LinearProject)
      (similar_indices : list (nat * Q)) :
  Forall (fun p => (fst p < length valid_projects)%nat) similar_indices ->
  exists matches,
    ReasoningEngine.matches_of valid_projects similar_indices = Ok matches.
Proof.
  induction similar_indices as [| [idx score] rest IH]; intros Hall;
    cbn [ReasoningEngine.matches_of]; [eauto |].
  apply List.Forall_cons_iff in Hall as [Hidx Hall]. cbn [fst] in Hidx.
  destruct (lookup_lt_is_Some_2 valid_projects idx Hidx) as [p Hp].
  rewrite Hp. destruct (IH Hall) as [matches Hm]. rewrite Hm.
  cbn [rbind]. eauto.
Qed.

Lemma find_similar_projects_total (task_embedding : ndarray)
      (projects : list LinearProject) :
  embeddings_agree task_embedding projects ->
  exists matches,
    ReasoningEngine._find_similar_projects norm task_embedding projects
    = Ok matches.
Proof.
  intros Hagree. unfold ReasoningEngine._find_similar_projects.
  destruct projects as [| p0 projects0]; [eauto |].
  set (projects := p0 :: projects0) in *.
  set (valid := List.filter ReasoningEngine.has_embedding projects).
  destruct (List.map embedding valid) as [| e es] eqn:Hembs; [eauto |].
  assert (Hdims : dims_agree task_embedding (List.map embedding valid)).
  { unfold dims_agree. apply List.Forall_forall. intros c Hc.
    apply in_map_iff in Hc as (p & <- & Hp).
    apply filter_In in Hp as [Hp Hemb].
    unfold embeddings_agree in Hagree.
    rewrite List.Forall_forall in Hagree. specialize (Hagree p Hp).
    unfold ReasoningEngine.has_embedding in Hemb.
    destruct (embedding p) as [[| x v] |]; try discriminate. exact Hagree. }
  rewrite Hembs in Hdims.
  assert (Hfind :
            exists l,
              find_most_similar norm (Some task_embedding) (e :: es)
                                SIMILARITY_THRESHOLD_MATCH = Ok l).
  { unfold find_most_similar.
    destruct (similarities_from_total norm task_embedding
                SIMILARITY_THRESHOLD_MATCH (e :: es) 0 Hdims) as [l Hl].
    rewrite Hl. cbn [rbind]. eauto. }
  destruct Hfind as [l Hl]. rewrite Hl. cbn [rbind].
  apply matches_of_total. apply Forall_take.
  apply find_most_similar_spec in Hl as [_ Hmem].
  apply List.Forall_forall. intros [i x] Hin. cbn [fst].
  apply Hmem in Hin as (c & Hc & _).
  apply lookup_lt_Some in Hc. rewrite <- Hembs, length_map in Hc. exact Hc.
Qed.

Lemma evaluate_matches_ok (task : Task) (matches : list Match) :
  Forall (fun m => (0 <= similarity_score m <= 1)%Q) matches ->
  exists d,
    match matches with
    | best_match :: _ =>
        if Qgeb (ReasoningEngine.duplicate_score task (project best_match)
                   (similarity_score best_match)) 0.75
        then ReasoningEngine._create_consolidate_decision task matches
               (ReasoningEngine.duplicate_score task (project best_match)
                  (similarity_score best_match))
        else ReasoningEngine.decide_alignment task matches
               (ReasoningEngine.filter_score task)
               (ReasoningEngine.clarity_score task)
    | [] =>
        ReasoningEngine.decide_alignment task matches
          (ReasoningEngine.filter_score task)
          (ReasoningEngine.clarity_score task)
    end = Ok d.
Proof.
  intros Hall.
  destruct matches as [| best others];
    [apply decide_alignment_ok, clarity_score_bounds |].
  destruct (Qgeb _ 0.75);
    [| apply decide_alignment_ok, clarity_score_bounds].
  apply create_consolidate_decision_ok, duplicate_score_bounds.
  apply List.Forall_cons_iff in Hall as [H _]. exact H.
Qed.

End Totality.

(** X14: the validation of a Decision never fails in [evaluate]: the only
    exception it raises is the one of the similarity search, when a
    project embedding has another dimension than the task embedding.
    When the dimensions agree, [evaluate] returns a well-formed
    Decision. *)
Theorem evaluate_raises_only_on_dimensions (norm : ndarray -> Q)
        (task : Task) (task_embedding : ndarray)
        (projects : list LinearProject) :
  (forall e,
      ReasoningEngine.evaluate norm task task_embedding projects = Raise e ->
      (CONFIDENCE_FILTER <= ReasoningEngine.filter_score task)%Q
      /\ (0.4 <= ReasoningEngine.clarity_score task)%Q
      /\ ReasoningEngine._find_similar_projects norm task_embedding projects
         = Raise e
      /\ ~ embeddings_agree task_embedding projects)
  /\ (embeddings_agree task_embedding projects ->
      exists d,
        ReasoningEngine.evaluate norm task task_embedding projects = Ok d
        /\ well_formed d).
Proof.
  assert (Hraise :
            forall e,
              ReasoningEngine.evaluate norm task task_embedding projects
              = Raise e ->
              (CONFIDENCE_FILTER <= ReasoningEngine.filter_score task)%Q
              /\ (0.4 <= ReasoningEngine.clarity_score task)%Q
              /\ ReasoningEngine._find_similar_projects norm task_embedding
                   projects = Raise e).
  { intros e. unfold ReasoningEngine.evaluate. cbv zeta.
    destruct (Qltb (ReasoningEngine.filter_score task) CONFIDENCE_FILTER)
      eqn:Ef.
    { destruct (create_filter_decision_ok task _ (filter_score_bounds task))
        as [d Hd].
      rewrite Hd. discriminate. }
    destruct (Qltb (ReasoningEngine.clarity_score task) 0.4) eqn:Ec.
    { destruct (create_clarify_decision_ok task _
                  (clarity_score_bounds task)) as (d & Hd & _).
      rewrite Hd. discriminate. }
    apply Qltb_ge in Ef. apply Qltb_ge in Ec.
    destruct (ReasoningEngine._find_similar_projects norm task_embedding
                projects) as [matches | e'] eqn:Hm.
    - unfold rbind.
      destruct (evaluate_matches_ok task matches
                  (find_similar_projects_bounds norm _ _ _ Hm)) as [d Hd].
      rewrite Hd. discriminate.
    - unfold rbind. intros [= <-]. auto. }
  split.
  - intros e He. destruct (Hraise e He) as (Hf & Hc & Hm).
    split; [exact Hf |]. split; [exact Hc |]. split; [exact Hm |].
    intros Hagree.
    destruct (find_similar_projects_total norm _ _ Hagree) as [matches Hm'].
    congruence.
  - intros Hagree.
    destruct (ReasoningEngine.evaluate norm task task_embedding projects)
      as [d | e] eqn:He.
    + exists d. split; [reflexivity |]. eapply evaluate_well_formed, He.
    + destruct (Hraise e eq_refl) as (_ & _ & Hm).
      destruct (find_similar_projects_total norm _ _ Hagree) as [matches Hm'].
      congruence.
Qed.

(** The hypotheses of [evaluate_raises_only_on_dimensions]: the Slack
    project has an embedding of dimension 2; a task embedding of
    dimension 3 makes the engine raise, one of dimension 2 does not. *)
Lemma evaluate_raises_only_on_dimensions_witness :
  ReasoningEngine.evaluate axis_norm slack_task [1%Q; 0%Q; 0%Q]
    [slack_project] = Raise "shapes not aligned"
  /\ ~ embeddings_agree [1%Q; 0%Q; 0%Q] [slack_project]
  /\ exists d,
       ReasoningEngine.evaluate axis_norm slack_task [1%Q; 0%Q]
         [slack_project] = Ok d
       /\ well_formed d.
Proof.
  assert (He : ReasoningEngine.evaluate axis_norm slack_task
                 [1%Q; 0%Q; 0%Q] [slack_project]
               = Raise "shapes not aligned")
    by (vm_compute; reflexivity).
  split; [exact He |].
  split.
  - apply (proj1 (evaluate_raises_only_on_dimensions axis_norm slack_task
                    [1%Q; 0%Q; 0%Q] [slack_project]) _ He).
  - apply (proj2 (evaluate_raises_only_on_dimensions axis_norm slack_task
                    [1%Q; 0%Q] [slack_project])).
    repeat constructor.
Defined.

Lemma first_rule_name (table : list (string * list string))
      (text name : string) :
  MapacheContext.first_rule table text = Some name ->
  In name (List.map fst table).
Proof.
  unfold MapacheContext.first_rule.
  destruct (List.find _ table) as [[name' keywords] |] eqn:E;
    [| discriminate].
  intros [= <-]. apply find_some_In in E.
  apply (in_map fst) in E. exact E.
Qed.

(** X15: the tags of [get_tags] are distinct, and each is the name of one
    of the four domains or of the seven technology tags. *)
Theorem get_tags_distinct (task_description : string) :
  NoDup (MapacheContext.get_tags task_description)
  /\ forall tag,
       In tag (MapacheContext.get_tags task_description) ->
       In tag (List.map fst MapacheContext.VALID_DOMAINS
                 ++ List.map fst MapacheContext.tech_tags).
Proof.
  unfold MapacheContext.get_tags. cbv zeta.
  split; [apply NoDup_elements |].
  intros tag Htag.
  apply list_elem_of_In, elem_of_elements, elem_of_list_to_set,
    list_elem_of_In in Htag.
  apply in_app_iff in Htag as [Htag | Htag]; apply in_app_iff.
  - left.
    destruct (MapacheContext.get_domain (lower task_description))
      as [domain |] eqn:Hd; [| destruct Htag].
    destruct (str_eqb domain EmptyString); [destruct Htag |].
    destruct Htag as [<- | []].
    eapply first_rule_name, Hd.
  - right. apply in_map_iff in Htag as (rule & <- & Hrule).
    apply filter_In in Hrule as [Hrule _]. apply in_map, Hrule.
Qed.

(** The hypothesis of [get_tags_distinct] at the description of the Slack
    task and its tag "mcp". *)
Lemma get_tags_distinct_witness :
  In "mcp"%string (MapacheContext.get_tags (task_description slack_task))
  /\ In "mcp"%string (List.map fst MapacheContext.VALID_DOMAINS
                        ++ List.map fst MapacheContext.tech_tags).
Proof.
  assert (H : In "mcp"%string
                 (MapacheContext.get_tags (task_description slack_task))).
  { vm_compute. tauto. }
  split; [exact H |].
  exact (proj2 (get_tags_distinct (task_description slack_task)) "mcp"%string
           H).
Defined.

(** ** The similarity search of the engine *)

Lemma matches_of_spec (valid_projects : list LinearProject)
      (similar_indices : list (nat * Q)) (matches : list Match) :
  ReasoningEngine.matches_of valid_projects similar_indices = Ok matches ->
  List.map similarity_score matches = List.map snd similar_indices
  /\ Forall (fun m => In (project m) valid_projects) matches.
Proof.
  revert matches.
  induction similar_indices as [| [idx score] rest IH]; intros matches;
    cbn [ReasoningEngine.matches_of].
  - intros [= <-]. split; [reflexivity | constructor].
  - destruct (valid_projects !! idx) as [p |] eqn:Hp; [| discriminate].
    destruct (ReasoningEngine.matches_of valid_projects rest)
      as [matches' | e]; cbn [rbind]; [| discriminate].
    intros [= <-]. destruct (IH matches' eq_refl) as [Hscores Hall].
    split.
    + cbn [List.map similarity_score snd]. rewrite Hscores. reflexivity.
    + constructor; [| exact Hall]. cbn [project].
      apply list_elem_of_In. eapply list_elem_of_lookup_2, Hp.
Qed.

Lemma sorted_scores_take (n : nat) (l : list (nat * Q)) :
  StronglySorted ranked_before l ->
  StronglySorted (fun x y : Q => (y <= x)%Q) (List.map snd (take n l)).
Proof.
  intros Hs. revert n.
  induction Hs as [| a l Hs IH Ha]; intros [| n]; cbn [take List.map];
    try constructor.
  - apply IH.
  - apply List.Forall_forall. intros y Hy.
    apply in_map_iff in Hy as (b & <- & Hb).
    assert (Hb' : In b l).
    { apply list_elem_of_In.
      eapply (subseteq_take n l), list_elem_of_In, Hb. }
    rewrite List.Forall_forall in Ha. specialize (Ha b Hb').
    destruct Ha as [Hlt | [Heq _]]; lra.
Qed.

(** X16: the matches of [_find_similar_projects] are five at most, belong
    to the projects given that have an embedding, have a similarity
    between the threshold 0.75 and 1, and are sorted by similarity,
    greatest first. *)
Theorem find_similar_projects_spec (norm : ndarray -> Q)
        (task_embedding : ndarray) (projects : list LinearProject)
        (matches : list Match) :
  ReasoningEngine._find_similar_projects norm task_embedding projects
  = Ok matches ->
  (length matches <= 5)%nat
  /\ Forall (fun m =>
               In (project m) projects
               /\ ReasoningEngine.has_embedding (project m) = true
               /\ (SIMILARITY_THRESHOLD_MATCH <= similarity_score m <= 1)%Q)
            matches
  /\ StronglySorted (fun x y : Q => (y <= x)%Q)
                    (List.map similarity_score matches).
Proof.
  unfold ReasoningEngine._find_similar_projects.
  destruct projects as [| p0 projects0];
    [intros [= <-]; repeat split; try constructor; cbn [length]; lia |].
  set (projects := p0 :: projects0).
  set (valid := List.filter ReasoningEngine.has_embedding projects).
  destruct (List.map embedding valid) as [| e es] eqn:Hembs;
    [intros [= <-]; repeat split; try constructor; cbn [length]; lia |].
  destruct (find_most_similar norm (Some task_embedding) (e :: es)
                              SIMILARITY_THRESHOLD_MATCH)
    as [l | exc] eqn:Hfind; cbn [rbind]; [| discriminate].
  intros Hm.
  destruct (matches_of_spec _ _ _ Hm) as [Hscores Hin].
  pose proof (find_most_similar_bounds _ _ _ _ _ Hfind) as Hbounds.
  apply find_most_similar_spec in Hfind as [Hsorted _].
  split; [| split].
  - rewrite <- (length_map similarity_score), Hscores, length_map,
      length_take. lia.
  - apply List.Forall_forall. intros m Hmem.
    rewrite List.Forall_forall in Hin. specialize (Hin m Hmem).
    apply filter_In in Hin as [Hin Hemb].
    split; [exact Hin |]. split; [exact Hemb |].
    assert (Hs : In (similarity_score m) (List.map snd (take 5 l))).
    { rewrite <- Hscores. apply in_map, Hmem. }
    apply in_map_iff in Hs as (q & Hq & Hql).
    assert (Hql' : In q l).
    { apply list_elem_of_In.
      eapply (subseteq_take 5 l), list_elem_of_In, Hql. }
    rewrite List.Forall_forall in Hbounds.
    destruct (Hbounds q Hql') as [Hunit Hthr]. rewrite <- Hq. lra.
  - rewrite Hscores. apply sorted_scores_take, Hsorted.
Qed.

(** The hypothesis of [find_similar_projects_spec] at the Slack project
    and the payments project, both with the embedding of the task. *)
Lemma find_similar_projects_spec_witness :
  exists matches,
    ReasoningEngine._find_similar_projects axis_norm [1%Q; 0%Q]
      [slack_project; payments_project] = Ok matches
    /\ (length matches <= 5)%nat
    /\ StronglySorted (fun x y : Q => (y <= x)%Q)
                      (List.map similarity_score matches).
Proof.
  destruct (ReasoningEngine._find_similar_projects axis_norm [1%Q; 0%Q]
              [slack_project; payments_project]) as [matches | e] eqn:Hm;
    [| vm_compute in Hm; discriminate].
  exists matches. split; [reflexivity |].
  destruct (find_similar_projects_spec axis_norm [1%Q; 0%Q]
              [slack_project; payments_project] matches Hm)
    as (Hlen & _ & Hsorted).
  split; assumption.
Defined.

(** ** The Firestore collections *)

Lemma fold_insert_lookup {A V} (key : A -> string) (val : A -> V)
      (l : list A) (col : gmap string V) :
  let col' := fold_left (fun col x => <[ key x := val x ]> col) l col in
  (forall k, ~ In k (List.map key l) -> col' !! k = col !! k)
  /\ (List.NoDup (List.map key l) ->
      forall x, In x l -> col' !! key x = Some (val x)).
Proof.
  revert col. induction l as [| y l IH]; intros col; cbn [fold_left List.map].
  - split; [reflexivity | intros _ x []].
  - destruct (IH (<[ key y := val y ]> col)) as [Hother Hin].
    split.
    + intros k Hk. cbn [In] in Hk.
      rewrite Hother by tauto. apply lookup_insert_ne. tauto.
    + intros Hnd x Hx. apply List.NoDup_cons_iff in Hnd as [Hy Hnd].
      destruct Hx as [-> | Hx]; [| apply Hin; assumption].
      rewrite Hother by exact Hy. apply lookup_insert_eq.
Qed.




Section Search.

Variable fault : State -> option Exception.

Lemma search_loop_raise (query_lower : string) (limit : nat)
      (docs matches : list LinearProject) :
  Exists (fun p => description p = None) docs ->
  Forall (fun p => doc_matches query_lower p = false) docs ->
  search_loop query_lower limit docs matches
  = Raise "'NoneType' object has no attribute 'lower'".
Proof.
  intros Hex Hall. revert matches.
  induction docs as [| data rest IH]; intros matches;
    [apply Exists_nil in Hex; destruct Hex |].
  cbn [search_loop].
  apply List.Forall_cons_iff in Hall as [Hdata Hall].
  unfold doc_matches in Hdata.
  destruct (description data) as [d |] eqn:Hd; [| reflexivity].
  cbv zeta. rewrite Hdata.
  apply Exists_cons in Hex as [Hex | Hex]; [congruence |].
  apply IH; assumption.
Qed.

Lemma search_loop_ok (query_lower : string) (limit : nat)
      (docs matches : list LinearProject) :
  Forall (fun p => description p <> None) docs ->
  (length matches < Nat.max limit 1)%nat ->
  exists l,
    search_loop query_lower limit docs matches = Ok l
    /\ (length l <= Nat.max limit 1)%nat
    /\ forall r,
         In r l ->
         In r matches
         \/ exists p,
              In p docs /\ r = project_of_doc p
              /\ doc_matches query_lower p = true.
Proof.
  intros Hall. revert matches.
  induction Hall as [| data rest Hdata Hall IH]; intros matches Hlt;
    cbn [search_loop].
  - exists matches. split; [reflexivity |]. split; [lia | auto].
  - destruct (description data) as [d |] eqn:Hd; [| congruence].
    cbv zeta.
    destruct (str_in query_lower (lower (name data))
              || str_in query_lower (lower d)) eqn:Hmatch.
    + assert (Hdm : doc_matches query_lower data = true)
        by (unfold doc_matches; rewrite Hd; exact Hmatch).
      destruct (Nat.leb_spec limit (length (matches ++ [project_of_doc data])))
        as [Hle | Hgt].
      * eexists. split; [reflexivity |].
        rewrite length_app in *. cbn [length] in *. split; [lia |].
        intros r Hr. apply in_app_iff in Hr as [Hr | [<- | []]];
          [left; exact Hr |].
        right. exists data. split; [left; reflexivity | auto].
      * destruct (IH (matches ++ [project_of_doc data]))
          as (l & Hl & Hlen & Hmem); [lia |].
        exists l. split; [exact Hl |]. split; [exact Hlen |].
        intros r Hr. apply Hmem in Hr as [Hr | (p & Hp & Hrp & Hpm)].
        -- apply in_app_iff in Hr as [Hr | [<- | []]];
             [left; exact Hr |].
           right. exists data. split; [left; reflexivity | auto].
        -- right. exists p. split; [right; exact Hp | auto].
    + destruct (IH matches Hlt) as (l & Hl & Hlen & Hmem).
      exists l. split; [exact Hl |]. split; [exact Hlen |].
      intros r Hr. apply Hmem in Hr as [Hr | (p & Hp & Hrp & Hpm)];
        [left; exact Hr |].
      right. exists p. split; [right; exact Hp | auto].
Qed.

End Search.

(** X18: [search_projects] needs a description in every document it
    scans.  When one of the first 100 documents has none and no document
    with a description matches the query, it raises an AttributeError
    instead of returning the empty list; when all of them have one, it
    returns matching projects only, max(limit, 1) at most. *)
Theorem search_projects_needs_descriptions
        (fault : State -> option Exception) (query : string) (limit : nat)
        (s : State) :
  fault s = None ->
  (Exists (fun p => description p = None) (streamed_projects s) ->
   Forall (fun p => doc_matches (lower query) p = false)
          (streamed_projects s) ->
   search_projects fault query limit s
   = (Raise "'NoneType' object has no attribute 'lower'", s))
  /\ (Forall (fun p => description p <> None) (streamed_projects s) ->
      exists l,
        search_projects fault query limit s = (Ok l, s)
        /\ (length l <= Nat.max limit 1)%nat
        /\ forall r,
             In r l ->
             exists p,
               In p (streamed_projects s) /\ r = project_of_doc p
               /\ doc_matches (lower query) p = true).
Proof.
  intros Hfault. unfold search_projects. rewrite Hfault. cbv zeta. split.
  - intros Hex Hall. rewrite search_loop_raise by assumption. reflexivity.
  - intros Hall.
    destruct (search_loop_ok (lower query) limit (streamed_projects s) []
                Hall) as (l & Hl & Hlen & Hmem); [cbn [length]; lia |].
    exists l. rewrite Hl. split; [reflexivity |].
    split; [exact Hlen |].
    intros r Hr. destruct (Hmem r Hr) as [[] | H]. exact H.
Qed.

(** The hypotheses of [search_projects_needs_descriptions] at a
    collection that holds the Slack project, which has no description:
    the search for "billing" raises. *)
Lemma search_projects_needs_descriptions_witness :
  search_projects (fun _ => None) "billing" 10 aged_project_state
  = (Raise "'NoneType' object has no attribute 'lower'", aged_project_state).
Proof.
  apply (proj1 (search_projects_needs_descriptions (fun _ => None) "billing"
                  10 aged_project_state eq_refl)).
  - vm_compute. apply Exists_cons_hd. reflexivity.
  - vm_compute. repeat constructor.
Defined.



(** ** The state of the agent *)

Lemma fold_state_lookup (state : list (string * StateValue))
      (col : gmap string StateValue) :
  let col' := fold_left (fun col '(k, v) => <[ k := v ]> col) state col in
  (forall k, ~ In k (List.map fst state) -> col' !! k = col !! k)
  /\ (List.NoDup (List.map fst state) ->
      forall k v, In (k, v) state -> col' !! k = Some v).
Proof.
  assert (Hfold :
            fold_left (fun col '(k, v) => <[ k := v ]> col) state col
            = fold_left (fun col (x : string * StateValue) =>
                           <[ fst x := snd x ]> col) state col).
  { revert col. induction state as [| [k v] state IH]; intros col;
      cbn [fold_left]; [reflexivity |]. apply IH. }
  cbv zeta. rewrite Hfold.
  destruct (fold_insert_lookup fst snd state col) as [Hother Hin].
  split; [exact Hother |].
  intros Hnd k v Hkv. exact (Hin Hnd (k, v) Hkv).
Qed.

(** X20: [update_agent_state] merges: after it succeeds, the document
    holds [last_updated], set to the time of the call, and each field of
    the update (for distinct keys), and keeps the fields that the update
    does not name; [get_agent_state] reads them back. *)
Theorem update_agent_state_merges (env : Env)
        (state : list (string * StateValue)) (s s' : State) :
  FirestoreClient.update_agent_state env state s = (Ok tt, s') ->
  firestore_fault env OpGetAgentState s' = None ->
  exists doc,
    get_agent_state env s' = (Ok doc, s')
    /\ doc !! "last_updated" = Some (VTime (clock s))
    /\ (forall k,
          ~ In k (List.map fst state) -> k <> "last_updated"%string ->
          doc !! k = agent_state_col s !! k)
    /\ (List.NoDup (List.map fst state) ->
        forall k v,
          In (k, v) state -> k <> "last_updated"%string ->
          doc !! k = Some v).
Proof.
  unfold FirestoreClient.update_agent_state, bind, now, firestore, modify.
  destruct (firestore_fault env OpUpdateAgentState s); [discriminate |].
  intros [= <-] Hfault.
  unfold get_agent_state, bind, firestore, get_state, ret.
  rewrite Hfault. eexists. split; [reflexivity |].
  cbn [agent_state_col set_agent_state_col].
  rewrite fold_left_app. cbn [fold_left].
  destruct (fold_state_lookup state (agent_state_col s)) as [Hother Hin].
  cbv zeta in Hother, Hin.
  split; [apply lookup_insert_eq |]. split.
  - intros k Hk Hne. rewrite lookup_insert_ne by congruence.
    apply Hother, Hk.
  - intros Hnd k v Hkv Hne. rewrite lookup_insert_ne by congruence.
    apply (Hin Hnd), Hkv.
Qed.

(** The hypotheses of [update_agent_state_merges] at an update of two
    fields. *)
Lemma update_agent_state_merges_witness :
  exists doc,
    fst (get_agent_state quiet_env
           (snd (FirestoreClient.update_agent_state quiet_env
                   [("projects_count"%string, VInt 3);
                    ("health_status"%string, VStr "healthy")]
                   empty_state))) = Ok doc
    /\ doc !! "projects_count" = Some (VInt 3)
    /\ doc !! "last_updated" = Some (VTime 0).
Proof.
  destruct (update_agent_state_merges quiet_env
              [("projects_count"%string, VInt 3);
               ("health_status"%string, VStr "healthy")]
              empty_state
              (snd (FirestoreClient.update_agent_state quiet_env
                      [("projects_count"%string, VInt 3);
                       ("health_status"%string, VStr "healthy")]
                      empty_state)) eq_refl eq_refl)
    as (doc & Hdoc & Hlast & _ & Hin).
  exists doc. rewrite Hdoc. split; [reflexivity |].
  split; [| exact Hlast].
  apply Hin; [| left; reflexivity | discriminate].
  repeat constructor; cbn [In]; intuition discriminate.
Defined.

(** X21: [cache_valid] of the health report looks at the presence of the
    in-memory cache only, not at its age: it stays true when the cache is
    older than its TTL and [get_or_refresh_projects] no longer serves
    it. *)
Theorem health_cache_valid_ignores_ttl (env : Env) (s s' : State)
        (h : Health) (projects : list LinearProject) (cache_time : datetime) :
  get_agent_health env s = (Ok h, s') ->
  _projects_cache s = Some projects ->
  _cache_time s = Some cache_time ->
  h_cache_valid h = true
  /\ ((seconds CACHE_TTL_PROJECTS <= clock s - cache_time)%Z ->
      LinearSemanticAgent.memory_hit false s (clock s) = None).
Proof.
  unfold get_agent_health, get_agent_state, bind, firestore, get_state, ret.
  destruct (firestore_fault env OpGetAgentState s); [discriminate |].
  intros [= <- <-] Hcache Htime. cbn [h_cache_valid].
  rewrite Hcache, Htime. split; [reflexivity |].
  intros Hold. unfold LinearSemanticAgent.memory_hit.
  rewrite Hcache, Htime.
  destruct projects; [reflexivity |].
  destruct (Z.ltb_spec (clock s - cache_time) (seconds CACHE_TTL_PROJECTS));
    [lia | reflexivity].
Qed.

(** The hypotheses of [health_cache_valid_ignores_ttl] at a cache filled
    two hours ago. *)
Lemma health_cache_valid_ignores_ttl_witness :
  exists h,
    fst (get_agent_health quiet_env stale_cache_state) = Ok h
    /\ h_cache_valid h = true
    /\ LinearSemanticAgent.memory_hit false stale_cache_state
         (clock stale_cache_state) = None.
Proof.
  destruct (get_agent_health quiet_env stale_cache_state) as [[h | e] s']
    eqn:Hh; [| vm_compute in Hh; discriminate].
  destruct (health_cache_valid_ignores_ttl quiet_env stale_cache_state s' h
              [slack_project] 0%Z Hh eq_refl eq_refl) as [Hvalid Hmiss].
  exists h. split; [reflexivity |]. split; [exact Hvalid |].
  apply Hmiss. vm_compute. discriminate.
Defined.

(** ** The catalog of the agent *)

Lemma fetch_from_linear_inv (env : Env) (s s' : State)
      (l : list LinearProject) :
  LinearSemanticAgent.fetch_from_linear env s = (Ok l, s') ->
  _projects_cache s' = Some l
  /\ _cache_time s' = Some (clock s)
  /\ clock s' = clock s
  /\ linear_calls s' = S (linear_calls s).
Proof.
  unfold LinearSemanticAgent.fetch_from_linear,
    LinearSemanticAgent.list_projects, FirestoreClient.cache_projects,
    FirestoreClient.update_agent_state, bind, modify, get_state, lift, now,
    firestore, ret.
  destruct (linear_list_projects env (log_linear_call s)) as [projects | e];
    [| discriminate].
  destruct (firestore_fault env OpCacheProjects (log_linear_call s));
    [discriminate |].
  destruct (firestore_fault env OpUpdateAgentState _); [discriminate |].
  intros [= <- <-]. repeat split.
Qed.

Lemma get_cached_projects_state (env : Env) (s s' : State)
      (r : result (list LinearProject)) :
  FirestoreClient.get_cached_projects env s = (r, s') -> s' = s.
Proof.
  unfold FirestoreClient.get_cached_projects,
    FirestoreClient.get_cached_projects_max_age, bind, now, firestore,
    get_state, ret.
  destruct (firestore_fault env OpGetCachedProjects s);
    intros [= _ <-]; reflexivity.
Qed.

(** X22: after a call of [get_or_refresh_projects] that succeeds, the
    in-memory cache holds the list returned, less than CACHE_TTL_PROJECTS
    old.  A forced call asks Linear, once, whatever the caches hold.  A
    list that is not empty is then served from memory: the next call
    returns it and leaves the state as it is, so neither Linear nor
    Firestore is asked.  An empty list always comes from Linear and is
    never served from memory: while the catalog is empty, every call goes
    back to the stores. *)
Theorem get_or_refresh_projects_post (env : Env) (force : bool)
        (s s' : State) (l : list LinearProject) :
  LinearSemanticAgent.get_or_refresh_projects env force s = (Ok l, s') ->
  _projects_cache s' = Some l
  /\ (exists t,
         _cache_time s' = Some t
         /\ (clock s' - t < seconds CACHE_TTL_PROJECTS)%Z)
  /\ clock s' = clock s
  /\ (linear_calls s' <= S (linear_calls s))%nat
  /\ (force = true -> linear_calls s' = S (linear_calls s))
  /\ (l = [] ->
      linear_calls s' = S (linear_calls s)
      /\ forall t, LinearSemanticAgent.memory_hit false s' t = None)
  /\ (l <> [] ->
      LinearSemanticAgent.get_or_refresh_projects env false s' = (Ok l, s')).
Proof.
  intros Hcall.
  assert (Hfresh : (0 < seconds CACHE_TTL_PROJECTS)%Z) by reflexivity.
  assert (Hcore :
            _projects_cache s' = Some l
            /\ (exists t,
                   _cache_time s' = Some t
                   /\ (clock s' - t < seconds CACHE_TTL_PROJECTS)%Z)
            /\ clock s' = clock s
            /\ (linear_calls s' <= S (linear_calls s))%nat
            /\ (force = true -> linear_calls s' = S (linear_calls s))
            /\ (l = [] -> linear_calls s' = S (linear_calls s))).
  { revert Hcall.
    unfold LinearSemanticAgent.get_or_refresh_projects, bind, get_state, now.
    destruct (LinearSemanticAgent.memory_hit force s (clock s))
      as [projects |] eqn:Hhit.
    - unfold ret. intros [= <- <-].
      destruct force; [discriminate |].
      apply memory_hit_iff in Hhit as (Hc & Hne & t & Ht & Hage).
      split; [exact Hc |]. split; [eauto |]. split; [reflexivity |].
      split; [lia |]. split; [discriminate |]. intros ->. congruence.
    - destruct force.
      + intros H. apply fetch_from_linear_inv in H as (Hc & Ht & Hclock & Hn).
        split; [exact Hc |].
        split; [exists (clock s); split; [exact Ht | lia] |].
        split; [exact Hclock |]. split; [lia |]. auto.
      + destruct (FirestoreClient.get_cached_projects env s)
          as [[cached | e] s0] eqn:Hcached; [| discriminate].
        apply get_cached_projects_state in Hcached. subst s0.
        destruct cached as [| p cached].
        * intros H.
          apply fetch_from_linear_inv in H as (Hc & Ht & Hclock & Hn).
          split; [exact Hc |].
          split; [exists (clock s); split; [exact Ht | lia] |].
          split; [exact Hclock |]. split; [lia |]. auto.
        * unfold modify, ret. intros [= <- <-].
          cbn [_projects_cache _cache_time clock linear_calls set_cache].
          split; [reflexivity |].
          split; [exists (clock s); split; [reflexivity | lia] |].
          split; [reflexivity |]. split; [lia |].
          split; discriminate. }
  destruct Hcore as (Hc & (t & Ht & Hage) & Hclock & Hle & Hforce & Hempty).
  split; [exact Hc |]. split; [eauto |]. split; [exact Hclock |].
  split; [exact Hle |]. split; [exact Hforce |]. split.
  - intros ->. split; [apply Hempty; reflexivity |].
    intros t'. unfold LinearSemanticAgent.memory_hit. rewrite Hc.
    reflexivity.
  - intros Hne. apply memory_hit_served. apply memory_hit_iff.
    split; [exact Hc |]. split; [exact Hne |]. eauto.
Qed.

(** The hypothesis of [get_or_refresh_projects_post] at a forced refresh
    of an empty catalog. *)
Lemma get_or_refresh_projects_post_witness :
  linear_calls
    (snd (LinearSemanticAgent.get_or_refresh_projects quiet_env true
            empty_state)) = 1%nat.
Proof.
  destruct (LinearSemanticAgent.get_or_refresh_projects quiet_env true
              empty_state) as [[l | e] s'] eqn:H;
    [| vm_compute in H; discriminate].
  destruct (get_or_refresh_projects_post quiet_env true empty_state s' l H)
    as (_ & _ & _ & _ & Hforce & _).
  exact (Hforce eq_refl).
Defined.





(** ** The calls to the embedding model *)

Lemma embed_text_once_log (env : Env) (text task_type : string)
      (s s' : State) (r : result ndarray) :
  VertexAIClient.embed_text_once env text task_type s = (r, s') ->
  if blank text
  then r = Ok (repeat 0%Q embeddings_dimension) /\ s' = s
  else provider_calls s' = provider_calls s ++ [(text, task_type)].
Proof.
  unfold VertexAIClient.embed_text_once, blank.
  destruct (str_eqb text EmptyString || str_eqb (strip text) EmptyString).
  - unfold ret. intros [= <- <-]. auto.
  - unfold bind, modify, get_state, lift, ret.
    destruct (model_get_embeddings env text task_type _) as [[| e es] | exc];
      intros [= <- <-]; reflexivity.
Qed.

(** The provider calls that one [embed_text] adds to the log. *)
Lemma embed_text_log (env : Env) (text task_type : string) (s s' : State)
      (r : result ndarray) :
  VertexAIClient.embed_text env text task_type s = (r, s') ->
  exists k,
    (k <= 3)%nat
    /\ provider_calls s' = provider_calls s ++ repeat (text, task_type) k
    /\ (blank text = true ->
        k = 0%nat /\ r = Ok (repeat 0%Q embeddings_dimension))
    /\ (blank text = false ->
        (1 <= k)%nat /\ forall e, r = Raise e -> k = 3%nat).
Proof.
  unfold VertexAIClient.embed_text. cbn [VertexAIClient.retry].
  destruct (VertexAIClient.embed_text_once env text task_type s)
    as [[a1 | e1] s1] eqn:H1;
    pose proof (embed_text_once_log _ _ _ _ _ _ H1) as L1.
  { intros [= <- <-]. destruct (blank text).
    - destruct L1 as [-> ->]. exists 0%nat. rewrite app_nil_r.
      repeat split; try lia; try discriminate.
    - exists 1%nat. repeat split; try lia; try discriminate. exact L1. }
  destruct (blank text) eqn:Hb; [destruct L1; discriminate |].
  destruct (VertexAIClient.embed_text_once env text task_type s1)
    as [[a2 | e2] s2] eqn:H2;
    pose proof (embed_text_once_log _ _ _ _ _ _ H2) as L2; rewrite Hb in L2.
  { intros [= <- <-]. exists 2%nat. rewrite L2, L1, <- app_assoc.
    repeat split; try lia; try discriminate. }
  destruct (VertexAIClient.embed_text_once env text task_type s2)
    as [[a3 | e3] s3] eqn:H3;
    pose proof (embed_text_once_log _ _ _ _ _ _ H3) as L3; rewrite Hb in L3.
  { intros [= <- <-]. exists 3%nat. rewrite L3, L2, L1, <- !app_assoc.
    repeat split; try lia; try discriminate. }
  unfold raise. intros [= <- <-]. exists 3%nat.
  rewrite L3, L2, L1, <- !app_assoc.
  repeat split; try lia; try discriminate.
Qed.

(** X24: [embed_text] calls the embedding model three times at most.  For
    an empty or blank text it makes no call and returns the zero vector
    of dimension 768; for another text it makes a call at least, and it
    raises only after three failed calls. *)
Theorem embed_text_attempts (env : Env) (text task_type : string)
        (s s' : State) (r : result ndarray) :
  VertexAIClient.embed_text env text task_type s = (r, s') ->
  (length (provider_calls s) <= length (provider_calls s')
   <= length (provider_calls s) + 3)%nat
  /\ (blank text = true ->
      s' = s /\ r = Ok (repeat 0%Q 768))
  /\ (blank text = false ->
      (length (provider_calls s) < length (provider_calls s'))%nat
      /\ (forall e,
            r = Raise e ->
            provider_calls s'
            = provider_calls s ++ repeat (text, task_type) 3)).
Proof.
  intros H.
  destruct (embed_text_log _ _ _ _ _ _ H) as (k & Hk & Hlog & Hblank & Hnb).
  split; [rewrite Hlog, length_app, repeat_length; lia |].
  split.
  - intros Hb. split; [| apply Hblank, Hb].
    revert H. unfold VertexAIClient.embed_text. cbn [VertexAIClient.retry].
    destruct (VertexAIClient.embed_text_once env text task_type s)
      as [[a1 | e1] s1] eqn:H1;
      pose proof (embed_text_once_log _ _ _ _ _ _ H1) as L1;
      rewrite Hb in L1; destruct L1 as [L1 ->]; [| discriminate].
    intros [= _ <-]. reflexivity.
  - intros Hb. destruct (Hnb Hb) as [Hk1 Hraise].
    split; [rewrite Hlog, length_app, repeat_length; lia |].
    intros e He. rewrite Hlog, (Hraise e He). reflexivity.
Qed.

(** The hypotheses of [embed_text_attempts] at a model that times out:
    three calls are made. *)
Lemma embed_text_attempts_witness :
  length (provider_calls
            (snd (VertexAIClient.embed_text timeout_env "Hello World"
                    "RETRIEVAL_QUERY" empty_state))) = 3%nat.
Proof.
  destruct (VertexAIClient.embed_text timeout_env "Hello World"
              "RETRIEVAL_QUERY" empty_state) as [r s'] eqn:H.
  destruct (embed_text_attempts timeout_env "Hello World" "RETRIEVAL_QUERY"
              empty_state s' r H) as (_ & _ & Hnb).
  destruct r as [a | e]; [vm_compute in H; discriminate H |].
  destruct (Hnb eq_refl) as [_ Hraise].
  cbn [snd]. rewrite (Hraise e eq_refl). reflexivity.
Defined.

(** X25: the embedding cache never serves an empty vector: when
    [EmbeddingService.get_embedding] returns the empty vector, the
    embedding model was called during that call. *)
Theorem empty_embedding_never_cached (env : Env) (text task_type : string)
        (s s1 : State) :
  EmbeddingService.get_embedding env text task_type s = (Ok [], s1) ->
  (length (provider_calls s) < length (provider_calls s1))%nat.
Proof.
  unfold EmbeddingService.get_embedding, EmbeddingService.get_embedding_opt,
    bind.
  destruct (FirestoreClient.get_embedding env text s) as [[cached | e] s0]
    eqn:Hget; [| discriminate].
  apply firestore_get_embedding_inv in Hget as [-> Hhit].
  destruct cached as [cached |].
  - unfold ret. intros [= -> <-].
    destruct (Hhit [] eq_refl) as (data & _ & Hread).
    apply read_embedding_iff in Hread as (_ & Hne & _). congruence.
  - destruct (VertexAIClient.embed_text env text task_type s)
      as [[embedding | e] sa] eqn:Hembed; [| discriminate].
    destruct (FirestoreClient.store_embedding env text embedding sa)
      as [[[] | e] sb] eqn:Hstore; [| discriminate].
    unfold ret. intros [= -> <-].
    destruct (embed_text_log _ _ _ _ _ _ Hembed)
      as (k & Hk & Hlog & Hblank & Hnb).
    assert (Hcalls : provider_calls sb = provider_calls sa).
    { revert Hstore.
      unfold FirestoreClient.store_embedding, bind, now, firestore, modify.
      destruct (firestore_fault env OpStoreEmbedding sa); [discriminate |].
      intros [= <-]. reflexivity. }
    rewrite Hcalls, Hlog, length_app, repeat_length.
    destruct (blank text) eqn:Hb.
    + destruct (Hblank eq_refl) as [_ Hz]. discriminate Hz.
    + destruct (Hnb eq_refl) as [Hk1 _]. lia.
Qed.

(** The hypothesis of [empty_embedding_never_cached] at a model that
    answers with an embedding without values. *)
Lemma empty_embedding_never_cached_witness :
  fst (EmbeddingService.get_embedding hollow_env "Hello World"
         "RETRIEVAL_QUERY" empty_state) = Ok []
  /\ (0 < length (provider_calls
                    (snd (EmbeddingService.get_embedding hollow_env
                            "Hello World" "RETRIEVAL_QUERY"
                            empty_state))))%nat.
Proof.
  destruct (EmbeddingService.get_embedding hollow_env "Hello World"
              "RETRIEVAL_QUERY" empty_state) as [r s'] eqn:H.
  assert (Hr : r = Ok []).
  { apply (f_equal fst) in H. cbn [fst] in H. rewrite <- H.
    vm_compute. reflexivity. }
  subst r. split; [reflexivity |].
  exact (empty_embedding_never_cached hollow_env "Hello World"
           "RETRIEVAL_QUERY" empty_state s' H).
Defined.

(** ** The start of the agent *)

Lemma get_or_refresh_projects_cache (env : Env) (force : bool)
      (s s' : State) (l : list LinearProject) :
  LinearSemanticAgent.get_or_refresh_projects env force s = (Ok l, s') ->
  _projects_cache s' <> None /\ _cache_time s' <> None
  /\ clock s' = clock s.
Proof.
  unfold LinearSemanticAgent.get_or_refresh_projects, bind, get_state, now.
  destruct (LinearSemanticAgent.memory_hit force s (clock s))
    as [projects |] eqn:Hhit.
  - unfold ret. intros [= <- <-]. destruct force; [discriminate |].
    apply memory_hit_iff in Hhit as (Hc & _ & t & Ht & _).
    rewrite Hc, Ht. repeat split; discriminate.
  - assert (Hfetch : forall s0,
               clock s0 = clock s ->
               LinearSemanticAgent.fetch_from_linear env s0 = (Ok l, s') ->
               _projects_cache s' <> None /\ _cache_time s' <> None
               /\ clock s' = clock s).
    { intros s0 Hs0 H.
      apply fetch_from_linear_inv in H as (Hc & Ht & Hclock & _).
      rewrite Hc, Ht. repeat split; try discriminate. congruence. }
    destruct force; [apply Hfetch; reflexivity |].
    destruct (FirestoreClient.get_cached_projects env s)
      as [[cached | e] s0] eqn:Hcached; [| discriminate].
    apply get_cached_projects_state in Hcached. subst s0.
    destruct cached as [| p cached]; [apply Hfetch; reflexivity |].
    unfold modify, ret. intros [= <- <-].
    cbn [_projects_cache _cache_time clock set_cache].
    repeat split; discriminate.
Qed.

(** X26: [initialize] and [get_agent_health] together.  When the state of
    the agent cannot be read, [initialize] raises that error at once and
    asks neither Linear nor the caches.  After an [initialize] that
    succeeds, a health report that can be read says "healthy", gives the
    time of the initialisation as [last_init], and says that the cache is
    valid. *)
Theorem initialize_then_healthy (env : Env) (s s1 : State) :
  (forall e,
      firestore_fault env OpGetAgentState s = Some e ->
      initialize env s = (Raise e, s))
  /\ (initialize env s = (Ok tt, s1) ->
      firestore_fault env OpGetAgentState s1 = None ->
      exists h,
        get_agent_health env s1 = (Ok h, s1)
        /\ h_status h = VStr "healthy"
        /\ h_last_init h = Some (VTime (clock s))
        /\ h_version h = "1.0.0"%string
        /\ h_cache_valid h = true).
Proof.
  split.
  - intros e He.
    unfold initialize, get_agent_state, bind, firestore. rewrite He.
    reflexivity.
  - unfold initialize, bind, now.
    destruct (get_agent_state env s) as [[state | e] s0] eqn:Hstate;
      [| discriminate].
    assert (Hs0 : s0 = s).
    { revert Hstate. unfold get_agent_state, bind, firestore, get_state, ret.
      destruct (firestore_fault env OpGetAgentState s);
        intros [= _ <-]; reflexivity. }
    subst s0.
    destruct (LinearSemanticAgent.get_or_refresh_projects env false s)
      as [[l | e] s2] eqn:Hrefresh; [| discriminate].
    apply get_or_refresh_projects_cache in Hrefresh
      as (Hcache & Htime & Hclock).
    unfold FirestoreClient.update_agent_state, bind, now, firestore, modify.
    destruct (firestore_fault env OpUpdateAgentState s2); [discriminate |].
    intros [= <-] Hfault.
    unfold get_agent_health, get_agent_state, bind, firestore, get_state,
      ret.
    rewrite Hfault. eexists. split; [reflexivity |].
    cbn [h_status h_last_init h_version h_cache_valid agent_state_col
           set_agent_state_col _projects_cache _cache_time app fold_left].
    rewrite Hclock.
    split; [| split; [| split; [reflexivity |]]].
    + rewrite lookup_insert_ne by discriminate.
      rewrite lookup_insert_ne by discriminate.
      rewrite lookup_insert_eq. reflexivity.
    + rewrite lookup_insert_ne by discriminate.
      rewrite lookup_insert_ne by discriminate.
      rewrite lookup_insert_ne by discriminate.
      rewrite lookup_insert_eq. reflexivity.
    + apply andb_true_intro. split; apply bool_decide_eq_true_2; assumption.
Qed.

(** The hypotheses of [initialize_then_healthy] at the first start, with
    nothing stored. *)
Lemma initialize_then_healthy_witness :
  exists h,
    fst (get_agent_health quiet_env (snd (initialize quiet_env empty_state)))
    = Ok h
    /\ h_status h = VStr "healthy"
    /\ h_cache_valid h = true.
Proof.
  destruct (initialize quiet_env empty_state) as [[[] | e] s1] eqn:Hinit;
    [| vm_compute in Hinit; discriminate].
  destruct (proj2 (initialize_then_healthy quiet_env empty_state s1) Hinit
              eq_refl) as (h & Hh & Hstatus & _ & _ & Hvalid).
  exists h. cbn [snd]. rewrite Hh. auto.
Defined.

(** ** [clean_description] *)

Lemma starts_with_head (p : string) (c : ascii) (s : string) :
  no_space p = true -> isspace c = true -> starts_with p (String c s) = false.
Proof.
  unfold starts_with. destruct p as [| a p]; cbn [drop_prefix no_space].
  - intros _ ->. reflexivity.
  - destruct (Ascii.eqb_spec a c) as [-> |]; [| reflexivity].
    intros H Hc. rewrite Hc in H. discriminate.
Qed.

Lemma starts_with_cons (a : ascii) (p : string) (c : ascii) (s : string) :
  starts_with (String a p) (String c s)
  = Ascii.eqb a c && starts_with p s.
Proof.
  unfold starts_with. cbn [drop_prefix].
  destruct (Ascii.eqb a c); reflexivity.
Qed.

Lemma starts_with_nil (p : string) : starts_with p EmptyString = false.
Proof. destruct p; reflexivity. Qed.

Lemma url_at_space (c : ascii) (s : string) :
  isspace c = true -> url_at (String c s) = false.
Proof.
  intros Hc. unfold url_at.
  rewrite !starts_with_head by (exact Hc || reflexivity). reflexivity.
Qed.

(** What is left of a text does not begin with a match that the text did
    not begin with. *)
Lemma remove_urls_starts (s : string) :
  forall p b,
    no_space p = true ->
    starts_with p (remove_urls b s) = true ->
    b = false /\ starts_with p s = true.
Proof.
  induction s as [| c s IH]; intros p b Hp;
    [cbn [remove_urls]; rewrite starts_with_nil; discriminate |].
  destruct b.
  - cbn [remove_urls]. destruct (isspace c) eqn:Ec.
    + rewrite starts_with_head by assumption. discriminate.
    + intros H. apply IH in H as [H _]; [discriminate | exact Hp].
  - cbn [remove_urls]. destruct (url_at (String c s)) eqn:Eu.
    + intros H. apply IH in H as [H _]; [discriminate | exact Hp].
    + destruct p as [| a p]; [intros H; split; [reflexivity | exact H] |].
      rewrite !starts_with_cons. cbn [no_space] in Hp.
      apply andb_prop in Hp as [_ Hp].
      intros H. apply andb_prop in H as [Ha H].
      apply IH in H as [_ H]; [| exact Hp].
      rewrite Ha, H. auto.
Qed.

Lemma collapse_starts (s : string) :
  forall p,
    no_space p = true ->
    starts_with p (collapse_ws false s) = true ->
    starts_with p s = true.
Proof.
  induction s as [| c s IH]; intros p Hp; cbn [collapse_ws]; [auto |].
  destruct (isspace c) eqn:Ec.
  - rewrite starts_with_head by (exact Hp || reflexivity). discriminate.
  - destruct p as [| a p]; [auto |].
    rewrite !starts_with_cons. cbn [no_space] in Hp.
    apply andb_prop in Hp as [_ Hp].
    intros H. apply andb_prop in H as [Ha H].
    rewrite Ha, (IH p Hp H). reflexivity.
Qed.

Lemma rstrip_starts (s : string) :
  forall p,
    starts_with p (rstrip s) = true -> starts_with p s = true.
Proof.
  induction s as [| c s IH]; intros p; cbn [rstrip]; [auto |].
  destruct (isspace c && str_eqb (rstrip s) EmptyString).
  - rewrite starts_with_nil. discriminate.
  - destruct p as [| a p]; [auto |].
    rewrite !starts_with_cons.
    intros H. apply andb_prop in H as [Ha H].
    rewrite Ha, (IH p H). reflexivity.
Qed.

(** A step under which no new match begins at the head keeps a text free
    of matches at the head. *)
Lemma url_at_mono (f : string -> string) (s : string) :
  (forall p, no_space p = true ->
             starts_with p (f s) = true -> starts_with p s = true) ->
  url_at s = false -> url_at (f s) = false.
Proof.
  unfold url_at. intros Hf H. apply orb_false_elim in H as [H1 H2].
  destruct (starts_with "http://" (f s)) eqn:E1;
    [apply Hf in E1; [congruence | reflexivity] |].
  destruct (starts_with "https://" (f s)) eqn:E2;
    [apply Hf in E2; [congruence | reflexivity] |].
  reflexivity.
Qed.

Lemma remove_urls_no_url (s : string) (b : bool) :
  has_url (remove_urls b s) = false.
Proof.
  revert b. induction s as [| c s IH]; intros b; [reflexivity |].
  destruct b.
  - cbn [remove_urls]. destruct (isspace c) eqn:Ec; [| apply IH].
    cbn [has_url]. rewrite url_at_space, IH by exact Ec. reflexivity.
  - destruct (url_at (String c s)) eqn:Eu.
    + cbn [remove_urls]. rewrite Eu. apply IH.
    + assert (Hhead : url_at (remove_urls false (String c s)) = false).
      { apply (url_at_mono (remove_urls false)); [| exact Eu].
        intros p Hp H. apply (remove_urls_starts _ _ _ Hp H). }
      revert Hhead. cbn [remove_urls]. rewrite Eu. intros Hhead.
      cbn [has_url]. rewrite Hhead, IH. reflexivity.
Qed.

Lemma collapse_no_url (s : string) (b : bool) :
  has_url s = false -> has_url (collapse_ws b s) = false.
Proof.
  revert b. induction s as [| c s IH]; intros b; [auto |].
  cbn [has_url]. intros H. apply orb_false_elim in H as [Hu Hs].
  destruct (isspace c) eqn:Ec.
  - cbn [collapse_ws]. rewrite Ec. destruct b; [apply IH, Hs |].
    cbn [has_url]. rewrite url_at_space, IH by (exact Hs || reflexivity).
    reflexivity.
  - assert (Hhead : url_at (collapse_ws false (String c s)) = false)
      by (apply (url_at_mono (collapse_ws false)), Hu;
          intros p; apply collapse_starts).
    revert Hhead. cbn [collapse_ws]. rewrite Ec. intros Hhead.
    cbn [has_url]. rewrite Hhead, IH by exact Hs. reflexivity.
Qed.

Lemma lstrip_no_url (s : string) :
  has_url s = false -> has_url (lstrip s) = false.
Proof.
  induction s as [| c s IH]; [auto |].
  intros H. cbn [lstrip]. destruct (isspace c); [| exact H].
  cbn [has_url] in H. apply orb_false_elim in H as [_ H]. apply IH, H.
Qed.

Lemma rstrip_no_url (s : string) :
  has_url s = false -> has_url (rstrip s) = false.
Proof.
  induction s as [| c s IH]; [auto |].
  cbn [has_url]. intros H. apply orb_false_elim in H as [Hu Hs].
  assert (Hhead : url_at (rstrip (String c s)) = false)
    by (apply (url_at_mono rstrip), Hu; intros p _; apply rstrip_starts).
  revert Hhead. cbn [rstrip].
  destruct (isspace c && str_eqb (rstrip s) EmptyString); [reflexivity |].
  intros Hhead. cbn [has_url]. rewrite Hhead, IH by exact Hs. reflexivity.
Qed.

Lemma remove_markdown_none (s : string) :
  has_markdown (remove_markdown s) = false.
Proof.
  induction s as [| c s IH]; [reflexivity |].
  cbn [remove_markdown]. destruct (is_markdown c) eqn:Ec; [exact IH |].
  cbn [has_markdown]. rewrite Ec, IH. reflexivity.
Qed.

Lemma remove_urls_no_markdown (s : string) (b : bool) :
  has_markdown s = false -> has_markdown (remove_urls b s) = false.
Proof.
  revert b. induction s as [| c s IH]; intros b; [auto |].
  cbn [has_markdown]. intros H. apply orb_false_elim in H as [Hc Hs].
  cbn [remove_urls].
  destruct b; [destruct (isspace c) | destruct (url_at (String c s))];
    cbn [has_markdown]; rewrite ?Hc; cbn [orb]; apply IH, Hs.
Qed.

Lemma collapse_no_markdown (s : string) (b : bool) :
  has_markdown s = false -> has_markdown (collapse_ws b s) = false.
Proof.
  revert b. induction s as [| c s IH]; intros b; [auto |].
  cbn [has_markdown]. intros H. apply orb_false_elim in H as [Hc Hs].
  cbn [collapse_ws].
  destruct (isspace c); [destruct b |];
    cbn [has_markdown]; rewrite ?Hc;
    change (is_markdown " ") with false; cbn [orb]; apply IH, Hs.
Qed.

Lemma lstrip_no_markdown (s : string) :
  has_markdown s = false -> has_markdown (lstrip s) = false.
Proof.
  induction s as [| c s IH]; [auto |].
  intros H. cbn [lstrip]. destruct (isspace c); [| exact H].
  cbn [has_markdown] in H. apply orb_false_elim in H as [_ H]. apply IH, H.
Qed.

Lemma rstrip_no_markdown (s : string) :
  has_markdown s = false -> has_markdown (rstrip s) = false.
Proof.
  induction s as [| c s IH]; [auto |].
  cbn [has_markdown]. intros H. apply orb_false_elim in H as [Hc Hs].
  cbn [rstrip].
  destruct (isspace c && str_eqb (rstrip s) EmptyString); [reflexivity |].
  cbn [has_markdown]. rewrite Hc, IH by exact Hs. reflexivity.
Qed.

Lemma remove_markdown_fixed (s : string) :
  has_markdown s = false -> remove_markdown s = s.
Proof.
  induction s as [| c s IH]; [auto |].
  cbn [has_markdown]. intros H. apply orb_false_elim in H as [Hc Hs].
  cbn [remove_markdown]. rewrite Hc, IH by exact Hs. reflexivity.
Qed.

Lemma remove_urls_fixed (s : string) :
  has_url s = false -> remove_urls false s = s.
Proof.
  induction s as [| c s IH]; [auto |].
  cbn [has_url]. intros H. apply orb_false_elim in H as [Hu Hs].
  cbn [remove_urls]. rewrite Hu, IH by exact Hs. reflexivity.
Qed.

(** X27: the result of [clean_description] holds none of the characters
    # * ` _ ~ and no match of the URL pattern, has its whitespace
    collapsed and is stripped, so that cleaning twice is cleaning once.
    The markdown characters go first: a URL that one of them breaks is
    removed as well, while "http://" with nothing behind it stays. *)
Theorem clean_description_clean (text : string) :
  let cleaned := clean_description text in
  has_markdown cleaned = false
  /\ has_url cleaned = false
  /\ collapse_ws false cleaned = cleaned
  /\ strip cleaned = cleaned
  /\ clean_description cleaned = cleaned
  /\ clean_description EmptyString = EmptyString
  /\ clean_description "see h_ttps://example.com/a_b now" = "see now"%string
  /\ clean_description "see http:// now" = "see http:// now"%string.
Proof.
  cbv zeta.
  assert (H : has_markdown (clean_description text) = false
              /\ has_url (clean_description text) = false
              /\ collapse_ws false (clean_description text)
                 = clean_description text
              /\ strip (clean_description text) = clean_description text).
  { unfold clean_description.
    destruct (str_eqb text EmptyString); [repeat split |]. cbv zeta.
    split; [| split; [| split]].
    - apply rstrip_no_markdown, lstrip_no_markdown, collapse_no_markdown,
        remove_urls_no_markdown, remove_markdown_none.
    - apply rstrip_no_url, lstrip_no_url, collapse_no_url,
        remove_urls_no_url.
    - unfold strip. rewrite lstrip_collapse.
      apply collapse_fixed_rstrip, collapse_idem.
    - apply strip_idem. }
  destruct H as (Hm & Hu & Hc & Hs).
  repeat (split; [assumption |]).
  split; [| repeat split].
  unfold clean_description at 1.
  destruct (str_eqb (clean_description text) EmptyString) eqn:E.
  - apply str_eqb_empty in E. congruence.
  - cbv zeta.
    rewrite (remove_markdown_fixed _ Hm), (remove_urls_fixed _ Hu), Hc.
    exact Hs.
Qed.

(** ** The embeddings of a batch *)

Lemma retry_ok {A} (body : IO A) (attempts : nat) :
  forall last s s' a,
    VertexAIClient.retry attempts last body s = (Ok a, s') ->
    exists s0, body s0 = (Ok a, s').
Proof.
  induction attempts as [| n IH]; intros last s s' a;
    cbn [VertexAIClient.retry].
  - unfold raise. discriminate.
  - destruct (body s) as [[a0 | e] s0] eqn:Hb.
    + intros [= <- <-]. eauto.
    + apply IH.
Qed.

Lemma batches_concat (fuel : nat) :
  forall texts,
    (length texts <= fuel)%nat -> concat (batches fuel texts) = texts.
Proof.
  induction fuel as [| fuel IH]; intros texts Hlen.
  - destruct texts; [reflexivity | cbn [length] in Hlen; lia].
  - destruct texts as [| t texts]; [reflexivity |].
    change (batches (S fuel) (t :: texts))
      with (take VERTEX_AI_BATCH_SIZE (t :: texts)
              :: batches fuel (drop VERTEX_AI_BATCH_SIZE (t :: texts))).
    cbn [concat]. rewrite IH; [apply take_drop |].
    rewrite length_drop. unfold VERTEX_AI_BATCH_SIZE. lia.
Qed.

Section BatchFacts.

Variable model : list string -> string -> State -> result (list ndarray).

(** The model answers a batch with one embedding for each text. *)
Hypothesis model_lengths :
  forall batch task_type s l,
    model batch task_type s = Ok l -> length l = length batch.

Lemma embed_batches_length (task_type : string) (todo : list (list string)) :
  forall acc s r s',
    embed_batches model todo task_type acc s = (Ok r, s') ->
    length r = (length acc + length (concat todo))%nat.
Proof using model_lengths.
  induction todo as [| batch todo IH]; intros acc s r s';
    cbn [embed_batches concat].
  - unfold ret. intros [= <- _]. cbn [length]. lia.
  - unfold bind, modify, get_state, lift.
    destruct (model batch task_type (log_batch batch task_type s))
      as [l | e] eqn:Hl; [| discriminate].
    intros H. apply IH in H. apply model_lengths in Hl.
    rewrite H, !length_app, Hl. lia.
Qed.

Lemma embed_texts_length (texts : list string) (task_type : string)
      (s s' : State) (r : list ndarray) :
  embed_texts model texts task_type s = (Ok r, s') ->
  Forall (fun t => blank t = false) texts
  \/ Forall (fun t => blank t = true) texts ->
  length r = length texts.
Proof using model_lengths.
  unfold embed_texts. intros H Hall.
  apply retry_ok in H as [s0 H]. revert H.
  unfold embed_texts_once.
  destruct texts as [| t0 texts0] eqn:Et; [intros [= <- _]; reflexivity |].
  rewrite <- Et in *. clear Et t0 texts0.
  destruct (List.filter (fun t => negb (blank t)) texts)
    as [| v valid] eqn:Hvalid.
  - unfold ret. intros [= <- _]. apply length_map.
  - rewrite <- Hvalid.
    assert (Hsame : List.filter (fun t => negb (blank t)) texts = texts).
    { destruct Hall as [Hall | Hall].
      - clear Hvalid. induction Hall as [| t l Ht Hl IHl];
          [reflexivity |].
        cbn [List.filter]. rewrite Ht. cbn [negb]. rewrite IHl.
        reflexivity.
      - exfalso.
        assert (Hin : In v (List.filter (fun t => negb (blank t)) texts))
          by (rewrite Hvalid; left; reflexivity).
        apply filter_In in Hin as [Hin Hv].
        rewrite List.Forall_forall in Hall. rewrite (Hall v Hin) in Hv.
        discriminate. }
    rewrite Hsame. intros H. apply embed_batches_length in H.
    rewrite H, batches_concat by lia. reflexivity.
Qed.

End BatchFacts.

Lemma check_cache_inv (env : Env) (use_cache : bool) (texts : list string) :
  forall i embeddings texts_to_embed cache_indices s
         embeddings' texts_to_embed' cache_indices' s',
    check_cache env use_cache texts i
                (embeddings, texts_to_embed, cache_indices) s
    = (Ok (embeddings', texts_to_embed', cache_indices'), s') ->
    length embeddings' = (length embeddings + length texts)%nat
    /\ (length texts_to_embed = length cache_indices ->
        length texts_to_embed' = length cache_indices')
    /\ (forall t, In t texts_to_embed' ->
                  In t texts_to_embed \/ In t texts)
    /\ (i = length embeddings ->
        (forall j, embeddings !! j = Some None -> In j cache_indices) ->
        forall j, embeddings' !! j = Some None -> In j cache_indices').
Proof.
  induction texts as [| text texts IH];
    intros i E T I s E' T' I' s'; cbn [check_cache].
  - unfold ret. intros [= <- <- <- _]. cbn [length].
    split; [lia |]. split; [auto |]. split; auto.
  - unfold bind at 1.
    destruct ((if use_cache then FirestoreClient.get_embedding env text
               else ret None) s) as [[[cached |] | e] s0];
      [| | discriminate]; intros H; apply IH in H as (Hlen & Hsame & Hin & Hnone).
    + split; [rewrite Hlen, length_app; cbn [length]; lia |].
      split; [exact Hsame |].
      split; [intros t Ht; destruct (Hin t Ht); [left | right; right];
              assumption |].
      intros -> Hinv. apply Hnone; [rewrite length_app; cbn [length]; lia |].
      intros j Hj. apply lookup_app_Some in Hj as [Hj | [Hge Hj]];
        [apply Hinv, Hj |].
      destruct (j - length E)%nat; [discriminate Hj |].
      cbn in Hj. discriminate Hj.
    + split; [rewrite Hlen, length_app; cbn [length]; lia |].
      split; [intros HTI; apply Hsame; rewrite !length_app, HTI;
              reflexivity |].
      split.
      { intros t Ht. destruct (Hin t Ht) as [Ht' | Ht'];
          [| right; right; exact Ht'].
        apply in_app_or in Ht' as [Ht' | [<- | []]];
          [left; exact Ht' | right; left; reflexivity]. }
      intros -> Hinv. apply Hnone; [rewrite length_app; cbn [length]; lia |].
      intros j Hj. apply in_or_app.
      apply lookup_app_Some in Hj as [Hj | [Hge Hj]];
        [left; apply Hinv, Hj |].
      right. left.
      destruct (j - length E)%nat eqn:Ej; [lia |]. cbn in Hj.
      discriminate Hj.
Qed.

Lemma store_new_inv (env : Env) (use_cache : bool)
      (texts_to_embed : list string) (cache_indices : list nat)
      (new_embeddings : list ndarray) :
  forall i embeddings s r s',
    store_new env use_cache new_embeddings i texts_to_embed cache_indices
              embeddings s = (Ok r, s') ->
    length r = length embeddings
    /\ ((length new_embeddings + i = length cache_indices)%nat ->
        (forall j, embeddings !! j = Some None ->
                   exists k, (i <= k)%nat /\ cache_indices !! k = Some j) ->
        all_filled r).
Proof.
  induction new_embeddings as [| embedding rest IH];
    intros i embeddings s r s'; cbn [store_new].
  - unfold ret. intros [= <- _]. split; [reflexivity |].
    cbn [length]. intros Hi Hinv. apply List.Forall_forall.
    intros e He ->. apply list_elem_of_In, list_elem_of_lookup_1 in He.
    destruct He as [j Hj]. destruct (Hinv j Hj) as (k & Hk & Hlook).
    apply lookup_lt_Some in Hlook. lia.
  - destruct (cache_indices !! i) as [result_idx |] eqn:Hidx;
      [| discriminate].
    destruct (result_idx <? length embeddings)%nat; [| discriminate].
    cbv zeta. unfold bind at 1.
    destruct ((if use_cache
               then match texts_to_embed !! i with
                    | Some text =>
                        FirestoreClient.store_embedding env text embedding
                    | None => raise "list index out of range"
                    end
               else ret tt) s) as [[[] | e] s0]; [| discriminate].
    intros H. apply IH in H as [Hlen Hfill].
    split; [rewrite Hlen; apply length_insert |].
    cbn [length]. intros Hi Hinv. apply Hfill; [lia |].
    intros j Hj.
    destruct (Nat.eq_dec j result_idx) as [-> | Hne].
    + apply list_lookup_insert_Some in Hj.
      destruct Hj as [(_ & Hj & _) | (Hj & _)]; [discriminate | congruence].
    + rewrite list_lookup_insert_ne in Hj by congruence.
      destruct (Hinv j Hj) as (k & Hk & Hlook).
      exists k. split; [| exact Hlook].
      destruct (Nat.eq_dec k i) as [-> | Hki]; [congruence | lia].
Qed.

(** X28: [get_embeddings] returns one slot for each text.  When the
    embedding model answers every batch with one embedding for each of
    its texts, and the texts are all blank or all not blank, every slot
    holds an embedding. *)
Theorem get_embeddings_complete
        (model : list string -> string -> State -> result (list ndarray))
        (env : Env) (texts : list string) (task_type : string)
        (use_cache : bool) (s s' : State) (r : list (option ndarray)) :
  get_embeddings model env texts task_type use_cache s = (Ok r, s') ->
  length r = length texts
  /\ ((forall batch task_type s l,
          model batch task_type s = Ok l -> length l = length batch) ->
      Forall (fun t => blank t = false) texts
      \/ Forall (fun t => blank t = true) texts ->
      all_filled r).
Proof.
  unfold get_embeddings, bind at 1.
  destruct (check_cache env use_cache texts 0 ([], [], []) s)
    as [[[[E T] I] | e] s0] eqn:Hcheck; [| discriminate].
  apply check_cache_inv in Hcheck as (Hlen & Hsame & Hin & Hnone).
  cbn [length] in Hlen, Hsame. specialize (Hsame eq_refl).
  specialize (Hnone eq_refl).
  assert (HnoneE : forall j, E !! j = Some None -> In j I).
  { apply Hnone. intros j Hj. destruct j; discriminate Hj. }
  destruct T as [| t0 T0] eqn:ET.
  - unfold ret. intros [= <- _]. split; [lia |].
    intros _ _. destruct I; [| discriminate Hsame].
    apply List.Forall_forall. intros e He ->.
    apply list_elem_of_In, list_elem_of_lookup_1 in He as [j Hj].
    exact (HnoneE j Hj).
  - rewrite <- ET in *. clear ET t0 T0.
    unfold bind.
    destruct (embed_texts model T task_type s0) as [[new | e] s1] eqn:Hnew;
      [| discriminate].
    intros H. apply store_new_inv in H as [Hlen' Hfill].
    split; [lia |].
    intros Hmodel Hall. apply Hfill.
    + rewrite Nat.add_0_r, <- Hsame.
      apply (embed_texts_length model Hmodel _ _ _ _ _ Hnew).
      destruct Hall as [Hall | Hall]; [left | right];
        apply List.Forall_forall; intros t Ht;
        rewrite List.Forall_forall in Hall; apply Hall;
        destruct (Hin t Ht) as [[] | Ht']; exact Ht'.
    + intros j Hj. apply HnoneE in Hj.
      apply list_elem_of_In, list_elem_of_lookup_1 in Hj as [k Hk].
      exists k. split; [lia | exact Hk].
Qed.

(** The hypotheses of [get_embeddings_complete] at two texts that are not
    cached. *)
Lemma get_embeddings_complete_witness :
  exists r,
    fst (get_embeddings unit_model quiet_env ["hello"; "world"]%string
           "RETRIEVAL_QUERY" true empty_state) = Ok r
    /\ length r = 2%nat
    /\ all_filled r.
Proof.
  destruct (get_embeddings unit_model quiet_env ["hello"; "world"]%string
              "RETRIEVAL_QUERY" true empty_state) as [[r | e] s'] eqn:H;
    [| vm_compute in H; discriminate].
  destruct (get_embeddings_complete unit_model quiet_env _ _ _ _ _ _ H)
    as [Hlen Hfill].
  exists r. split; [reflexivity |]. split; [exact Hlen |].
  apply Hfill.
  - unfold unit_model. intros batch task_type s l [= <-]. apply length_map.
  - left. repeat constructor.
Defined.

(** X29: a blank text shifts the embeddings of a batch.  [embed_texts]
    drops the blank texts and [get_embeddings] writes the embeddings it
    gets back to the first slots that it left open: of a blank text
    followed by another, none of them cached, the blank one gets the
    embedding of the other, whose slot stays [None]; and that embedding
    is cached under the blank text, which the cache then serves. *)
Theorem get_embeddings_blank_shifts
        (model : list string -> string -> State -> result (list ndarray))
        (env : Env) (b t task_type : string) (v : ndarray) (s : State) :
  blank b = true ->
  blank t = false ->
  (forall op s0, firestore_fault env op s0 = None) ->
  embeddings_col s !! FirestoreClient._hash_text b = None ->
  embeddings_col s !! FirestoreClient._hash_text t = None ->
  (forall s0, model [t] task_type s0 = Ok [v]) ->
  exists s' doc,
    get_embeddings model env [b; t] task_type true s
    = (Ok [Some v; None], s')
    /\ embeddings_col s'
       = <[ FirestoreClient._hash_text b := doc ]> (embeddings_col s)
    /\ e_text doc = b
    /\ e_embedding doc = Some v
    /\ (v <> [] ->
        FirestoreClient.get_embedding env b s' = (Ok (Some v), s')).
Proof.
  intros Hb Ht Hfault Hmiss_b Hmiss_t Hmodel.
  assert (Hget : forall text,
             embeddings_col s !! FirestoreClient._hash_text text = None ->
             FirestoreClient.get_embedding env text s = (Ok None, s)).
  { intros text Hmiss.
    rewrite firestore_get_embedding_spec by apply Hfault.
    rewrite Hmiss. reflexivity. }
  assert (Hembed : forall s0,
             embed_texts model [b; t] task_type s0
             = (Ok [v], log_provider_call t task_type s0)).
  { intros s0. unfold embed_texts. cbn [VertexAIClient.retry].
    unfold embed_texts_once. cbn [List.filter]. rewrite Hb, Ht.
    cbn [negb length batches]. unfold VERTEX_AI_BATCH_SIZE.
    cbn [take drop batches embed_batches].
    unfold bind, modify, get_state, lift, ret. cbn [log_batch fold_left].
    rewrite Hmodel. reflexivity. }
  destruct (FirestoreClient.store_embedding env b v
              (log_provider_call t task_type s)) as [r s'] eqn:Hstore.
  assert (Hr : r = Ok tt).
  { revert Hstore.
    unfold FirestoreClient.store_embedding, bind, now, firestore, modify.
    rewrite Hfault. intros [= <- _]. reflexivity. }
  subst r. pose proof (store_embedding_inv _ _ _ _ _ Hstore) as [Hclock Hcol].
  exists s'. eexists. split; [| split; [exact Hcol |]].
  - unfold get_embeddings. cbn [check_cache]. unfold bind.
    rewrite (Hget b Hmiss_b), (Hget t Hmiss_t). unfold ret.
    cbn [app]. rewrite Hembed.
    cbn [store_new lookup list_lookup length Nat.ltb Nat.leb].
    cbv zeta. unfold bind. rewrite Hstore. reflexivity.
  - cbn [e_text e_embedding]. split; [reflexivity |].
    split; [reflexivity |]. intros Hv.
    rewrite firestore_get_embedding_spec by apply Hfault.
    rewrite Hcol, lookup_insert_eq.
    unfold FirestoreClient.read_embedding.
    cbn [e_ttl_seconds e_created_at e_embedding default]. cbv zeta.
    rewrite Hclock, Z.sub_diag.
    change (seconds CACHE_TTL_EMBEDDINGS <? 0)%Z with false. cbv iota.
    destruct v; [contradiction | reflexivity].
Qed.

(** The hypotheses of [get_embeddings_blank_shifts] at an empty text
    followed by "hello". *)
Lemma get_embeddings_blank_shifts_witness :
  exists s',
    get_embeddings unit_model quiet_env [""; "hello"]%string
                   "RETRIEVAL_QUERY" true empty_state
    = (Ok [Some [1%Q; 0%Q]; None], s')
    /\ FirestoreClient.get_embedding quiet_env "" s'
       = (Ok (Some [1%Q; 0%Q]), s').
Proof.
  destruct (get_embeddings_blank_shifts unit_model quiet_env
              "" "hello" "RETRIEVAL_QUERY" [1%Q; 0%Q] empty_state)
    as (s' & doc & Hrun & _ & _ & _ & Hserved);
    try reflexivity.
  exists s'. split; [exact Hrun |]. apply Hserved. discriminate.
Defined.

(** ** The duplicate score *)

Lemma ratio_one (n : nat) : (0 < n)%nat -> (of_int n / of_int n == 1)%Q.
Proof.
  intros Hn. unfold of_int. apply Qmult_inv_r.
  change 0%Q with (inject_Z 0). rewrite inject_Z_injective. lia.
Qed.

Lemma Qhalf_le (a b : Q) : (a <= b)%Q -> (a / 2 <= b / 2)%Q.
Proof.
  intros H. unfold Qdiv. apply Qmult_le_compat_r; [exact H |].
  compute. discriminate.
Qed.

(** X30: [duplicate_score] is the similarity when the task or the project
    has no keyword, and else the mean of the similarity and of the
    overlap of the keywords.  So it is monotone in the similarity, lies
    between the half of a similarity in [0, 1] and the half of that
    similarity plus one half, and reaches the latter for a task whose
    description is the name of a project without description. *)
Theorem duplicate_score_range (task : Task) (p : LinearProject)
        (sim sim' : Q) :
  ((0 <= sim <= 1)%Q ->
   (sim / 2 <= ReasoningEngine.duplicate_score task p sim
    <= (sim + 1) / 2)%Q)
  /\ ((sim <= sim')%Q ->
      (ReasoningEngine.duplicate_score task p sim
       <= ReasoningEngine.duplicate_score task p sim')%Q)
  /\ (ReasoningEngine.keyword_set (task_description task) = ∅ ->
      ReasoningEngine.duplicate_score task p sim = sim)
  /\ (task_description task = name p ->
      truthy (description p) = false ->
      ReasoningEngine.keyword_set (name p) <> ∅ ->
      (ReasoningEngine.duplicate_score task p sim == (sim + 1) / 2)%Q).
Proof.
  unfold ReasoningEngine.duplicate_score. cbv zeta.
  set (A := ReasoningEngine.keyword_set (task_description task)).
  set (B := if truthy (description p) then _ else _).
  split; [| split; [| split]].
  - intros Hsim.
    destruct (bool_decide (A = ∅)) eqn:HA; cbn [negb andb];
      [split; [apply Qle_shift_div_r | apply Qle_shift_div_l]; lra |].
    destruct (bool_decide (B = ∅)); cbn [negb];
      [split; [apply Qle_shift_div_r | apply Qle_shift_div_l]; lra |].
    apply bool_decide_eq_false in HA.
    assert (Hratio : (0 <= of_int (size (A ∩ B)) / of_int (size (A ∪ B))
                      <= 1)%Q).
    { apply ratio_bounds.
      - apply subseteq_size. etrans; [apply intersection_subseteq_l |].
        apply union_subseteq_l.
      - assert (size A <= size (A ∪ B))%nat
          by (apply subseteq_size, union_subseteq_l).
        assert (size A <> 0%nat)
          by (intros H0; apply size_empty_inv in H0;
              apply HA; apply leibniz_equiv, H0).
        lia. }
    revert Hratio.
    generalize (of_int (size (A ∩ B)) / of_int (size (A ∪ B)))%Q.
    intros overlap Hratio. split; apply Qhalf_le; lra.
  - intros Hle.
    destruct (negb (bool_decide (A = ∅)) && negb (bool_decide (B = ∅)));
      [| exact Hle].
    generalize (of_int (size (A ∩ B)) / of_int (size (A ∪ B)))%Q.
    intros overlap. apply Qhalf_le. lra.
  - intros HA. rewrite (bool_decide_eq_true_2 _ HA). reflexivity.
  - intros Hname Hdesc Hne. subst A B. rewrite Hdesc, Hname.
    rewrite (bool_decide_eq_false_2 _ Hne). cbn [negb andb].
    rewrite intersection_idemp_L, union_idemp_L.
    assert (Hsize : (0 < size (ReasoningEngine.keyword_set (name p)))%nat).
    { destruct (size (ReasoningEngine.keyword_set (name p))) eqn:E;
        [| lia].
      apply size_empty_inv in E. exfalso. apply Hne, leibniz_equiv, E. }
    rewrite (ratio_one _ Hsize). reflexivity.
Qed.

(** The hypotheses of [duplicate_score_range] at a task named as the
    Slack project. *)
Lemma duplicate_score_range_witness :
  (ReasoningEngine.duplicate_score
     {| task_id := "T-3"; task_description := name slack_project;
        source := "linear"; priority := None |}
     slack_project 0.6 == 0.8)%Q
  /\ (ReasoningEngine.duplicate_score slack_task slack_project 0.5
      <= ReasoningEngine.duplicate_score slack_task slack_project 0.6)%Q
  /\ (0.25 <= ReasoningEngine.duplicate_score slack_task slack_project 0.5
      <= 0.75)%Q.
Proof.
  split; [| split].
  - destruct (duplicate_score_range
                {| task_id := "T-3"; task_description := name slack_project;
                   source := "linear"; priority := None |}
                slack_project 0.6 0.6) as (_ & _ & _ & Hsame).
    rewrite Hsame; [reflexivity | reflexivity | reflexivity |].
    intros Hempty.
    assert (Hin : "slack"%string
                    ∈ ReasoningEngine.keyword_set (name slack_project)).
    { unfold ReasoningEngine.keyword_set. apply elem_of_list_to_set.
      apply list_elem_of_In. vm_compute. tauto. }
    rewrite Hempty in Hin. apply elem_of_empty in Hin. exact Hin.
  - destruct (duplicate_score_range slack_task slack_project 0.5 0.6)
      as (_ & Hmono & _).
    apply Hmono. lra.
  - destruct (duplicate_score_range slack_task slack_project 0.5 0.5)
      as (Hrange & _).
    assert (H : (0 <= 0.5 <= 1)%Q) by lra.
    destruct (Hrange H) as [Hlo Hhi].
    split; [eapply Qle_trans; [| exact Hlo] | eapply Qle_trans; [exact Hhi |]];
      compute; discriminate.
Defined.
